(** * Subunit v2 codec (subunit-stream.js): a shallow embedding and its
    verified properties.

    The development follows the layout of [src/subunit-stream.js]:
    the JavaScript and Node primitives the file relies on ([Js],
    [Double], [Date], [Buf], [BL], [crc32]), the protocol tables
    ([signature], [statusFlags], [flagMasks]), the primitive codecs
    ([readVarInt], [writeVarInt], [readUtf8], [writeUtf8]), the decoder
    [SubunitToObjectStream] and the encoder [ObjectToSubunitStream]; the
    theorems come last. *)

From Stdlib Require Import ZArith List Lia Bool String Ascii DecimalString.
Import ListNotations.
Local Open Scope Z_scope.

(** ** Exceptions

    A JavaScript call either returns or throws.  [RangeError] is what a
    Buffer read past the end throws (the decoder catches exactly this
    class); [OutOfBounds] is what a Buffer write of a value that does not
    fit the field throws; [Error] is [new Error(msg)]; [Unhandled] is the
    Error that [emit('error', value)] throws when the emitter has no
    ['error'] listener (its message, which names [value], differs between
    Node versions; it is not a [RangeError]). *)

Inductive exn : Type :=
| RangeError
| OutOfBounds
| Error (msg : string)
| Unhandled (value : string).

Inductive result (A : Type) : Type :=
| Ok (a : A)
| Throw (e : exn).

Arguments Ok {A} a.
Arguments Throw {A} e.

Definition bind {A B : Type} (m : result A) (k : A -> result B) : result B :=
  match m with
  | Ok a => k a
  | Throw e => Throw e
  end.

Notation "x <- m ;; k" := (bind m (fun x => k))
  (at level 61, m at next level, right associativity).
Notation "' p <- m ;; k" := (bind m (fun p => k))
  (at level 61, p pattern, m at next level, right associativity).

(** ** JavaScript numbers and strings

    Numbers are modelled by [Z]: every number the codec handles is an
    integer below 2^53, where double arithmetic is exact.  The bitwise
    operators work on 32-bit two's complement values, as in the language. *)

Module Js.

Definition ToInt32 (x : Z) : Z := (x + 2 ^ 31) mod 2 ^ 32 - 2 ^ 31.

Definition ToUint32 (x : Z) : Z := x mod 2 ^ 32.

(** [a & b] *)
Definition and (a b : Z) : Z := Z.land (ToInt32 a) (ToInt32 b).

(** [a | b] *)
Definition or (a b : Z) : Z := Z.lor (ToInt32 a) (ToInt32 b).

(** [a << n], for a constant shift count [0 <= n < 32] *)
Definition shl (a n : Z) : Z := ToInt32 (Z.shiftl (ToInt32 a) n).

(** [a >>> 0] *)
Definition ushr0 (a : Z) : Z := ToUint32 a.

(** [n.toString()] of an integer *)
Definition toString (n : Z) : string := NilZero.string_of_int (Z.to_int n).

(** A string is its sequence of UTF-16 code units. *)
Definition String : Type := list Z.

(** An ASCII literal as a JavaScript string. *)
Definition lit (s : string) : String :=
  map (fun a => Z.of_N (N_of_ascii a)) (list_ascii_of_string s).

(** The values a record's [status] property takes. *)
Inductive Value : Type :=
| undefined
| null
| str (s : String).

Definition String_eqb (s t : String) : bool :=
  if list_eq_dec Z.eq_dec s t then true else false.

(** [a === b] *)
Definition Value_eqb (a b : Value) : bool :=
  match a, b with
  | undefined, undefined => true
  | null, null => true
  | str s, str t => String_eqb s t
  | _, _ => false
  end.

End Js.

(** ** Numbers that are not integers

    The decoder computes a timestamp with the double operators [*], [/]
    and [+].  A finite double is kept as the fraction it denotes; every
    operation is the exact one followed by rounding to the nearest double,
    ties to even.  The values that occur here (integers below [2 ^ 53] and
    their quotients by 1000000) are far from the overflow and the
    subnormal range, which are left out. *)

Module Double.

(** The double [num / den]; [den] is a power of two and the fraction is
    in lowest terms. *)
Record t : Type := make { num : Z; den : Z }.

(** The integer nearest to [a / b], ties to even, for [0 <= a], [0 < b]. *)
Definition nearest_even (a b : Z) : Z :=
  let q := a / b in
  let r := a mod b in
  if 2 * r <? b then q
  else if b <? 2 * r then q + 1
  else if Z.even q then q else q + 1.

Definition reduce (m p : Z) : t :=
  let g := Z.gcd m p in make (m / g) (p / g).

(** [2 ^ e <= n / d], for any integer [e]. *)
Definition ge_pow2 (n d e : Z) : bool :=
  if 0 <=? e then d * 2 ^ e <=? n else d <=? n * 2 ^ (- e).

(** The double nearest to [n / d] for [0 < n], [0 < d]: with
    [2 ^ e <= n / d < 2 ^ (e + 1)], the nearest multiple of
    [2 ^ (e - 52)]. *)
Definition round_pos (n d : Z) : t :=
  let e0 := Z.log2 n - Z.log2 d in
  let e := if ge_pow2 n d e0 then e0 else e0 - 1 in
  let s := 52 - e in
  if 0 <=? s
  then reduce (nearest_even (n * 2 ^ s) d) (2 ^ s)
  else make (nearest_even n (d * 2 ^ (- s)) * 2 ^ (- s)) 1.

(** The double nearest to [n / d], for [0 < d]. *)
Definition round (n d : Z) : t :=
  if n =? 0 then make 0 1
  else if 0 <? n then round_pos n d
  else let r := round_pos (- n) d in make (- num r) (den r).

Definition of_Z (z : Z) : t := round z 1.

Definition mul (a b : t) : t := round (num a * num b) (den a * den b).

Definition add (a b : t) : t :=
  round (num a * den b + num b * den a) (den a * den b).

(** [a / b] for a positive [b]. *)
Definition div (a b : t) : t := round (num a * den b) (den a * num b).

(** The integer part, towards zero. *)
Definition trunc (a : t) : Z := Z.quot (num a) (den a).

End Double.

(** ** Dates

    A Date holds a time value in milliseconds, or is invalid ([getTime()]
    is [NaN]).  [new Date(x)] keeps the integer part of [x] when it is
    within 8.64e15 milliseconds of the epoch. *)

Module Date.

Inductive t : Type :=
| valid (time : Z)
| invalid.

Definition of_number (x : Double.t) : t :=
  let time := Double.trunc x in
  if Z.abs time <=? 8640000000000000 then valid time else invalid.

End Date.

(** ** UTF-8

    The codec behind [Buffer.byteLength(s, 'utf8')], [buf.write(s, ...,
    'utf8')] and [buf.toString('utf8')].  Encoding turns a surrogate pair
    into one four-octet sequence and an unpaired surrogate into the
    encoding of U+FFFD; decoding turns every ill-formed sequence into
    U+FFFD and a code point above U+FFFF into a surrogate pair. *)

Module Utf8.

Definition is_high (c : Z) : bool := (0xD800 <=? c) && (c <=? 0xDBFF).

Definition is_low (c : Z) : bool := (0xDC00 <=? c) && (c <=? 0xDFFF).

Definition replacement : list Z := [0xEF; 0xBF; 0xBD].

Definition encode_point (cp : Z) : list Z :=
  if cp <? 0x80 then [cp]
  else if cp <? 0x800 then [0xC0 + cp / 64; 0x80 + cp mod 64]
  else if cp <? 0x10000 then
    [0xE0 + cp / 4096; 0x80 + (cp / 64) mod 64; 0x80 + cp mod 64]
  else
    [0xF0 + cp / 262144; 0x80 + (cp / 4096) mod 64;
     0x80 + (cp / 64) mod 64; 0x80 + cp mod 64].

Fixpoint encode (s : list Z) : list Z :=
  match s with
  | [] => []
  | c :: s' =>
    if is_high c then
      match s' with
      | d :: s'' =>
        if is_low d
        then encode_point (0x10000 + (c - 0xD800) * 1024 + (d - 0xDC00))
               ++ encode s''
        else replacement ++ encode s'
      | [] => replacement
      end
    else if is_low c then replacement ++ encode s'
    else encode_point c ++ encode s'
  end.

Definition cont (b : Z) : bool := (0x80 <=? b) && (b <=? 0xBF).

(** The second octet of a three- or four-octet sequence, whose range
    depends on the first (no overlong forms, no surrogates, nothing
    above U+10FFFF). *)
Definition second_ok (b0 b1 : Z) : bool :=
  if b0 =? 0xE0 then (0xA0 <=? b1) && (b1 <=? 0xBF)
  else if b0 =? 0xED then (0x80 <=? b1) && (b1 <=? 0x9F)
  else if b0 =? 0xF0 then (0x90 <=? b1) && (b1 <=? 0xBF)
  else if b0 =? 0xF4 then (0x80 <=? b1) && (b1 <=? 0x8F)
  else cont b1.

Definition units (cp : Z) : list Z :=
  if cp <? 0x10000 then [cp]
  else [0xD800 + (cp - 0x10000) / 1024; 0xDC00 + (cp - 0x10000) mod 1024].

Fixpoint decode (b : list Z) : list Z :=
  match b with
  | [] => []
  | b0 :: r0 =>
    if (0 <=? b0) && (b0 <? 0x80) then b0 :: decode r0
    else if (0xC2 <=? b0) && (b0 <=? 0xDF) then
      match r0 with
      | b1 :: r1 =>
        if cont b1
        then ((b0 - 0xC0) * 64 + (b1 - 0x80)) :: decode r1
        else 0xFFFD :: decode r0
      | [] => [0xFFFD]
      end
    else if (0xE0 <=? b0) && (b0 <=? 0xEF) then
      match r0 with
      | b1 :: r1 =>
        if second_ok b0 b1 then
          match r1 with
          | b2 :: r2 =>
            if cont b2
            then ((b0 - 0xE0) * 4096 + (b1 - 0x80) * 64 + (b2 - 0x80))
                   :: decode r2
            else 0xFFFD :: decode r1
          | [] => [0xFFFD]
          end
        else 0xFFFD :: decode r0
      | [] => [0xFFFD]
      end
    else if (0xF0 <=? b0) && (b0 <=? 0xF4) then
      match r0 with
      | b1 :: r1 =>
        if second_ok b0 b1 then
          match r1 with
          | b2 :: r2 =>
            if cont b2 then
              match r2 with
              | b3 :: r3 =>
                if cont b3
                then units ((b0 - 0xF0) * 262144 + (b1 - 0x80) * 4096
                            + (b2 - 0x80) * 64 + (b3 - 0x80))
                       ++ decode r3
                else 0xFFFD :: decode r2
              | [] => [0xFFFD]
              end
            else 0xFFFD :: decode r1
          | [] => [0xFFFD]
          end
        else 0xFFFD :: decode r0
      | [] => [0xFFFD]
      end
    else 0xFFFD :: decode r0
  end.

(** A well-formed UTF-16 string: 16-bit code units, every surrogate
    paired. *)
Fixpoint well_formed (s : list Z) : bool :=
  match s with
  | [] => true
  | c :: s' =>
    if is_high c then
      match s' with
      | d :: s'' => is_low d && well_formed s''
      | [] => false
      end
    else (0 <=? c) && (c <? 0x10000) && negb (is_low c) && well_formed s'
  end.

(** The number of code points of a well-formed string. *)
Fixpoint codepoints (s : list Z) : Z :=
  match s with
  | [] => 0
  | c :: s' =>
    if is_high c then
      match s' with
      | d :: s'' => if is_low d then 1 + codepoints s'' else 1 + codepoints s'
      | [] => 1
      end
    else 1 + codepoints s'
  end.

End Utf8.

(** ** Node's Buffer

    A Buffer is its list of octets.  [slice] clamps both ends to the
    buffer; the read methods throw [RangeError] when the field does not
    lie inside the buffer; the integer writes throw when the value does
    not fit the field. *)

Definition Buffer : Type := list Z.

Module Buf.

Definition length (b : Buffer) : Z := Z.of_nat (List.length b).

Definition slice (b : Buffer) (s e : Z) : Buffer :=
  firstn (Z.to_nat (e - s)) (skipn (Z.to_nat s) b).

(** Big-endian value of a run of octets. *)
Definition be_value (bytes : list Z) : Z :=
  fold_left (fun acc x => acc * 256 + x) bytes 0.

(** The [n] big-endian octets of [v]. *)
Fixpoint be_bytes (n : nat) (v : Z) : list Z :=
  match n with
  | O => []
  | S k => (v / 256 ^ Z.of_nat k) mod 256 :: be_bytes k v
  end.

Definition readUIntBE (b : Buffer) (offset byteLength : Z) : result Z :=
  if offset + byteLength <=? length b
  then Ok (be_value (slice b offset (offset + byteLength)))
  else Throw RangeError.

Definition readUInt8 (b : Buffer) (offset : Z) : result Z :=
  readUIntBE b offset 1.

Definition readUInt16BE (b : Buffer) (offset : Z) : result Z :=
  readUIntBE b offset 2.

Definition readUInt32BE (b : Buffer) (offset : Z) : result Z :=
  readUIntBE b offset 4.

(** [buf = new Buffer(byteLength); buf.writeUIntBE(value, 0, byteLength)] *)
Definition writeUIntBE (value : Z) (byteLength : nat) : result Buffer :=
  if (0 <=? value) && (value <? 256 ^ Z.of_nat byteLength)
  then Ok (be_bytes byteLength value)
  else Throw OutOfBounds.

Definition concat (l : list Buffer) : Buffer := List.concat l.

(** [Buffer.byteLength(str, 'utf8')] *)
Definition byteLength (str : Js.String) : Z := length (Utf8.encode str).

(** The octets [buf.write(str, offset, len, 'utf8')] stores. *)
Definition write (str : Js.String) (len : Z) : Buffer :=
  firstn (Z.to_nat len) (Utf8.encode str).

(** [buf.toString('utf8')] *)
Definition toString (b : Buffer) : Js.String := Utf8.decode b.

End Buf.

(** ** The [bl] package's BufferList

    The decoder only appends to its list and reads from it.  [slice]
    copies the requested range, clamped to the octets present, into a
    Buffer; each read method slices the field's range and reads the copy
    at 0, so a field that is not wholly present throws [RangeError]. *)

Definition BufferList : Type := list Z.

Module BL.

Definition append (bl : BufferList) (chunk : Buffer) : BufferList :=
  bl ++ chunk.

Definition length (bl : BufferList) : Z := Buf.length bl.

Definition slice (bl : BufferList) (s e : Z) : Buffer := Buf.slice bl s e.

Definition readUInt8 (bl : BufferList) (offset : Z) : result Z :=
  Buf.readUInt8 (slice bl offset (offset + 1)) 0.

Definition readUInt16BE (bl : BufferList) (offset : Z) : result Z :=
  Buf.readUInt16BE (slice bl offset (offset + 2)) 0.

Definition readUInt32BE (bl : BufferList) (offset : Z) : result Z :=
  Buf.readUInt32BE (slice bl offset (offset + 4)) 0.

End BL.

(** ** The [buffer-crc32] package

    [crc32(buf)] is the standard CRC-32 (reflected polynomial
    [0xEDB88320]) of the octets, as a four-octet big-endian Buffer. *)

Module Crc.

Definition step (crc : Z) : Z :=
  if Z.testbit crc 0
  then Z.lxor (Z.shiftr crc 1) 0xEDB88320
  else Z.shiftr crc 1.

Definition update (crc octet : Z) : Z :=
  Nat.iter 8 step (Z.lxor crc octet).

Definition value (b : Buffer) : Z :=
  Z.lxor (fold_left update b 0xFFFFFFFF) 0xFFFFFFFF.

End Crc.

Definition crc32 (b : Buffer) : Buffer := Buf.be_bytes 4 (Crc.value b).

(** ** The protocol tables *)

Definition signature : Z := 0xB3.

Definition statusFlags : list (Z * Js.Value) :=
  [ (0x0, Js.null);
    (0x1, Js.str (Js.lit "exists"));
    (0x2, Js.str (Js.lit "inprogress"));
    (0x3, Js.str (Js.lit "success"));
    (0x4, Js.str (Js.lit "uxsuccess"));
    (0x5, Js.str (Js.lit "skip"));
    (0x6, Js.str (Js.lit "fail"));
    (0x7, Js.str (Js.lit "xfail")) ].

(** [statusFlags[k]]: the property, or [undefined] when there is none. *)
Definition statusFlags_get (k : Z) : Js.Value :=
  match find (fun kv => fst kv =? k) statusFlags with
  | Some kv => snd kv
  | None => Js.undefined
  end.

Module flagMasks.
Definition testId : Z := 0x0800.
Definition routeCode : Z := 0x0400.
Definition timestamp : Z := 0x0200.
Definition runnable : Z := 0x0100.
Definition tags : Z := 0x0080.
Definition mimeType : Z := 0x0020.
Definition eof : Z := 0x0010.
Definition fileContent : Z := 0x0040.
End flagMasks.

(** ** Variable-length integers *)

(** The [{ length: ..., value: ... }] objects the readers return. *)
Module Read.
Record t (A : Type) : Type := make { length : Z; value : A }.
Arguments make {A} length value.
Arguments length {A} t.
Arguments value {A} t.
End Read.

Definition readVarInt (buf : Buffer) (index : Z) : result (Read.t Z) :=
  let buf := Buf.slice buf index (index + 4) in
  first <- Buf.readUInt8 buf 0 ;;
  let type := Js.and first 0xC0 in
  let value := Js.and first 0x3F in
  if type =? 0x00 then
    Ok (Read.make 1 value)
  else if type =? 0x40 then
    rest <- Buf.readUIntBE buf 1 1 ;;
    Ok (Read.make 2 (Js.or (Js.shl value 8) rest))
  else if type =? 0x80 then
    rest <- Buf.readUIntBE buf 1 2 ;;
    Ok (Read.make 3 (Js.or (Js.shl value 16) rest))
  else
    rest <- Buf.readUIntBE buf 1 3 ;;
    Ok (Read.make 4 (Js.or (Js.shl value 24) rest)).

Definition writeVarInt (value : Z) : result Buffer :=
  if value <? 0 then
    Throw (Error ("Value must be greater than zero: " ++ Js.toString value))
  else if value <? 64 then
    Buf.writeUIntBE value 1
  else if value <? 16384 then
    Buf.writeUIntBE (Js.ushr0 (Js.or value 0x4000)) 2
  else if value <? 4194304 then
    Buf.writeUIntBE (Js.ushr0 (Js.or value 0x800000)) 3
  else if value <? 1073741824 then
    Buf.writeUIntBE (Js.ushr0 (Js.or value 0xC0000000)) 4
  else
    Throw (Error ("Value is too large to encode: " ++ Js.toString value)).

(** ** Length-prefixed UTF-8 strings *)

Definition readUtf8 (buf : Buffer) (index : Z) : result (Read.t Js.String) :=
  len <- readVarInt buf index ;;
  let value :=
    Buf.slice buf (index + Read.length len)
              (index + Read.length len + Read.value len) in
  Ok (Read.make (Read.length len + Read.value len) (Buf.toString value)).

Definition writeUtf8 (str : Js.String) : result Buffer :=
  let strLen := Buf.byteLength str in
  num <- writeVarInt strLen ;;
  Ok (num ++ Buf.write str strLen).

(** ** Records

    The [_packet.flags] object, the [_packet] object and the record the
    decoder emits and the encoder accepts, with the property types the
    README gives.  An absent ([undefined]) property is [None]; a timestamp
    is a Date; [status] is a plain
    value, since the decoder stores [null] for code 0 and the encoder
    compares whatever it is given with the table. *)

Module Flags.
Record t : Type := make {
  testId : bool;
  routeCode : bool;
  timestamp : bool;
  runnable : bool;
  tags : bool;
  mimeType : bool;
  eof : bool;
  fileContent : bool
}.
End Flags.

Module Packet.
Record t : Type := make {
  length : Z;
  flags : Flags.t
}.
End Packet.

Module Rec.
Record t : Type := make {
  timestamp : option Date.t;
  testId : option Js.String;
  tags : option (list Js.String);
  mimeType : option Js.String;
  fileContent : option Buffer;
  fileName : option Js.String;
  routeCode : option Js.String;
  status : Js.Value;
  _packet : option Packet.t
}.
End Rec.

(** What a transform hands to its consumer: [this.emit('error', msg)] and
    [this.push(record)], in the order they happen. *)
Inductive Event : Type :=
| emit_error (msg : string)
| push (ret : Rec.t).

(** ** The decoder

    [listening] says whether the stream has an ['error'] listener while a
    call runs (the consumer attaches one with [on], outside this file).
    With one, [emit] hands it the message and returns (a listener is taken
    to return); with none, [emit] throws.  The constructor's
    [midCharacter] field is never read and is left out of the state. *)

Module SubunitToObjectStream.

Record t : Type := make {
  bl : BufferList;
  offset : Z
}.

Definition new : t := {| bl := []; offset := 0 |}.

(** [for (var flag in flagMasks) packet.flags[flag] = (flags & mask) !== 0] *)
Definition packet_flags (flags : Z) : Flags.t :=
  {| Flags.testId := negb (Js.and flags flagMasks.testId =? 0);
     Flags.routeCode := negb (Js.and flags flagMasks.routeCode =? 0);
     Flags.timestamp := negb (Js.and flags flagMasks.timestamp =? 0);
     Flags.runnable := negb (Js.and flags flagMasks.runnable =? 0);
     Flags.tags := negb (Js.and flags flagMasks.tags =? 0);
     Flags.mimeType := negb (Js.and flags flagMasks.mimeType =? 0);
     Flags.eof := negb (Js.and flags flagMasks.eof =? 0);
     Flags.fileContent := negb (Js.and flags flagMasks.fileContent =? 0) |}.

(** The three reads that open an iteration. *)
Definition header (bl : BufferList) (offset : Z)
  : result (Z * Z * Read.t Z) :=
  sig <- BL.readUInt8 bl offset ;;
  flags <- BL.readUInt16BE bl (offset + 1) ;;
  packetLength <- readVarInt bl (offset + 3) ;;
  Ok (sig, flags, packetLength).

(** [for (var i = 0; i < count.value; i++)], with [n] iterations left. *)
Fixpoint read_tags (n : nat) (bl : BufferList) (optionalsOffset : Z)
         (tags : list Js.String) : result (list Js.String * Z) :=
  match n with
  | O => Ok (tags, optionalsOffset)
  | S n' =>
    tag <- readUtf8 bl optionalsOffset ;;
    read_tags n' bl (optionalsOffset + Read.length tag)
              (tags ++ [Read.value tag])
  end.

(** The blocks that read the optional fields.  Each takes the flags
    object and [optionalsOffset] and returns what it stores in [ret]
    with the advanced [optionalsOffset]. *)

(** [new Date((seconds * 1000) + (nanos.value / 1000000))]: the product,
    the quotient and the sum are doubles, each rounded, and the Date keeps
    the integer part of the sum. *)

Definition get_timestamp (bl : BufferList) (flags : Flags.t)
           (optionalsOffset : Z) : result (option Date.t * Z) :=
  if Flags.timestamp flags then
    seconds <- BL.readUInt32BE bl optionalsOffset ;;
    let optionalsOffset := optionalsOffset + 4 in
    nanos <- readVarInt bl optionalsOffset ;;
    let optionalsOffset := optionalsOffset + Read.length nanos in
    let time :=
      Double.add (Double.mul (Double.of_Z seconds) (Double.of_Z 1000))
                 (Double.div (Double.of_Z (Read.value nanos))
                             (Double.of_Z 1000000)) in
    Ok (Some (Date.of_number time), optionalsOffset)
  else Ok (None, optionalsOffset).

Definition get_testId (bl : BufferList) (flags : Flags.t)
           (optionalsOffset : Z) : result (option Js.String * Z) :=
  if Flags.testId flags then
    testId <- readUtf8 bl optionalsOffset ;;
    Ok (Some (Read.value testId), optionalsOffset + Read.length testId)
  else Ok (None, optionalsOffset).

Definition get_tags (bl : BufferList) (flags : Flags.t)
           (optionalsOffset : Z) : result (option (list Js.String) * Z) :=
  if Flags.tags flags then
    count <- readVarInt bl optionalsOffset ;;
    let optionalsOffset := optionalsOffset + Read.length count in
    '(tags, optionalsOffset) <-
      read_tags (Z.to_nat (Read.value count)) bl optionalsOffset [] ;;
    Ok (Some tags, optionalsOffset)
  else Ok (None, optionalsOffset).

Definition get_mimeType (bl : BufferList) (flags : Flags.t)
           (optionalsOffset : Z) : result (option Js.String * Z) :=
  if Flags.mimeType flags then
    mime <- readUtf8 bl optionalsOffset ;;
    Ok (Some (Read.value mime), optionalsOffset + Read.length mime)
  else Ok (None, optionalsOffset).

Definition get_file (bl : BufferList) (flags : Flags.t)
           (optionalsOffset : Z)
  : result (option Js.String * option Buffer * Z) :=
  if Flags.fileContent flags then
    name <- readUtf8 bl optionalsOffset ;;
    let optionalsOffset := optionalsOffset + Read.length name in
    fileLength <- readVarInt bl optionalsOffset ;;
    let optionalsOffset := optionalsOffset + Read.length fileLength in
    let fileContent :=
      BL.slice bl optionalsOffset (optionalsOffset + Read.value fileLength) in
    Ok (Some (Read.value name), Some fileContent,
        optionalsOffset + Read.value fileLength)
  else Ok (None, None, optionalsOffset).

Definition get_routeCode (bl : BufferList) (flags : Flags.t)
           (optionalsOffset : Z) : result (option Js.String * Z) :=
  if Flags.routeCode flags then
    route <- readUtf8 bl optionalsOffset ;;
    Ok (Some (Read.value route), optionalsOffset + Read.length route)
  else Ok (None, optionalsOffset).

(** The record of one packet, from [var ret = ...] to
    [ret._packet = packet]; the checksum is not read. *)
Definition fields (bl : BufferList) (offset flags : Z)
           (packetLength : Read.t Z) : result Rec.t :=
  let status := statusFlags_get (Js.and flags 0x0007) in
  let packet :=
    {| Packet.length := Read.value packetLength;
       Packet.flags := packet_flags flags |} in
  let optionalsOffset := offset + 3 + Read.length packetLength in
  '(timestamp, optionalsOffset) <-
    get_timestamp bl (Packet.flags packet) optionalsOffset ;;
  '(testId, optionalsOffset) <-
    get_testId bl (Packet.flags packet) optionalsOffset ;;
  '(tags, optionalsOffset) <-
    get_tags bl (Packet.flags packet) optionalsOffset ;;
  '(mimeType, optionalsOffset) <-
    get_mimeType bl (Packet.flags packet) optionalsOffset ;;
  '(fileName, fileContent, optionalsOffset) <-
    get_file bl (Packet.flags packet) optionalsOffset ;;
  '(routeCode, optionalsOffset) <-
    get_routeCode bl (Packet.flags packet) optionalsOffset ;;
  Ok {| Rec.timestamp := timestamp;
        Rec.testId := testId;
        Rec.tags := tags;
        Rec.mimeType := mimeType;
        Rec.fileContent := fileContent;
        Rec.fileName := fileName;
        Rec.routeCode := routeCode;
        Rec.status := status;
        Rec._packet := Some packet |}.

(** [if (sig !== signature) { this.emit('error', ...); }]: what the
    listener is handed, or the exception of [emit]. *)
Definition check_signature (listening : bool) (sig offset : Z)
  : result (list Event) :=
  let msg := ("Bad packet at offset " ++ Js.toString offset)%string in
  if sig =? signature then Ok []
  else if listening then Ok [emit_error msg]
  else Throw (Unhandled msg).

(** One pass through the body of the [while] loop: what was emitted and
    pushed, and either the new [this.offset] or the exception that left
    the loop. *)
Definition iteration (listening : bool) (bl : BufferList) (offset : Z)
  : list Event * result Z :=
  match header bl offset with
  | Throw e => ([], Throw e)
  | Ok (sig, flags, packetLength) =>
    match check_signature listening sig offset with
    | Throw e => ([], Throw e)
    | Ok errors =>
      match fields bl offset flags packetLength with
      | Throw e => (errors, Throw e)
      | Ok ret =>
        (errors ++ [push ret], Ok (offset + Read.value packetLength))
      end
    end
  end.

(** The outcome of one [_transform] call: the stream afterwards, what it
    emitted, and the exception it rethrew, if any. *)
Record outcome : Type := done {
  stream : t;
  events : list Event;
  thrown : option exn
}.

(** [while (this.offset < this.bl.length)] inside the [try].  A packet
    that declares length 0 leaves the offset where it is, so the loop
    need not end: [fuel] bounds the number of passes and [None] says it
    ran out. *)
Fixpoint loop (listening : bool) (fuel : nat) (bl : BufferList) (offset : Z)
  : option outcome :=
  if offset <? BL.length bl then
    match fuel with
    | O => None
    | S fuel' =>
      match iteration listening bl offset with
      | (evs, Ok offset') =>
        match loop listening fuel' bl offset' with
        | Some o => Some (done (stream o) (evs ++ events o) (thrown o))
        | None => None
        end
      | (evs, Throw RangeError) => Some (done (make bl offset) evs None)
      | (evs, Throw e) => Some (done (make bl offset) evs (Some e))
      end
    end
  else Some (done (make bl offset) [] None).

Definition _transform (listening : bool) (fuel : nat) (this : t)
           (chunk : Buffer) : option outcome :=
  loop listening fuel (BL.append (bl this) chunk) (offset this).

(** Successive [_transform] calls, one per chunk, on one stream; a call
    that throws is the last. *)
Fixpoint write_all (listening : bool) (fuel : nat) (this : t)
         (chunks : list Buffer) : option outcome :=
  match chunks with
  | [] => Some (done this [] None)
  | chunk :: rest =>
    match _transform listening fuel this chunk with
    | Some (done this' evs None) =>
      match write_all listening fuel this' rest with
      | Some o => Some (done (stream o) (evs ++ events o) (thrown o))
      | None => None
      end
    | other => other
    end
  end.

End SubunitToObjectStream.

(** ** The encoder

    [_transform] pushes exactly one Buffer or throws; it keeps no state
    between calls (the constructor's [bl] is never used). *)

Module ObjectToSubunitStream.

(** [Object.keys(statusFlags)]; the keys come back as strings and the
    [|=] below turns the one found back into its number. *)
Definition keys : list Z := map fst statusFlags.

(** [x |= statusFlag], where [find] returned [undefined] for [None]. *)
Definition or_key (x : Z) (statusFlag : option Z) : Z :=
  match statusFlag with
  | Some k => Js.or x k
  | None => Js.or x 0
  end.

(** [Math.floor(millis / 1000)]; for a Date's time value the double
    quotient has the floor of the exact one. *)
Definition seconds_of (millis : Z) : Z := millis / 1000.

(** [(millis - (seconds * 1000)) * 1000000] *)
Definition nanos_of (millis : Z) : Z :=
  (millis - seconds_of millis * 1000) * 1000000.

(** [chunk.tags.forEach(function(tag) { body.push(writeUtf8(tag)); })] *)
Fixpoint push_tags (tags : list Js.String) (body : list Buffer)
  : result (list Buffer) :=
  match tags with
  | [] => Ok body
  | tag :: rest =>
    b <- writeUtf8 tag ;;
    push_tags rest (body ++ [b])
  end.

(** The flag word before the data fields: the version, the status code
    and the two flags taken from [chunk._packet.flags]. *)
Definition initial_flags (chunk : Rec.t) : Z :=
  let flags := 0x2000 in
  let statusFlag :=
    find (fun flag => Js.Value_eqb (statusFlags_get flag) (Rec.status chunk))
         keys in
  let flags := or_key flags statusFlag in
  match Rec._packet chunk with
  | Some _packet =>
    let flags :=
      if Flags.runnable (Packet.flags _packet)
      then Js.or flags flagMasks.runnable else flags in
    if Flags.eof (Packet.flags _packet)
    then Js.or flags flagMasks.eof else flags
  | None => flags
  end.

(** The blocks that encode the data fields.  Each takes and returns the
    pair of [flags] and [body]. *)

(** [writeVarInt(NaN)]: each of its five comparisons is false, so the
    last branch throws. *)
Definition writeVarInt_NaN : result Buffer :=
  Throw (Error "Value is too large to encode: NaN").

(** For an invalid Date [getTime()] is [NaN], and so are [seconds] and
    [nanos]; [writeVarInt(nanos)] is the first call that can throw. *)
Definition put_timestamp (chunk : Rec.t) (st : Z * list Buffer)
  : result (Z * list Buffer) :=
  let '(flags, body) := st in
  match Rec.timestamp chunk with
  | Some (Date.valid millis) =>
    let flags := Js.or flags flagMasks.timestamp in
    let seconds := seconds_of millis in
    let nanos := nanos_of millis in
    varNanos <- writeVarInt nanos ;;
    buf <- Buf.writeUIntBE seconds 4 ;;
    Ok (flags, body ++ [buf ++ varNanos])
  | Some Date.invalid =>
    let flags := Js.or flags flagMasks.timestamp in
    varNanos <- writeVarInt_NaN ;;
    Ok (flags, body ++ [varNanos])
  | None => Ok (flags, body)
  end.

Definition put_testId (chunk : Rec.t) (st : Z * list Buffer)
  : result (Z * list Buffer) :=
  let '(flags, body) := st in
  match Rec.testId chunk with
  | Some testId =>
    let flags := Js.or flags flagMasks.testId in
    b <- writeUtf8 testId ;;
    Ok (flags, body ++ [b])
  | None => Ok (flags, body)
  end.

Definition put_tags (chunk : Rec.t) (st : Z * list Buffer)
  : result (Z * list Buffer) :=
  let '(flags, body) := st in
  match Rec.tags chunk with
  | Some tags =>
    let flags := Js.or flags flagMasks.tags in
    count <- writeVarInt (Z.of_nat (List.length tags)) ;;
    body <- push_tags tags (body ++ [count]) ;;
    Ok (flags, body)
  | None => Ok (flags, body)
  end.

Definition put_mimeType (chunk : Rec.t) (st : Z * list Buffer)
  : result (Z * list Buffer) :=
  let '(flags, body) := st in
  match Rec.mimeType chunk with
  | Some mimeType =>
    let flags := Js.or flags flagMasks.mimeType in
    b <- writeUtf8 mimeType ;;
    Ok (flags, body ++ [b])
  | None => Ok (flags, body)
  end.

Definition put_file (chunk : Rec.t) (st : Z * list Buffer)
  : result (Z * list Buffer) :=
  let '(flags, body) := st in
  match Rec.fileName chunk, Rec.fileContent chunk with
  | Some fileName, Some fileContent =>
    let flags := Js.or flags flagMasks.fileContent in
    name <- writeUtf8 fileName ;;
    len <- writeVarInt (Buf.length fileContent) ;;
    Ok (flags, body ++ [name] ++ [len] ++ [fileContent])
  | _, _ => Ok (flags, body)
  end.

Definition put_routeCode (chunk : Rec.t) (st : Z * list Buffer)
  : result (Z * list Buffer) :=
  let '(flags, body) := st in
  match Rec.routeCode chunk with
  | Some routeCode =>
    let flags := Js.or flags flagMasks.routeCode in
    b <- writeUtf8 routeCode ;;
    Ok (flags, body ++ [b])
  | None => Ok (flags, body)
  end.

(** The flag word and the body parts once every field has been looked
    at, from [var flags = 0x2000] to the [routeCode] block. *)
Definition fields (chunk : Rec.t) : result (Z * list Buffer) :=
  st <- put_timestamp chunk (initial_flags chunk, []) ;;
  st <- put_testId chunk st ;;
  st <- put_tags chunk st ;;
  st <- put_mimeType chunk st ;;
  st <- put_file chunk st ;;
  put_routeCode chunk st.

(** The packet, from [Buffer.concat(body)] to [this.push]. *)
Definition assemble (flags : Z) (body : list Buffer) : result Buffer :=
  let bodyBuf := Buf.concat body in
  let baseLength := 3 + Buf.length bodyBuf + 4 in
  lengthLength <-
    (if baseLength <=? 62 then Ok 1
     else if baseLength <=? 16381 then Ok 2
     else if baseLength <=? 4194300 then Ok 3
     else Throw (Error ("Length too long: " ++ Js.toString baseLength))) ;;
  sig <- Buf.writeUIntBE signature 1 ;;
  fl <- Buf.writeUIntBE flags 2 ;;
  let header := sig ++ fl in
  length <- writeVarInt (baseLength + lengthLength) ;;
  let partial := Buf.concat [header; length; bodyBuf] in
  let crc := crc32 partial in
  Ok (Buf.concat [partial; crc]).

Definition _transform (chunk : Rec.t) : result Buffer :=
  '(flags, body) <- fields chunk ;;
  assemble flags body.

End ObjectToSubunitStream.

(** ** Vocabulary of the statements

    The predicates, measures and example values the lemmas and theorems
    below are stated with. *)

(** A value a Buffer can hold. *)
Definition octet (b : Z) : Prop := 0 <= b < 256.

(** [suffix_at bl off l]: [l] is what [bl] holds from [off] on. *)
Definition suffix_at (bl : Buffer) (off : Z) (l : Buffer) : Prop :=
  0 <= off /\ skipn (Z.to_nat off) bl = l.

(** A check of [P] on [0 .. n-1], used for facts about single octets. *)
Fixpoint forall_below (n : nat) (P : Z -> bool) : bool :=
  match n with
  | O => true
  | S k => P (Z.of_nat k) && forall_below k P
  end.

(** The size class of a value: the number of octets of its encoding. *)
Definition varint_size (n : Z) : Z :=
  if n <=? 63 then 1
  else if n <=? 16383 then 2
  else if n <=? 4194303 then 3
  else 4.

(** A Unicode scalar value: a code point that is not a surrogate. *)
Definition scalar (cp : Z) : Prop :=
  0 <= cp < 0xD800 \/ 0xE000 <= cp < 0x110000.

(** The code the encoder's [find] yields for a status, 0 when it returns
    [undefined]. *)
Definition status_code (status : Js.Value) : Z :=
  match find (fun flag => Js.Value_eqb (statusFlags_get flag) status)
             ObjectToSubunitStream.keys with
  | Some k => k
  | None => 0
  end.

(** What is known of the flag word while the encoder builds it: it fits
    16 bits, its low three bits are [c] and its [fileContent] bit is [d]. *)
Definition flag_inv (c d flags : Z) : Prop :=
  0 <= flags < 65536
  /\ Z.land flags 7 = c
  /\ Z.land flags flagMasks.fileContent = d.

(** A call that throws nothing but [RangeError]. *)
Definition only_range {A : Type} (m : result A) : Prop :=
  forall e, m = Throw e -> e = RangeError.

(** The record with both file properties removed. *)
Definition without_file (chunk : Rec.t) : Rec.t :=
  {| Rec.timestamp := Rec.timestamp chunk;
     Rec.testId := Rec.testId chunk;
     Rec.tags := Rec.tags chunk;
     Rec.mimeType := Rec.mimeType chunk;
     Rec.fileContent := None;
     Rec.fileName := None;
     Rec.routeCode := Rec.routeCode chunk;
     Rec.status := Rec.status chunk;
     Rec._packet := Rec._packet chunk |}.

(** [{}] *)
Definition empty_record : Rec.t :=
  {| Rec.timestamp := None; Rec.testId := None; Rec.tags := None;
     Rec.mimeType := None; Rec.fileContent := None; Rec.fileName := None;
     Rec.routeCode := None; Rec.status := Js.undefined;
     Rec._packet := None |}.

(** [{ status: 'fail' }] *)
Definition fail_record : Rec.t :=
  {| Rec.timestamp := None; Rec.testId := None; Rec.tags := None;
     Rec.mimeType := None; Rec.fileContent := None; Rec.fileName := None;
     Rec.routeCode := None; Rec.status := Js.str (Js.lit "fail");
     Rec._packet := None |}.

(** [{ fileName: 'log.txt' }] *)
Definition name_only : Rec.t :=
  {| Rec.timestamp := None; Rec.testId := None; Rec.tags := None;
     Rec.mimeType := None; Rec.fileContent := None;
     Rec.fileName := Some (Js.lit "log.txt");
     Rec.routeCode := None; Rec.status := Js.undefined;
     Rec._packet := None |}.

(** [{ testId: 'T1' }] *)
Definition testId_record : Rec.t :=
  {| Rec.timestamp := None; Rec.testId := Some (Js.lit "T1");
     Rec.tags := None; Rec.mimeType := None; Rec.fileContent := None;
     Rec.fileName := None; Rec.routeCode := None; Rec.status := Js.undefined;
     Rec._packet := None |}.

(** [{ timestamp: new Date(millis), testId: 'T1', status: 'success',
      tags: ['a', 'b'] }] *)
Definition T1_record (millis : Z) : Rec.t :=
  {| Rec.timestamp := Some (Date.valid millis);
     Rec.testId := Some (Js.lit "T1");
     Rec.tags := Some [Js.lit "a"; Js.lit "b"];
     Rec.mimeType := None;
     Rec.fileContent := None;
     Rec.fileName := None;
     Rec.routeCode := None;
     Rec.status := Js.str (Js.lit "success");
     Rec._packet := None |}.

(** The same record as the decoder pushes it, for a packet of [length]
    octets. *)
Definition T1_decoded (millis length : Z) : Rec.t :=
  {| Rec.timestamp := Some (Date.valid millis);
     Rec.testId := Some (Js.lit "T1");
     Rec.tags := Some [Js.lit "a"; Js.lit "b"];
     Rec.mimeType := None;
     Rec.fileContent := None;
     Rec.fileName := None;
     Rec.routeCode := None;
     Rec.status := Js.str (Js.lit "success");
     Rec._packet :=
       Some {| Packet.length := length;
               Packet.flags :=
                 {| Flags.testId := true;
                    Flags.routeCode := false;
                    Flags.timestamp := true;
                    Flags.runnable := false;
                    Flags.tags := true;
                    Flags.mimeType := false;
                    Flags.eof := false;
                    Flags.fileContent := false |} |} |}.

(** What the decoder pushes for a packet of [length] octets that carries
    only a test id. *)
Definition testId_decoded (testId : Js.String) (length : Z) : Rec.t :=
  {| Rec.timestamp := None; Rec.testId := Some testId;
     Rec.tags := None; Rec.mimeType := None; Rec.fileContent := None;
     Rec.fileName := None; Rec.routeCode := None; Rec.status := Js.null;
     Rec._packet :=
       Some {| Packet.length := length;
               Packet.flags :=
                 {| Flags.testId := true;
                    Flags.routeCode := false;
                    Flags.timestamp := false;
                    Flags.runnable := false;
                    Flags.tags := false;
                    Flags.mimeType := false;
                    Flags.eof := false;
                    Flags.fileContent := false |} |} |}.

(** What the decoder pushes for a packet of 8 octets with no field. *)
Definition empty_decoded : Rec.t :=
  {| Rec.timestamp := None; Rec.testId := None; Rec.tags := None;
     Rec.mimeType := None; Rec.fileContent := None; Rec.fileName := None;
     Rec.routeCode := None; Rec.status := Js.null;
     Rec._packet :=
       Some {| Packet.length := 8;
               Packet.flags :=
                 {| Flags.testId := false;
                    Flags.routeCode := false;
                    Flags.timestamp := false;
                    Flags.runnable := false;
                    Flags.tags := false;
                    Flags.mimeType := false;
                    Flags.eof := false;
                    Flags.fileContent := false |} |} |}.

(** The packets of [empty_record], [fail_record] and [testId_record]. *)

Definition empty_packet : Buffer := [179; 32; 0; 8; 24; 21; 240; 186].

Definition fail_packet : Buffer := [179; 32; 6; 8; 78; 79; 87; 60].

Definition testId_packet : Buffer :=
  [179; 40; 0; 11; 2; 84; 49; 60; 130; 198; 29].

(** ** Vocabulary of the further properties

    The record the decoder pushes for an encoded record, the flag word
    and the size of its packet, and a record with every property. *)

Definition is_some {A : Type} (o : option A) : bool :=
  match o with
  | Some _ => true
  | None => false
  end.

(** A flag of [chunk._packet.flags], false when there is no [_packet]. *)
Definition packet_flag (flag : Flags.t -> bool) (chunk : Rec.t) : bool :=
  match Rec._packet chunk with
  | Some _packet => flag (Packet.flags _packet)
  | None => false
  end.

(** The record has both file properties. *)
Definition has_file (chunk : Rec.t) : bool :=
  is_some (Rec.fileName chunk) && is_some (Rec.fileContent chunk).

(** The flag word for a status code and the presence of each field, built
    in the encoder's order. *)
Definition flag_word_of (k : Z) (runnable eof timestamp testId tags mimeType
                                  file routeCode : bool) : Z :=
  let flags := Js.or 0x2000 k in
  let flags := if runnable then Js.or flags flagMasks.runnable else flags in
  let flags := if eof then Js.or flags flagMasks.eof else flags in
  let flags := if timestamp then Js.or flags flagMasks.timestamp else flags in
  let flags := if testId then Js.or flags flagMasks.testId else flags in
  let flags := if tags then Js.or flags flagMasks.tags else flags in
  let flags := if mimeType then Js.or flags flagMasks.mimeType else flags in
  let flags := if file then Js.or flags flagMasks.fileContent else flags in
  if routeCode then Js.or flags flagMasks.routeCode else flags.

Definition flag_word (chunk : Rec.t) : Z :=
  flag_word_of (status_code (Rec.status chunk))
               (packet_flag Flags.runnable chunk)
               (packet_flag Flags.eof chunk)
               (is_some (Rec.timestamp chunk))
               (is_some (Rec.testId chunk))
               (is_some (Rec.tags chunk))
               (is_some (Rec.mimeType chunk))
               (has_file chunk)
               (is_some (Rec.routeCode chunk)).

(** The flags object the decoder builds for the packet of [chunk]. *)
Definition decoded_flags (chunk : Rec.t) : Flags.t :=
  {| Flags.testId := is_some (Rec.testId chunk);
     Flags.routeCode := is_some (Rec.routeCode chunk);
     Flags.timestamp := is_some (Rec.timestamp chunk);
     Flags.runnable := packet_flag Flags.runnable chunk;
     Flags.tags := is_some (Rec.tags chunk);
     Flags.mimeType := is_some (Rec.mimeType chunk);
     Flags.eof := packet_flag Flags.eof chunk;
     Flags.fileContent := has_file chunk |}.

(** The record the decoder pushes for the packet, [length] octets long,
    that the encoder makes of [chunk]: the same data, a lone file property
    dropped, the status as the table gives it back, and a [_packet]. *)
Definition decoded (chunk : Rec.t) (length : Z) : Rec.t :=
  {| Rec.timestamp := Rec.timestamp chunk;
     Rec.testId := Rec.testId chunk;
     Rec.tags := Rec.tags chunk;
     Rec.mimeType := Rec.mimeType chunk;
     Rec.fileContent := if has_file chunk then Rec.fileContent chunk else None;
     Rec.fileName := if has_file chunk then Rec.fileName chunk else None;
     Rec.routeCode := Rec.routeCode chunk;
     Rec.status := statusFlags_get (status_code (Rec.status chunk));
     Rec._packet :=
       Some {| Packet.length := length;
               Packet.flags := decoded_flags chunk |} |}.

Definition well_formed_opt (o : option Js.String) : bool :=
  match o with
  | Some s => Utf8.well_formed s
  | None => true
  end.

(** Every string the encoder writes for [chunk] has its surrogates
    paired. *)
Definition strings_well_formed (chunk : Rec.t) : bool :=
  well_formed_opt (Rec.testId chunk)
  && match Rec.tags chunk with
     | Some tags => forallb Utf8.well_formed tags
     | None => true
     end
  && well_formed_opt (Rec.mimeType chunk)
  && (if has_file chunk then well_formed_opt (Rec.fileName chunk) else true)
  && well_formed_opt (Rec.routeCode chunk).

(** A record with the packet the encoder makes of it. *)
Definition encoded (cp : Rec.t * Buffer) : Prop :=
  strings_well_formed (fst cp) = true
  /\ ObjectToSubunitStream._transform (fst cp) = Ok (snd cp).

(** The octets of a run of packets. *)
Definition octets_of (cps : list (Rec.t * Buffer)) : Buffer :=
  Buf.concat (map snd cps).

(** What the decoder pushes for a run of packets. *)
Definition pushes_of (cps : list (Rec.t * Buffer)) : list Event :=
  map (fun cp => push (decoded (fst cp) (Buf.length (snd cp)))) cps.

(** The record with another [_packet]. *)
Definition with_packet (chunk : Rec.t) (_packet : option Packet.t) : Rec.t :=
  {| Rec.timestamp := Rec.timestamp chunk;
     Rec.testId := Rec.testId chunk;
     Rec.tags := Rec.tags chunk;
     Rec.mimeType := Rec.mimeType chunk;
     Rec.fileContent := Rec.fileContent chunk;
     Rec.fileName := Rec.fileName chunk;
     Rec.routeCode := Rec.routeCode chunk;
     Rec.status := Rec.status chunk;
     Rec._packet := _packet |}.

(** The presence of each data field of a record agrees with the flags of
    its [_packet]. *)
Definition flags_match (ret : Rec.t) : Prop :=
  exists p,
    Rec._packet ret = Some p
    /\ is_some (Rec.timestamp ret) = Flags.timestamp (Packet.flags p)
    /\ is_some (Rec.testId ret) = Flags.testId (Packet.flags p)
    /\ is_some (Rec.tags ret) = Flags.tags (Packet.flags p)
    /\ is_some (Rec.mimeType ret) = Flags.mimeType (Packet.flags p)
    /\ is_some (Rec.fileName ret) = Flags.fileContent (Packet.flags p)
    /\ is_some (Rec.fileContent ret) = Flags.fileContent (Packet.flags p)
    /\ is_some (Rec.routeCode ret) = Flags.routeCode (Packet.flags p).

(** The octets of a length-prefixed string. *)
Definition string_size (str : Js.String) : Z :=
  varint_size (Buf.byteLength str) + Buf.byteLength str.

Definition timestamp_size (timestamp : Date.t) : Z :=
  match timestamp with
  | Date.valid millis =>
    4 + varint_size (ObjectToSubunitStream.nanos_of millis)
  | Date.invalid => 0
  end.

Definition strings_size (tags : list Js.String) : Z :=
  fold_right Z.add 0 (map string_size tags).

Definition tags_size (tags : list Js.String) : Z :=
  varint_size (Z.of_nat (List.length tags)) + strings_size tags.

Definition file_size (chunk : Rec.t) : Z :=
  match Rec.fileName chunk, Rec.fileContent chunk with
  | Some fileName, Some fileContent =>
    string_size fileName + varint_size (Buf.length fileContent)
    + Buf.length fileContent
  | _, _ => 0
  end.

Definition opt_size {A : Type} (size : A -> Z) (o : option A) : Z :=
  match o with
  | Some a => size a
  | None => 0
  end.

(** The octets of the body the encoder builds for a record. *)
Definition body_size (chunk : Rec.t) : Z :=
  opt_size timestamp_size (Rec.timestamp chunk)
  + opt_size string_size (Rec.testId chunk)
  + opt_size tags_size (Rec.tags chunk)
  + opt_size string_size (Rec.mimeType chunk)
  + file_size chunk
  + opt_size string_size (Rec.routeCode chunk).

(** The timestamp, if there is one, is a valid Date whose seconds fit four
    octets. *)
Definition timestamp_fits (chunk : Rec.t) : Prop :=
  match Rec.timestamp chunk with
  | Some (Date.valid millis) => 0 <= millis < 4294967296000
  | Some Date.invalid => False
  | None => True
  end.

(** A call that throws nothing but [new Error(...)]. *)
Definition only_error {A : Type} (m : result A) : Prop :=
  forall e, m = Throw e -> exists msg, e = Error msg.

(** The number of octets of a varint that starts with [first]: one more
    than the number its top two bits hold. *)
Definition varint_octets (first : Z) : Z := 1 + first / 64.

(** A UTF-16 code unit. *)
Definition code_unit (c : Z) : Prop := 0 <= c < 65536.

(** The string with every unpaired surrogate replaced by U+FFFD
    ([String.prototype.toWellFormed]). *)
Fixpoint to_well_formed (s : list Z) : list Z :=
  match s with
  | [] => []
  | c :: s' =>
    if Utf8.is_high c then
      match s' with
      | d :: s'' =>
        if Utf8.is_low d then c :: d :: to_well_formed s''
        else 0xFFFD :: to_well_formed s'
      | [] => [0xFFFD]
      end
    else if Utf8.is_low c then 0xFFFD :: to_well_formed s'
    else c :: to_well_formed s'
  end.

(** The file content, if the record has one, is a Buffer of octets. *)
Definition content_octets (chunk : Rec.t) : Prop :=
  match Rec.fileContent chunk with
  | Some fileContent => Forall octet fileContent
  | None => True
  end.

(** A record with every property: a failed test with a timestamp, two
    tags, a three-octet attachment and a route code, marked runnable and
    end-of-file. *)
Definition log_record : Rec.t :=
  {| Rec.timestamp := Some (Date.valid 1234567890123);
     Rec.testId := Some (Js.lit "T1");
     Rec.tags := Some [Js.lit "a"; Js.lit "b"];
     Rec.mimeType := Some (Js.lit "text/plain");
     Rec.fileContent := Some [104; 105; 10];
     Rec.fileName := Some (Js.lit "log");
     Rec.routeCode := Some (Js.lit "r");
     Rec.status := Js.str (Js.lit "fail");
     Rec._packet :=
       Some {| Packet.length := 0;
               Packet.flags :=
                 {| Flags.testId := false;
                    Flags.routeCode := false;
                    Flags.timestamp := false;
                    Flags.runnable := true;
                    Flags.tags := false;
                    Flags.mimeType := false;
                    Flags.eof := true;
                    Flags.fileContent := false |} |} |}.

(** Its packet. *)
Definition log_packet : Buffer :=
  [179; 47; 246; 45; 73; 150; 2; 210; 199; 84; 212; 192; 2; 84; 49; 2;
   1; 97; 1; 98; 10; 116; 101; 120; 116; 47; 112; 108; 97; 105; 110;
   3; 108; 111; 103; 3; 104; 105; 10; 1; 114; 190; 121; 246; 170].

(** A record whose timestamp is an invalid Date. *)
Definition undated_record : Rec.t :=
  {| Rec.timestamp := Some Date.invalid;
     Rec.testId := None; Rec.tags := None;
     Rec.mimeType := None; Rec.fileContent := None; Rec.fileName := None;
     Rec.routeCode := None; Rec.status := Js.undefined;
     Rec._packet := None |}.

(** A record whose timestamp lies before 1970. *)
Definition early_record : Rec.t :=
  {| Rec.timestamp := Some (Date.valid (-1));
     Rec.testId := None; Rec.tags := None;
     Rec.mimeType := None; Rec.fileContent := None; Rec.fileName := None;
     Rec.routeCode := None; Rec.status := Js.undefined;
     Rec._packet := None |}.

(** * Lemmas and theorems *)

Import SubunitToObjectStream.

Ltac divmod := Z.div_mod_to_equations; lia.

(** ** Arithmetic of the bitwise operators *)

Lemma ToInt32_small x : - 2 ^ 31 <= x < 2 ^ 31 -> Js.ToInt32 x = x.
Proof. intros H. unfold Js.ToInt32. rewrite Z.mod_small; lia. Qed.

Lemma land_disjoint a b k :
  0 <= k -> 0 <= b < 2 ^ k -> Z.land (a * 2 ^ k) b = 0.
Proof.
  intros Hk Hb. apply Z.bits_inj'. intros n Hn.
  rewrite Z.land_spec, Z.bits_0.
  destruct (Z.lt_ge_cases n k) as [Hlt | Hge].
  - now rewrite Z.mul_pow2_bits_low.
  - replace b with (b mod 2 ^ k) by (apply Z.mod_small; lia).
    rewrite Z.mod_pow2_bits_high by lia. apply andb_false_r.
Qed.

Lemma lor_disjoint a b k :
  0 <= k -> 0 <= b < 2 ^ k -> Z.lor (a * 2 ^ k) b = a * 2 ^ k + b.
Proof.
  intros Hk Hb. rewrite <- Z.add_lor_land, land_disjoint by assumption. lia.
Qed.

Lemma Js_or_small a b :
  0 <= a < 2 ^ 31 -> 0 <= b < 2 ^ 31 -> Js.or a b = Z.lor a b.
Proof. intros Ha Hb. unfold Js.or. rewrite !ToInt32_small; lia. Qed.

Lemma Js_and_small a b :
  0 <= a < 2 ^ 31 -> 0 <= b < 2 ^ 31 -> Js.and a b = Z.land a b.
Proof. intros Ha Hb. unfold Js.and. rewrite !ToInt32_small; lia. Qed.

Lemma Js_shl_small a n :
  0 <= n -> 0 <= a -> a * 2 ^ n < 2 ^ 31 -> Js.shl a n = a * 2 ^ n.
Proof.
  intros Hn Ha H. unfold Js.shl.
  assert (a < 2 ^ 31).
  { assert (1 <= 2 ^ n) by (apply (Z.pow_le_mono_r 2 0 n); lia). nia. }
  rewrite (ToInt32_small a) by lia.
  rewrite Z.shiftl_mul_pow2 by lia. apply ToInt32_small. lia.
Qed.

(** [x | tag], for a tag above every bit of [x]. *)
Lemma Js_or_tag x t k :
  0 <= k -> 0 <= x < 2 ^ k -> 0 <= t -> x + t * 2 ^ k < 2 ^ 32 ->
  Js.ushr0 (Js.or x (t * 2 ^ k)) = x + t * 2 ^ k.
Proof.
  intros Hk Hx Ht Hlt.
  unfold Js.ushr0, Js.ToUint32, Js.or.
  assert (E : forall y, Js.ToInt32 y mod 2 ^ 32 = y mod 2 ^ 32).
  { intros y. unfold Js.ToInt32.
    rewrite Zminus_mod, Zmod_mod, <- Zminus_mod. f_equal. lia. }
  rewrite <- (Z.land_ones _ 32), Z.land_lor_distr_l by lia.
  rewrite !Z.land_ones, !E, <- !Z.land_ones by lia.
  rewrite <- Z.land_lor_distr_l, Z.land_ones by lia.
  rewrite Z.lor_comm, lor_disjoint by lia.
  rewrite Z.mod_small; lia.
Qed.

Lemma forall_below_spec n P :
  forall_below n P = true -> forall z, 0 <= z < Z.of_nat n -> P z = true.
Proof.
  induction n as [|k IH]; intros H z Hz; [lia|].
  cbn [forall_below] in H. apply andb_prop in H. destruct H as [H1 H2].
  destruct (Z.eq_dec z (Z.of_nat k)) as [->|Hne]; [assumption|].
  apply IH; [assumption|lia].
Qed.

Lemma first_octet_masks first :
  0 <= first < 256 ->
  Js.and first 0xC0 = 64 * (first / 64) /\ Js.and first 0x3F = first mod 64.
Proof.
  intros H.
  pose (P := fun z => (Js.and z 0xC0 =? 64 * (z / 64))
                      && (Js.and z 0x3F =? z mod 64)).
  assert (HP : P first = true).
  { apply (forall_below_spec 256); [vm_compute; reflexivity | lia]. }
  unfold P in HP. apply andb_prop in HP. destruct HP as [H1 H2].
  split; now apply Z.eqb_eq.
Qed.

(** ** Doubles

    A quotient that is an integer below [2 ^ 53] is a double, so rounding
    leaves it as it is. *)

Lemma nearest_even_exact k d : 0 < d -> Double.nearest_even (k * d) d = k.
Proof.
  intros H. unfold Double.nearest_even.
  rewrite Z.div_mul, Z.mod_mul by lia.
  destruct (Z.ltb_spec (2 * 0) d); [reflexivity | lia].
Qed.

Lemma reduce_exact k p : 0 < p -> Double.reduce (k * p) p = Double.make k 1.
Proof.
  intros H. unfold Double.reduce.
  rewrite Z.gcd_comm, Z.mul_comm, Z.gcd_mul_diag_l by lia.
  rewrite Z.mul_comm, Z.div_mul, Z.div_same by lia. reflexivity.
Qed.

Lemma log2_quotient k d :
  0 < k -> 0 < d ->
  (if Double.ge_pow2 (k * d) d (Z.log2 (k * d) - Z.log2 d)
   then Z.log2 (k * d) - Z.log2 d
   else Z.log2 (k * d) - Z.log2 d - 1) = Z.log2 k.
Proof.
  intros Hk Hd.
  pose proof (Z.log2_mul_below k d Hk Hd) as Lo.
  pose proof (Z.log2_mul_above k d ltac:(lia) ltac:(lia)) as Hi.
  pose proof (Z.log2_nonneg k) as Nk.
  destruct (Z.log2_spec k Hk) as [K1 K2].
  set (e0 := Z.log2 (k * d) - Z.log2 d) in *.
  assert (E : e0 = Z.log2 k \/ e0 = Z.log2 k + 1) by lia.
  unfold Double.ge_pow2. destruct (Z.leb_spec 0 e0); [|lia].
  destruct E as [E|E]; rewrite E in *.
  - destruct (Z.leb_spec (d * 2 ^ Z.log2 k) (k * d)); [reflexivity|nia].
  - replace (Z.succ (Z.log2 k)) with (Z.log2 k + 1) in K2 by lia.
    destruct (Z.leb_spec (d * 2 ^ (Z.log2 k + 1)) (k * d)); [nia|lia].
Qed.

Lemma round_pos_exact k d :
  0 < k < 2 ^ 53 -> 0 < d -> Double.round_pos (k * d) d = Double.make k 1.
Proof.
  intros Hk Hd. unfold Double.round_pos.
  rewrite log2_quotient by lia.
  assert (L : Z.log2 k < 53) by (apply Z.log2_lt_pow2; lia).
  destruct (Z.leb_spec 0 (52 - Z.log2 k)); [|lia].
  assert (P : 0 < 2 ^ (52 - Z.log2 k)) by (apply Z.pow_pos_nonneg; lia).
  replace (k * d * 2 ^ (52 - Z.log2 k)) with (k * 2 ^ (52 - Z.log2 k) * d)
    by ring.
  rewrite nearest_even_exact by assumption.
  now apply reduce_exact.
Qed.

Lemma round_exact k d :
  - 2 ^ 53 < k < 2 ^ 53 -> 0 < d -> Double.round (k * d) d = Double.make k 1.
Proof.
  intros Hk Hd. unfold Double.round.
  destruct (Z.eqb_spec (k * d) 0) as [E|E].
  { f_equal. nia. }
  destruct (Z.ltb_spec 0 (k * d)).
  - apply round_pos_exact; [nia | assumption].
  - replace (- (k * d)) with (- k * d) by ring.
    rewrite round_pos_exact by nia. cbn [Double.num Double.den]. f_equal. lia.
Qed.

Lemma of_Z_exact k : - 2 ^ 53 < k < 2 ^ 53 -> Double.of_Z k = Double.make k 1.
Proof.
  intros H. unfold Double.of_Z. rewrite <- (Z.mul_1_r k) at 1.
  apply round_exact; lia.
Qed.

(** What the decoder makes of the seconds and nanoseconds the encoder
    writes for a timestamp. *)
Lemma timestamp_of_millis millis :
  0 <= millis < 4294967296000 ->
  Date.of_number
    (Double.add
       (Double.mul (Double.of_Z (ObjectToSubunitStream.seconds_of millis))
                   (Double.of_Z 1000))
       (Double.div (Double.of_Z (ObjectToSubunitStream.nanos_of millis))
                   (Double.of_Z 1000000)))
  = Date.valid millis.
Proof.
  intros H.
  assert (Hs : 0 <= ObjectToSubunitStream.seconds_of millis < 4294967296)
    by (unfold ObjectToSubunitStream.seconds_of; divmod).
  assert (Hn : ObjectToSubunitStream.nanos_of millis
               = (millis mod 1000) * 1000000)
    by (unfold ObjectToSubunitStream.nanos_of,
          ObjectToSubunitStream.seconds_of; divmod).
  assert (Hm : 0 <= millis mod 1000 < 1000) by divmod.
  rewrite !of_Z_exact by lia.
  unfold Double.mul, Double.div. cbn [Double.num Double.den].
  replace (ObjectToSubunitStream.seconds_of millis * 1000)
    with (ObjectToSubunitStream.seconds_of millis * 1000 * (1 * 1)) by lia.
  rewrite round_exact by lia.
  replace (ObjectToSubunitStream.nanos_of millis * 1)
    with (millis mod 1000 * (1 * 1000000)) by lia.
  rewrite round_exact by lia.
  unfold Double.add. cbn [Double.num Double.den].
  replace (ObjectToSubunitStream.seconds_of millis * 1000 * 1
           + millis mod 1000 * 1)
    with (millis * (1 * 1))
    by (unfold ObjectToSubunitStream.seconds_of; divmod).
  rewrite round_exact by lia.
  unfold Date.of_number, Double.trunc. cbn [Double.num Double.den].
  rewrite Z.quot_1_r.
  destruct (Z.leb_spec (Z.abs millis) 8640000000000000); [reflexivity | lia].
Qed.

(** The rounding shows for other nanoseconds: 999999999 ns after
    1234567890 s is the 1000th millisecond, not the 999th. *)
Example timestamp_rounds_up :
  Date.of_number
    (Double.add (Double.mul (Double.of_Z 1234567890) (Double.of_Z 1000))
                (Double.div (Double.of_Z 999999999) (Double.of_Z 1000000)))
  = Date.valid 1234567891000.
Proof. vm_compute. reflexivity. Qed.

(** ** Buffers *)

Lemma length_nonneg (b : Buffer) : 0 <= Buf.length b.
Proof. unfold Buf.length. lia. Qed.

Lemma length_cons x (b : Buffer) : Buf.length (x :: b) = 1 + Buf.length b.
Proof. unfold Buf.length. cbn [List.length]. lia. Qed.

Lemma length_app (a b : Buffer) :
  Buf.length (a ++ b) = Buf.length a + Buf.length b.
Proof. unfold Buf.length. rewrite length_app. lia. Qed.

Lemma length_nil : Buf.length [] = 0.
Proof. reflexivity. Qed.

Lemma slice_prefix (x post : Buffer) :
  Buf.slice (x ++ post) 0 (Buf.length x) = x.
Proof.
  unfold Buf.slice, Buf.length. cbn [Z.to_nat skipn].
  rewrite Z.sub_0_r, Nat2Z.id, firstn_app, Nat.sub_diag, firstn_all.
  cbn. apply app_nil_r.
Qed.

Lemma suffix_start (bl : Buffer) : suffix_at bl 0 bl.
Proof. split; [lia | reflexivity]. Qed.

Lemma suffix_app (bl : Buffer) off (b rest : Buffer) off' :
  suffix_at bl off (b ++ rest) -> off' = off + Buf.length b ->
  suffix_at bl off' rest.
Proof.
  intros [H0 H] ->. pose proof (length_nonneg b). split; [lia|].
  unfold Buf.length in *.
  replace (Z.to_nat (off + Z.of_nat (List.length b)))
    with (List.length b + Z.to_nat off)%nat by lia.
  rewrite <- skipn_skipn, H, skipn_app, Nat.sub_diag, skipn_all.
  reflexivity.
Qed.

Lemma suffix_prefix (pre l : Buffer) : suffix_at (pre ++ l) (Buf.length pre) l.
Proof.
  apply (suffix_app _ 0 pre); [apply suffix_start | lia].
Qed.

Lemma slice_suffix (bl : Buffer) off l s e :
  suffix_at bl off l -> 0 <= s ->
  Buf.slice bl (off + s) (off + e) = Buf.slice l s e.
Proof.
  intros [H0 H] Hs. unfold Buf.slice.
  replace (off + e - (off + s)) with (e - s) by lia.
  replace (Z.to_nat (off + s)) with (Z.to_nat s + Z.to_nat off)%nat by lia.
  now rewrite <- skipn_skipn, H.
Qed.

Ltac bind_inv H :=
  match type of H with
  | bind ?m _ = Ok _ =>
    let E := fresh "E" in
    destruct m eqn:E; cbn [bind] in H; [|discriminate H]
  end.

Lemma readVarInt_length (l : Buffer) i r :
  readVarInt l i = Ok r -> 1 <= Read.length r <= 4.
Proof.
  unfold readVarInt. intros H. bind_inv H.
  repeat match type of H with
         | (if ?c then _ else _) = _ => destruct c
         end;
    try bind_inv H; injection H as <-; cbn; lia.
Qed.

Lemma readVarInt_suffix (bl : Buffer) off l s :
  suffix_at bl off l -> 0 <= s -> readVarInt bl (off + s) = readVarInt l s.
Proof.
  intros H Hs. unfold readVarInt.
  replace (off + s + 4) with (off + (s + 4)) by lia.
  now rewrite (slice_suffix _ _ _ _ _ H Hs).
Qed.

Lemma readUtf8_suffix (bl : Buffer) off l s :
  suffix_at bl off l -> 0 <= s -> readUtf8 bl (off + s) = readUtf8 l s.
Proof.
  intros H Hs. unfold readUtf8.
  rewrite (readVarInt_suffix _ _ _ _ H Hs).
  destruct (readVarInt l s) as [len|e] eqn:E; [|reflexivity]. cbn [bind].
  apply readVarInt_length in E.
  replace (off + s + Read.length len)
    with (off + (s + Read.length len)) by lia.
  replace (off + (s + Read.length len) + Read.value len)
    with (off + (s + Read.length len + Read.value len)) by lia.
  rewrite (slice_suffix _ _ _ _ _ H) by lia. reflexivity.
Qed.

Lemma BL_readUInt8_suffix (bl : Buffer) off l s :
  suffix_at bl off l -> 0 <= s -> BL.readUInt8 bl (off + s) = BL.readUInt8 l s.
Proof.
  intros H Hs. unfold BL.readUInt8, BL.slice.
  replace (off + s + 1) with (off + (s + 1)) by lia.
  now rewrite (slice_suffix _ _ _ _ _ H Hs).
Qed.

Lemma BL_readUInt16BE_suffix (bl : Buffer) off l s :
  suffix_at bl off l -> 0 <= s ->
  BL.readUInt16BE bl (off + s) = BL.readUInt16BE l s.
Proof.
  intros H Hs. unfold BL.readUInt16BE, BL.slice.
  replace (off + s + 2) with (off + (s + 2)) by lia.
  now rewrite (slice_suffix _ _ _ _ _ H Hs).
Qed.

Lemma BL_readUInt32BE_suffix (bl : Buffer) off l s :
  suffix_at bl off l -> 0 <= s ->
  BL.readUInt32BE bl (off + s) = BL.readUInt32BE l s.
Proof.
  intros H Hs. unfold BL.readUInt32BE, BL.slice.
  replace (off + s + 4) with (off + (s + 4)) by lia.
  now rewrite (slice_suffix _ _ _ _ _ H Hs).
Qed.

Lemma BL_slice_suffix (bl : Buffer) off l s e :
  suffix_at bl off l -> 0 <= s ->
  BL.slice bl (off + s) (off + e) = BL.slice l s e.
Proof. apply slice_suffix. Qed.

(** ** Variable-length integers, octet by octet *)

Ltac leb_true :=
  match goal with
  | |- context [?a <=? ?b] => destruct (Z.leb_spec a b); [|lia]
  end.

Lemma slice4 b0 (rest : Buffer) :
  Buf.slice (b0 :: rest) 0 (0 + 4) = b0 :: firstn 3 rest.
Proof. reflexivity. Qed.

Lemma readUInt8_0 b0 (rest : Buffer) : Buf.readUInt8 (b0 :: rest) 0 = Ok b0.
Proof.
  unfold Buf.readUInt8, Buf.readUIntBE. rewrite length_cons.
  pose proof (length_nonneg rest).
  leb_true.
  change (Buf.slice (b0 :: rest) 0 (0 + 1)) with [b0].
  unfold Buf.be_value. cbn [fold_left]. f_equal; lia.
Qed.

Lemma readUIntBE_1_1 b0 b1 (rest : Buffer) :
  Buf.readUIntBE (b0 :: b1 :: rest) 1 1 = Ok b1.
Proof.
  unfold Buf.readUIntBE. rewrite !length_cons.
  pose proof (length_nonneg rest).
  leb_true.
  change (Buf.slice (b0 :: b1 :: rest) 1 (1 + 1)) with [b1].
  unfold Buf.be_value. cbn [fold_left]. f_equal; lia.
Qed.

Lemma readUIntBE_1_2 b0 b1 b2 (rest : Buffer) :
  Buf.readUIntBE (b0 :: b1 :: b2 :: rest) 1 2 = Ok (b1 * 256 + b2).
Proof.
  unfold Buf.readUIntBE. rewrite !length_cons.
  pose proof (length_nonneg rest).
  leb_true.
  change (Buf.slice (b0 :: b1 :: b2 :: rest) 1 (1 + 2)) with [b1; b2].
  unfold Buf.be_value. cbn [fold_left]. f_equal; lia.
Qed.

Lemma readUIntBE_1_3 b0 b1 b2 b3 (rest : Buffer) :
  Buf.readUIntBE (b0 :: b1 :: b2 :: b3 :: rest) 1 3
  = Ok (b1 * 65536 + b2 * 256 + b3).
Proof.
  unfold Buf.readUIntBE. rewrite !length_cons.
  pose proof (length_nonneg rest).
  leb_true.
  change (Buf.slice (b0 :: b1 :: b2 :: b3 :: rest) 1 (1 + 3)) with [b1; b2; b3].
  unfold Buf.be_value. cbn [fold_left]. f_equal; lia.
Qed.

Lemma readVarInt_1 b0 rest :
  0 <= b0 < 64 -> readVarInt (b0 :: rest) 0 = Ok (Read.make 1 b0).
Proof.
  intros H. unfold readVarInt. rewrite slice4, readUInt8_0. cbn [bind].
  destruct (first_octet_masks b0) as [E1 E2]; [lia|].
  rewrite E1, E2.
  replace (b0 / 64) with 0 by divmod.
  cbn [Z.mul Z.eqb]. replace (b0 mod 64) with b0 by divmod. reflexivity.
Qed.

Lemma readVarInt_2 b0 b1 rest :
  64 <= b0 < 128 -> octet b1 ->
  readVarInt (b0 :: b1 :: rest) 0
  = Ok (Read.make 2 ((b0 - 64) * 256 + b1)).
Proof.
  unfold octet. intros H H1.
  unfold readVarInt. rewrite slice4, readUInt8_0. cbn [bind].
  destruct (first_octet_masks b0) as [E1 E2]; [lia|].
  rewrite E1, E2.
  replace (b0 / 64) with 1 by divmod.
  cbn [Z.mul Z.eqb Pos.mul Pos.eqb].
  cbn [firstn]. rewrite readUIntBE_1_1. cbn [bind].
  replace (b0 mod 64) with (b0 - 64) by divmod.
  rewrite (Js_shl_small _ 8) by lia.
  rewrite Js_or_small by lia.
  rewrite (lor_disjoint _ _ 8) by lia.
  reflexivity.
Qed.

Lemma readVarInt_3 b0 b1 b2 rest :
  128 <= b0 < 192 -> octet b1 -> octet b2 ->
  readVarInt (b0 :: b1 :: b2 :: rest) 0
  = Ok (Read.make 3 ((b0 - 128) * 65536 + (b1 * 256 + b2))).
Proof.
  unfold octet. intros H H1 H2.
  unfold readVarInt. rewrite slice4, readUInt8_0. cbn [bind].
  destruct (first_octet_masks b0) as [E1 E2]; [lia|].
  rewrite E1, E2.
  replace (b0 / 64) with 2 by divmod.
  cbn [Z.mul Z.eqb Pos.mul Pos.eqb].
  cbn [firstn]. rewrite readUIntBE_1_2. cbn [bind].
  replace (b0 mod 64) with (b0 - 128) by divmod.
  rewrite (Js_shl_small _ 16) by lia.
  rewrite Js_or_small by lia.
  rewrite (lor_disjoint _ _ 16) by lia.
  reflexivity.
Qed.

Lemma readVarInt_4 b0 b1 b2 b3 rest :
  192 <= b0 < 256 -> octet b1 -> octet b2 -> octet b3 ->
  readVarInt (b0 :: b1 :: b2 :: b3 :: rest) 0
  = Ok (Read.make 4 ((b0 - 192) * 16777216 + (b1 * 65536 + b2 * 256 + b3))).
Proof.
  unfold octet. intros H H1 H2 H3.
  unfold readVarInt. rewrite slice4, readUInt8_0. cbn [bind].
  destruct (first_octet_masks b0) as [E1 E2]; [lia|].
  rewrite E1, E2.
  replace (b0 / 64) with 3 by divmod.
  cbn [Z.mul Z.eqb Pos.mul Pos.eqb].
  cbn [firstn]. rewrite readUIntBE_1_3. cbn [bind].
  replace (b0 mod 64) with (b0 - 192) by divmod.
  rewrite (Js_shl_small _ 24) by lia.
  rewrite Js_or_small by lia.
  rewrite (lor_disjoint _ _ 24) by lia.
  reflexivity.
Qed.

(** What [writeVarInt] returns in each size class. *)

Lemma writeVarInt_1 n : 0 <= n < 64 -> writeVarInt n = Ok [n].
Proof.
  intros H. unfold writeVarInt.
  destruct (Z.ltb_spec n 0); [lia|].
  destruct (Z.ltb_spec n 64); [|lia].
  unfold Buf.writeUIntBE.
  destruct (Z.leb_spec 0 n); [|lia].
  destruct (Z.ltb_spec n (256 ^ Z.of_nat 1)); [|cbn in *; lia].
  cbn [andb Buf.be_bytes]. f_equal. f_equal.
  change (256 ^ Z.of_nat 0) with 1. divmod.
Qed.

Lemma writeVarInt_2 n :
  64 <= n < 16384 -> writeVarInt n = Ok [64 + n / 256; n mod 256].
Proof.
  intros H. unfold writeVarInt.
  destruct (Z.ltb_spec n 0); [lia|].
  destruct (Z.ltb_spec n 64); [lia|].
  destruct (Z.ltb_spec n 16384); [|lia].
  change 0x4000 with (1 * 2 ^ 14).
  rewrite Js_or_tag by lia.
  unfold Buf.writeUIntBE.
  destruct (Z.leb_spec 0 (n + 1 * 2 ^ 14)); [|lia].
  destruct (Z.ltb_spec (n + 1 * 2 ^ 14) (256 ^ Z.of_nat 2)); [|cbn in *; lia].
  cbn [andb Buf.be_bytes].
  change (256 ^ Z.of_nat 1) with 256. change (256 ^ Z.of_nat 0) with 1.
  change (1 * 2 ^ 14) with 16384.
  f_equal. f_equal; [|f_equal]; divmod.
Qed.

Lemma writeVarInt_3 n :
  16384 <= n < 4194304 ->
  writeVarInt n = Ok [128 + n / 65536; (n / 256) mod 256; n mod 256].
Proof.
  intros H. unfold writeVarInt.
  destruct (Z.ltb_spec n 0); [lia|].
  destruct (Z.ltb_spec n 64); [lia|].
  destruct (Z.ltb_spec n 16384); [lia|].
  destruct (Z.ltb_spec n 4194304); [|lia].
  change 0x800000 with (2 * 2 ^ 22).
  rewrite Js_or_tag by lia.
  unfold Buf.writeUIntBE.
  destruct (Z.leb_spec 0 (n + 2 * 2 ^ 22)); [|lia].
  destruct (Z.ltb_spec (n + 2 * 2 ^ 22) (256 ^ Z.of_nat 3)); [|cbn in *; lia].
  cbn [andb Buf.be_bytes].
  change (256 ^ Z.of_nat 2) with 65536.
  change (256 ^ Z.of_nat 1) with 256. change (256 ^ Z.of_nat 0) with 1.
  change (2 * 2 ^ 22) with 8388608.
  f_equal. f_equal; [|f_equal; [|f_equal]]; divmod.
Qed.

Lemma writeVarInt_4 n :
  4194304 <= n < 1073741824 ->
  writeVarInt n
  = Ok [192 + n / 16777216; (n / 65536) mod 256; (n / 256) mod 256;
        n mod 256].
Proof.
  intros H. unfold writeVarInt.
  destruct (Z.ltb_spec n 0); [lia|].
  destruct (Z.ltb_spec n 64); [lia|].
  destruct (Z.ltb_spec n 16384); [lia|].
  destruct (Z.ltb_spec n 4194304); [lia|].
  destruct (Z.ltb_spec n 1073741824); [|lia].
  change 0xC0000000 with (3 * 2 ^ 30).
  rewrite Js_or_tag by lia.
  unfold Buf.writeUIntBE.
  destruct (Z.leb_spec 0 (n + 3 * 2 ^ 30)); [|lia].
  destruct (Z.ltb_spec (n + 3 * 2 ^ 30) (256 ^ Z.of_nat 4)); [|cbn in *; lia].
  cbn [andb Buf.be_bytes].
  change (256 ^ Z.of_nat 3) with 16777216.
  change (256 ^ Z.of_nat 2) with 65536.
  change (256 ^ Z.of_nat 1) with 256. change (256 ^ Z.of_nat 0) with 1.
  change (3 * 2 ^ 30) with 3221225472.
  f_equal. f_equal; [|f_equal; [|f_equal; [|f_equal]]]; divmod.
Qed.

Lemma writeVarInt_throws n :
  n < 0 \/ 1073741824 <= n -> exists msg, writeVarInt n = Throw (Error msg).
Proof.
  intros H. unfold writeVarInt.
  destruct (Z.ltb_spec n 0); [eexists; reflexivity|].
  destruct (Z.ltb_spec n 64); [lia|].
  destruct (Z.ltb_spec n 16384); [lia|].
  destruct (Z.ltb_spec n 4194304); [lia|].
  destruct (Z.ltb_spec n 1073741824); [lia|].
  eexists; reflexivity.
Qed.

Lemma writeVarInt_range n b :
  writeVarInt n = Ok b -> 0 <= n < 1073741824.
Proof.
  intros H.
  destruct (Z.lt_ge_cases n 0) as [Hn|Hn];
    [destruct (writeVarInt_throws n) as [m E]; [lia|congruence]|].
  destruct (Z.lt_ge_cases n 1073741824) as [Hm|Hm]; [lia|].
  destruct (writeVarInt_throws n) as [m E]; [lia|congruence].
Qed.

Lemma writeVarInt_total n :
  0 <= n < 1073741824 ->
  exists b, writeVarInt n = Ok b /\ Buf.length b = varint_size n
            /\ Forall octet b.
Proof.
  intros H. unfold varint_size.
  destruct (Z.leb_spec n 63).
  { exists [n]. rewrite writeVarInt_1 by lia.
    repeat split. repeat constructor; unfold octet; lia. }
  destruct (Z.leb_spec n 16383).
  { eexists. rewrite writeVarInt_2 by lia.
    repeat split. repeat constructor; unfold octet; divmod. }
  destruct (Z.leb_spec n 4194303).
  { eexists. rewrite writeVarInt_3 by lia.
    repeat split. repeat constructor; unfold octet; divmod. }
  eexists. rewrite writeVarInt_4 by lia.
  repeat split. repeat constructor; unfold octet; divmod.
Qed.

Lemma Ok_inj {A} (a b : A) : Ok a = Ok b -> a = b.
Proof. congruence. Qed.

Lemma readVarInt_writeVarInt n b post :
  writeVarInt n = Ok b ->
  readVarInt (b ++ post) 0 = Ok (Read.make (Buf.length b) n).
Proof.
  intros H. pose proof (writeVarInt_range _ _ H) as R.
  destruct (Z.lt_ge_cases n 64).
  { rewrite writeVarInt_1 in H by lia. apply Ok_inj in H; subst b.
    cbn [app]. rewrite readVarInt_1 by lia. reflexivity. }
  destruct (Z.lt_ge_cases n 16384).
  { rewrite writeVarInt_2 in H by lia. apply Ok_inj in H; subst b.
    cbn [app]. rewrite readVarInt_2 by (unfold octet; divmod).
    change (Buf.length [64 + n / 256; n mod 256]) with 2.
    f_equal. f_equal. divmod. }
  destruct (Z.lt_ge_cases n 4194304).
  { rewrite writeVarInt_3 in H by lia. apply Ok_inj in H; subst b.
    cbn [app]. rewrite readVarInt_3 by (unfold octet; divmod).
    change (Buf.length [128 + n / 65536; (n / 256) mod 256; n mod 256]) with 3.
    f_equal. f_equal. divmod. }
  rewrite writeVarInt_4 in H by lia. apply Ok_inj in H; subst b.
  cbn [app]. rewrite readVarInt_4 by (unfold octet; divmod).
  match goal with |- context [Buf.length ?l] => change (Buf.length l) with 4 end.
  f_equal. f_equal.
  replace (n / 16777216) with (n / 256 / 256 / 256)
    by (rewrite !Z.div_div by lia; reflexivity).
  replace (n / 65536) with (n / 256 / 256)
    by (rewrite !Z.div_div by lia; reflexivity).
  divmod.
Qed.

(** C5.  For every integer [n] with [0 <= n <= 1073741823], [writeVarInt n]
    returns a Buffer that [readVarInt] reads back, at index 0, as the value
    [n] with the Buffer's length as consumed length; that length is 1 for
    [n <= 63], 2 up to 16383, 3 up to 4194303 and 4 beyond.  For every
    negative [n] and every [n >= 1073741824], [writeVarInt n] throws an
    [Error]. *)
Theorem varint_round_trip (n : Z) :
  (0 <= n <= 1073741823 ->
   exists b,
     writeVarInt n = Ok b
     /\ readVarInt b 0 = Ok (Read.make (Buf.length b) n)
     /\ Buf.length b = (if n <=? 63 then 1
                        else if n <=? 16383 then 2
                        else if n <=? 4194303 then 3
                        else 4))
  /\ (n < 0 \/ 1073741824 <= n ->
      exists msg, writeVarInt n = Throw (Error msg)).
Proof.
  split; [|apply writeVarInt_throws].
  intros H. destruct (writeVarInt_total n) as (b & E & L & _); [lia|].
  exists b. split; [assumption|]. split; [|exact L].
  rewrite <- (app_nil_r b) at 1. now apply readVarInt_writeVarInt.
Qed.

Lemma varint_round_trip_witness :
  (exists b,
     writeVarInt 16384 = Ok b
     /\ readVarInt b 0 = Ok (Read.make (Buf.length b) 16384)
     /\ Buf.length b = 3)
  /\ exists msg, writeVarInt (-1) = Throw (Error msg).
Proof.
  split.
  - apply (proj1 (varint_round_trip 16384)). lia.
  - apply (proj2 (varint_round_trip (-1))). lia.
Defined.

(** ** UTF-8 *)

Ltac decide_tests :=
  repeat match goal with
         | |- context [?a <=? ?b] =>
           destruct (Z.leb_spec a b); try lia
         | |- context [?a <? ?b] =>
           destruct (Z.ltb_spec a b); try lia
         | |- context [?a =? ?b] =>
           destruct (Z.eqb_spec a b); try lia
         end.

Lemma cont_spec b : Utf8.cont b = true <-> 0x80 <= b <= 0xBF.
Proof. unfold Utf8.cont. rewrite andb_true_iff, !Z.leb_le. tauto. Qed.

Ltac decode_step :=
  match goal with
  | |- Utf8.decode (_ :: ?r) = _ =>
    let r0 := fresh "r0" in
    remember r as r0; cbn [Utf8.decode]; decide_tests; subst r0;
    cbv beta match
  end.

Lemma decode_1 b0 r :
  0 <= b0 < 0x80 -> Utf8.decode (b0 :: r) = b0 :: Utf8.decode r.
Proof. intros H. decode_step. reflexivity. Qed.

Lemma decode_2 b0 b1 r :
  0xC2 <= b0 <= 0xDF -> Utf8.cont b1 = true ->
  Utf8.decode (b0 :: b1 :: r)
  = ((b0 - 0xC0) * 64 + (b1 - 0x80)) :: Utf8.decode r.
Proof. intros H H1. decode_step. rewrite H1. reflexivity. Qed.

Lemma decode_3 b0 b1 b2 r :
  0xE0 <= b0 <= 0xEF -> Utf8.second_ok b0 b1 = true -> Utf8.cont b2 = true ->
  Utf8.decode (b0 :: b1 :: b2 :: r)
  = ((b0 - 0xE0) * 4096 + (b1 - 0x80) * 64 + (b2 - 0x80)) :: Utf8.decode r.
Proof. intros H H1 H2. decode_step. rewrite H1, H2. reflexivity. Qed.

Lemma decode_4 b0 b1 b2 b3 r :
  0xF0 <= b0 <= 0xF4 -> Utf8.second_ok b0 b1 = true ->
  Utf8.cont b2 = true -> Utf8.cont b3 = true ->
  Utf8.decode (b0 :: b1 :: b2 :: b3 :: r)
  = Utf8.units ((b0 - 0xF0) * 262144 + (b1 - 0x80) * 4096
                + (b2 - 0x80) * 64 + (b3 - 0x80)) ++ Utf8.decode r.
Proof.
  intros H H1 H2 H3. decode_step. rewrite H1, H2, H3. reflexivity.
Qed.

Lemma second_ok_3 cp :
  0x800 <= cp < 0x10000 -> scalar cp ->
  Utf8.second_ok (0xE0 + cp / 4096) (0x80 + (cp / 64) mod 64) = true.
Proof.
  unfold scalar. intros H S. unfold Utf8.second_ok, Utf8.cont.
  decide_tests; try reflexivity; exfalso; divmod.
Qed.

Lemma second_ok_4 cp :
  0x10000 <= cp < 0x110000 ->
  Utf8.second_ok (0xF0 + cp / 262144) (0x80 + (cp / 4096) mod 64) = true.
Proof.
  intros H. unfold Utf8.second_ok, Utf8.cont.
  decide_tests; try reflexivity; exfalso; divmod.
Qed.

Lemma decode_encode_point cp r :
  scalar cp ->
  Utf8.decode (Utf8.encode_point cp ++ r) = Utf8.units cp ++ Utf8.decode r.
Proof.
  unfold scalar. intros S. unfold Utf8.encode_point, Utf8.units.
  destruct (Z.ltb_spec cp 0x80).
  { destruct (Z.ltb_spec cp 0x10000); [|lia].
    cbn [app]. apply decode_1. lia. }
  destruct (Z.ltb_spec cp 0x800).
  { destruct (Z.ltb_spec cp 0x10000); [|lia].
    cbn [app]. rewrite decode_2.
    - f_equal. divmod.
    - divmod.
    - apply cont_spec. divmod. }
  destruct (Z.ltb_spec cp 0x10000).
  { cbn [app]. rewrite decode_3.
    - f_equal. divmod.
    - divmod.
    - apply second_ok_3; unfold scalar; lia.
    - apply cont_spec. divmod. }
  cbn [app]. rewrite decode_4.
  - f_equal. unfold Utf8.units.
    match goal with |- context [?x <? 65536] => replace x with cp end.
    + destruct (Z.ltb_spec cp 65536); [lia|reflexivity].
    + replace (cp / 262144) with (cp / 64 / 64 / 64)
        by (rewrite !Z.div_div by lia; reflexivity).
      replace (cp / 4096) with (cp / 64 / 64)
        by (rewrite !Z.div_div by lia; reflexivity).
      divmod.
  - divmod.
  - apply second_ok_4; lia.
  - apply cont_spec. divmod.
  - apply cont_spec. divmod.
Qed.

Lemma high_spec c : Utf8.is_high c = true <-> 0xD800 <= c <= 0xDBFF.
Proof. unfold Utf8.is_high. rewrite andb_true_iff, !Z.leb_le. tauto. Qed.

Lemma low_spec c : Utf8.is_low c = true <-> 0xDC00 <= c <= 0xDFFF.
Proof. unfold Utf8.is_low. rewrite andb_true_iff, !Z.leb_le. tauto. Qed.

Lemma units_pair c d :
  0xD800 <= c <= 0xDBFF -> 0xDC00 <= d <= 0xDFFF ->
  Utf8.units (0x10000 + (c - 0xD800) * 1024 + (d - 0xDC00)) = [c; d].
Proof.
  intros Hc Hd. unfold Utf8.units.
  destruct (Z.ltb_spec (0x10000 + (c - 0xD800) * 1024 + (d - 0xDC00)) 0x10000);
    [lia|].
  f_equal; [|f_equal]; divmod.
Qed.

Lemma units_single c : 0 <= c < 0x10000 -> Utf8.units c = [c].
Proof.
  intros H. unfold Utf8.units. destruct (Z.ltb_spec c 0x10000); [|lia].
  reflexivity.
Qed.

Lemma encode_cons_pair c d s :
  Utf8.is_high c = true -> Utf8.is_low d = true ->
  Utf8.encode (c :: d :: s)
  = Utf8.encode_point (0x10000 + (c - 0xD800) * 1024 + (d - 0xDC00))
      ++ Utf8.encode s.
Proof. intros Hc Hd. cbn [Utf8.encode]. now rewrite Hc, Hd. Qed.

Lemma encode_cons_single c s :
  Utf8.is_high c = false -> Utf8.is_low c = false ->
  Utf8.encode (c :: s) = Utf8.encode_point c ++ Utf8.encode s.
Proof.
  intros Hc Hd. remember (Utf8.encode s) as e.
  cbn [Utf8.encode]. rewrite Hc, Hd. now subst e.
Qed.

Lemma scalar_unit c :
  0 <= c < 0x10000 -> Utf8.is_high c = false -> Utf8.is_low c = false ->
  scalar c.
Proof.
  intros H Hh Hl. unfold scalar.
  apply not_true_iff_false in Hh. rewrite high_spec in Hh.
  apply not_true_iff_false in Hl. rewrite low_spec in Hl. lia.
Qed.

Lemma decode_encode_aux s :
  (Utf8.well_formed s = true -> Utf8.decode (Utf8.encode s) = s)
  /\ (forall c, Utf8.well_formed (c :: s) = true ->
                Utf8.decode (Utf8.encode (c :: s)) = c :: s).
Proof.
  induction s as [|d s [IHa IHb]].
  - split; [reflexivity|].
    intros c H. cbn [Utf8.well_formed] in H.
    destruct (Utf8.is_high c) eqn:Hh; [discriminate|].
    rewrite !andb_true_iff in H. destruct H as [[[H0 H1] Hl] _].
    apply negb_true_iff in Hl.
    rewrite encode_cons_single by assumption.
    apply Z.leb_le in H0. apply Z.ltb_lt in H1.
    rewrite decode_encode_point by (apply scalar_unit; assumption || lia).
    rewrite units_single by lia.
    reflexivity.
  - split; [apply IHb|].
    intros c H. cbn [Utf8.well_formed] in H.
    destruct (Utf8.is_high c) eqn:Hh.
    + apply andb_true_iff in H. destruct H as [Hl Hs].
      rewrite encode_cons_pair by assumption.
      apply high_spec in Hh. apply low_spec in Hl.
      rewrite decode_encode_point by (unfold scalar; lia).
      rewrite units_pair by lia. cbn [app]. now rewrite IHa.
    + fold (Utf8.well_formed (d :: s)) in H.
      rewrite !andb_true_iff in H. destruct H as [[[H0 H1] Hl] Hs].
      apply negb_true_iff in Hl.
      rewrite encode_cons_single by assumption.
      apply Z.leb_le in H0. apply Z.ltb_lt in H1.
      rewrite decode_encode_point by (apply scalar_unit; assumption || lia).
      rewrite units_single by lia.
      cbn [app]. now rewrite IHb.
Qed.

Lemma decode_encode s :
  Utf8.well_formed s = true -> Utf8.decode (Utf8.encode s) = s.
Proof. apply decode_encode_aux. Qed.

(** ** Fixed-width integers *)

Lemma BL_readUInt8_cons x (rest : Buffer) : BL.readUInt8 (x :: rest) 0 = Ok x.
Proof.
  unfold BL.readUInt8, BL.slice.
  change (Buf.slice (x :: rest) 0 (0 + 1)) with [x]. reflexivity.
Qed.

Lemma BL_readUInt16BE_bytes v (rest : Buffer) :
  0 <= v < 65536 -> BL.readUInt16BE (Buf.be_bytes 2 v ++ rest) 0 = Ok v.
Proof.
  intros H. unfold BL.readUInt16BE, BL.slice. cbn [Buf.be_bytes app].
  match goal with
  | |- context [Buf.slice (?a :: ?b :: rest) 0 (0 + 2)] =>
    change (Buf.slice (a :: b :: rest) 0 (0 + 2)) with [a; b]
  end.
  unfold Buf.readUInt16BE, Buf.readUIntBE.
  match goal with
  | |- context [Buf.length [?a; ?b]] => change (Buf.length [a; b]) with 2
  end.
  change (0 + 2 <=? 2) with true. cbv beta iota.
  match goal with
  | |- context [Buf.slice [?a; ?b] 0 (0 + 2)] =>
    change (Buf.slice [a; b] 0 (0 + 2)) with [a; b]
  end.
  unfold Buf.be_value. cbn [fold_left].
  change (256 ^ Z.of_nat 1) with 256. change (256 ^ Z.of_nat 0) with 1.
  f_equal. divmod.
Qed.

Lemma BL_readUInt32BE_bytes v (rest : Buffer) :
  0 <= v < 4294967296 -> BL.readUInt32BE (Buf.be_bytes 4 v ++ rest) 0 = Ok v.
Proof.
  intros H. unfold BL.readUInt32BE, BL.slice. cbn [Buf.be_bytes app].
  match goal with
  | |- context [Buf.slice (?a :: ?b :: ?c :: ?d :: rest) 0 (0 + 4)] =>
    change (Buf.slice (a :: b :: c :: d :: rest) 0 (0 + 4)) with [a; b; c; d]
  end.
  unfold Buf.readUInt32BE, Buf.readUIntBE.
  match goal with
  | |- context [Buf.length [?a; ?b; ?c; ?d]] =>
    change (Buf.length [a; b; c; d]) with 4
  end.
  change (0 + 4 <=? 4) with true. cbv beta iota.
  match goal with
  | |- context [Buf.slice [?a; ?b; ?c; ?d] 0 (0 + 4)] =>
    change (Buf.slice [a; b; c; d] 0 (0 + 4)) with [a; b; c; d]
  end.
  unfold Buf.be_value. cbn [fold_left].
  change (256 ^ Z.of_nat 3) with 16777216.
  change (256 ^ Z.of_nat 2) with 65536.
  change (256 ^ Z.of_nat 1) with 256. change (256 ^ Z.of_nat 0) with 1.
  f_equal.
  replace (v / 16777216) with (v / 256 / 256 / 256)
    by (rewrite !Z.div_div by lia; reflexivity).
  replace (v / 65536) with (v / 256 / 256)
    by (rewrite !Z.div_div by lia; reflexivity).
  divmod.
Qed.

Lemma be_bytes_length n v : Buf.length (Buf.be_bytes n v) = Z.of_nat n.
Proof.
  unfold Buf.length. f_equal.
  induction n as [|n IH]; cbn [Buf.be_bytes List.length]; congruence.
Qed.

Lemma writeUIntBE_ok v n b :
  Buf.writeUIntBE v n = Ok b ->
  0 <= v < 256 ^ Z.of_nat n /\ b = Buf.be_bytes n v.
Proof.
  unfold Buf.writeUIntBE.
  destruct (Z.leb_spec 0 v); [|discriminate].
  destruct (Z.ltb_spec v (256 ^ Z.of_nat n)); [|discriminate].
  cbn [andb]. intros E. apply Ok_inj in E. split; [lia | congruence].
Qed.

Lemma writeUIntBE_total v n :
  0 <= v < 256 ^ Z.of_nat n -> Buf.writeUIntBE v n = Ok (Buf.be_bytes n v).
Proof.
  intros H. unfold Buf.writeUIntBE.
  destruct (Z.leb_spec 0 v); [|lia].
  destruct (Z.ltb_spec v (256 ^ Z.of_nat n)); [|lia]. reflexivity.
Qed.

(** ** Length-prefixed strings *)

Lemma write_whole str : Buf.write str (Buf.byteLength str) = Utf8.encode str.
Proof.
  unfold Buf.write, Buf.byteLength, Buf.length.
  rewrite Nat2Z.id. apply firstn_all.
Qed.

Lemma writeUtf8_ok str b :
  writeUtf8 str = Ok b ->
  exists num, writeVarInt (Buf.byteLength str) = Ok num
              /\ b = num ++ Utf8.encode str.
Proof.
  unfold writeUtf8. intros H. bind_inv H. apply Ok_inj in H.
  rewrite write_whole in H. eauto.
Qed.

Lemma writeUtf8_total str :
  Buf.byteLength str < 1073741824 ->
  exists num, writeVarInt (Buf.byteLength str) = Ok num
              /\ writeUtf8 str = Ok (num ++ Utf8.encode str).
Proof.
  intros H.
  destruct (writeVarInt_total (Buf.byteLength str)) as (num & E & _).
  { split; [apply length_nonneg | assumption]. }
  exists num. split; [assumption|].
  unfold writeUtf8. rewrite E. cbn [bind]. now rewrite write_whole.
Qed.

Lemma slice_middle (pre x post : Buffer) s e :
  s = Buf.length pre -> e = s + Buf.length x ->
  Buf.slice (pre ++ x ++ post) s e = x.
Proof.
  intros -> ->.
  rewrite <- (Z.add_0_r (Buf.length pre)) at 1.
  rewrite (slice_suffix _ _ _ _ _ (suffix_prefix pre _)) by lia.
  apply slice_prefix.
Qed.

Lemma readUtf8_writeUtf8 str b post :
  Utf8.well_formed str = true -> writeUtf8 str = Ok b ->
  readUtf8 (b ++ post) 0 = Ok (Read.make (Buf.length b) str).
Proof.
  intros W H. apply writeUtf8_ok in H. destruct H as (num & E & ->).
  unfold readUtf8. rewrite <- app_assoc.
  rewrite (readVarInt_writeVarInt _ _ _ E). cbn [bind Read.length Read.value].
  rewrite slice_middle by (unfold Buf.byteLength; lia).
  unfold Buf.toString. rewrite decode_encode by assumption.
  now rewrite length_app.
Qed.

(** ** The encoder's framing *)

Lemma crc32_length b : Buf.length (crc32 b) = 4.
Proof. unfold crc32. apply be_bytes_length. Qed.

(** The packet [assemble] returns: signature, flag word, length field,
    body and checksum, with the packet's own size in the length field. *)
Lemma assemble_ok flags body pkt :
  ObjectToSubunitStream.assemble flags body = Ok pkt ->
  exists len,
    0 <= flags < 65536
    /\ writeVarInt (Buf.length pkt) = Ok len
    /\ 1 <= Buf.length len <= 3
    /\ pkt = [signature] ++ Buf.be_bytes 2 flags ++ len ++ Buf.concat body
               ++ crc32 ([signature] ++ Buf.be_bytes 2 flags ++ len
                           ++ Buf.concat body).
Proof.
  unfold ObjectToSubunitStream.assemble. intros H.
  set (bodyBuf := Buf.concat body) in *.
  pose proof (length_nonneg bodyBuf) as Hb.
  bind_inv H. rename a into lengthLength.
  bind_inv H. rename a into sig.
  bind_inv H. rename a into fl.
  bind_inv H. rename a into len.
  apply Ok_inj in H.
  apply writeUIntBE_ok in E0. destruct E0 as [_ ->].
  apply writeUIntBE_ok in E1. destruct E1 as [Hfl ->].
  change (256 ^ Z.of_nat 2) with 65536 in Hfl.
  assert (L : Buf.length len = lengthLength
              /\ 1 <= lengthLength <= 3).
  { destruct (Z.leb_spec (3 + Buf.length bodyBuf + 4) 62).
    { apply Ok_inj in E. subst lengthLength.
      rewrite writeVarInt_1 in E2 by lia. apply Ok_inj in E2. subst len.
      split; [reflexivity | lia]. }
    destruct (Z.leb_spec (3 + Buf.length bodyBuf + 4) 16381).
    { apply Ok_inj in E. subst lengthLength.
      rewrite writeVarInt_2 in E2 by lia. apply Ok_inj in E2. subst len.
      split; [reflexivity | lia]. }
    destruct (Z.leb_spec (3 + Buf.length bodyBuf + 4) 4194300);
      [|discriminate].
    apply Ok_inj in E. subst lengthLength.
    rewrite writeVarInt_3 in E2 by lia. apply Ok_inj in E2. subst len.
    split; [reflexivity | lia]. }
  destruct L as [L1 L2].
  assert (P : pkt = [signature] ++ Buf.be_bytes 2 flags ++ len ++ bodyBuf
               ++ crc32 ([signature] ++ Buf.be_bytes 2 flags ++ len
                           ++ bodyBuf)).
  { subst pkt. unfold Buf.concat. cbn [List.concat Buf.be_bytes].
    rewrite !app_nil_r, <- !app_assoc.
    change (256 ^ Z.of_nat 0) with 1. rewrite Z.div_1_r.
    replace (signature mod 256) with signature by reflexivity.
    reflexivity. }
  exists len. repeat split; try lia; [|exact P].
  replace (Buf.length pkt) with (3 + Buf.length bodyBuf + 4 + lengthLength);
    [assumption|].
  rewrite P. cbn [app]. rewrite !length_cons, !length_app, crc32_length.
  rewrite be_bytes_length. lia.
Qed.

Lemma assemble_total flags body :
  0 <= flags < 65536 -> Buf.length (Buf.concat body) <= 4194293 ->
  exists pkt, ObjectToSubunitStream.assemble flags body = Ok pkt.
Proof.
  intros Hf Hb. unfold ObjectToSubunitStream.assemble.
  set (bodyBuf := Buf.concat body) in *.
  pose proof (length_nonneg bodyBuf) as Hn.
  rewrite (writeUIntBE_total signature 1) by (cbn; unfold signature; lia).
  rewrite (writeUIntBE_total flags 2) by (cbn; lia).
  destruct (Z.leb_spec (3 + Buf.length bodyBuf + 4) 62).
  { cbn [bind]. rewrite writeVarInt_1 by lia. cbn [bind]. eauto. }
  destruct (Z.leb_spec (3 + Buf.length bodyBuf + 4) 16381).
  { cbn [bind]. rewrite writeVarInt_2 by lia. cbn [bind]. eauto. }
  destruct (Z.leb_spec (3 + Buf.length bodyBuf + 4) 4194300); [|lia].
  cbn [bind]. rewrite writeVarInt_3 by lia. cbn [bind]. eauto.
Qed.

Lemma readVarInt_here (bl : Buffer) off l :
  suffix_at bl off l -> readVarInt bl off = readVarInt l 0.
Proof.
  intros H. rewrite <- (Z.add_0_r off) at 1.
  now apply readVarInt_suffix.
Qed.

Lemma readUtf8_here (bl : Buffer) off l :
  suffix_at bl off l -> readUtf8 bl off = readUtf8 l 0.
Proof.
  intros H. rewrite <- (Z.add_0_r off) at 1.
  now apply readUtf8_suffix.
Qed.

Lemma BL_readUInt8_here (bl : Buffer) off l :
  suffix_at bl off l -> BL.readUInt8 bl off = BL.readUInt8 l 0.
Proof.
  intros H. rewrite <- (Z.add_0_r off) at 1.
  now apply BL_readUInt8_suffix.
Qed.

Lemma BL_readUInt16BE_here (bl : Buffer) off l :
  suffix_at bl off l -> BL.readUInt16BE bl off = BL.readUInt16BE l 0.
Proof.
  intros H. rewrite <- (Z.add_0_r off) at 1.
  now apply BL_readUInt16BE_suffix.
Qed.

Lemma BL_readUInt32BE_here (bl : Buffer) off l :
  suffix_at bl off l -> BL.readUInt32BE bl off = BL.readUInt32BE l 0.
Proof.
  intros H. rewrite <- (Z.add_0_r off) at 1.
  now apply BL_readUInt32BE_suffix.
Qed.

Lemma transform_ok chunk pkt :
  ObjectToSubunitStream._transform chunk = Ok pkt ->
  exists flags body,
    ObjectToSubunitStream.fields chunk = Ok (flags, body)
    /\ ObjectToSubunitStream.assemble flags body = Ok pkt.
Proof.
  unfold ObjectToSubunitStream._transform. intros H. bind_inv H.
  destruct a as [flags body]. eauto.
Qed.

Lemma pair_inj {A B} (a c : A) (b d : B) : (a, b) = (c, d) -> a = c /\ b = d.
Proof. intros H. split; congruence. Qed.

(** The signature test passes for the signature, and for another octet
    when somebody listens. *)
Lemma check_signature_ok listening sig offset errors :
  SubunitToObjectStream.check_signature listening sig offset = Ok errors ->
  (sig = signature \/ listening = true)
  /\ errors = (if sig =? signature then []
               else [emit_error ("Bad packet at offset "
                                   ++ Js.toString offset)]).
Proof.
  unfold SubunitToObjectStream.check_signature.
  destruct (Z.eqb_spec sig signature) as [->|Hs].
  - intros H. apply Ok_inj in H. subst. auto.
  - destruct listening; [|discriminate].
    intros H. apply Ok_inj in H. subst. auto.
Qed.

Lemma check_signature_passes listening sig offset :
  sig = signature \/ listening = true ->
  exists errors,
    SubunitToObjectStream.check_signature listening sig offset = Ok errors.
Proof.
  unfold SubunitToObjectStream.check_signature.
  intros [->| ->]; [exists []; reflexivity|].
  destruct (sig =? signature); eauto.
Qed.

Lemma check_signature_same listening offset :
  SubunitToObjectStream.check_signature listening signature offset = Ok [].
Proof. reflexivity. Qed.

Lemma check_signature_heard sig offset :
  SubunitToObjectStream.check_signature true sig offset
  = Ok (if sig =? signature then []
        else [emit_error ("Bad packet at offset " ++ Js.toString offset)]).
Proof.
  unfold SubunitToObjectStream.check_signature.
  now destruct (sig =? signature).
Qed.

Lemma check_signature_unheard sig offset :
  sig <> signature ->
  SubunitToObjectStream.check_signature false sig offset
  = Throw (Unhandled ("Bad packet at offset " ++ Js.toString offset)).
Proof.
  intros H. unfold SubunitToObjectStream.check_signature.
  destruct (Z.eqb_spec sig signature); [contradiction | reflexivity].
Qed.

Lemma iteration_ok {listening} bl offset evs offset' :
  SubunitToObjectStream.iteration listening bl offset = (evs, Ok offset') ->
  exists sig flags packetLength ret,
    SubunitToObjectStream.header bl offset = Ok (sig, flags, packetLength)
    /\ SubunitToObjectStream.fields bl offset flags packetLength = Ok ret
    /\ offset' = offset + Read.value packetLength
    /\ evs = (if sig =? signature then []
              else [emit_error ("Bad packet at offset "
                                  ++ Js.toString offset)])
               ++ [push ret].
Proof.
  unfold SubunitToObjectStream.iteration. intros H.
  destruct (SubunitToObjectStream.header bl offset)
    as [[[sig flags] packetLength]|e] eqn:Eh; [|discriminate].
  destruct (SubunitToObjectStream.check_signature listening sig offset)
    as [errors|e] eqn:Ec; [|discriminate].
  destruct (SubunitToObjectStream.fields bl offset flags packetLength)
    as [ret|e] eqn:Ef; [|discriminate].
  exists sig, flags, packetLength, ret.
  apply pair_inj in H. destruct H as [H1 H2]. apply Ok_inj in H2.
  apply check_signature_ok in Ec. destruct Ec as [_ ->].
  split; [reflexivity|]. split; [assumption|]. split; now symmetry.
Qed.

Lemma header_ok bl offset sig flags packetLength :
  SubunitToObjectStream.header bl offset = Ok (sig, flags, packetLength) ->
  BL.readUInt8 bl offset = Ok sig
  /\ BL.readUInt16BE bl (offset + 1) = Ok flags
  /\ readVarInt bl (offset + 3) = Ok packetLength.
Proof.
  unfold SubunitToObjectStream.header. intros H.
  do 3 bind_inv H. apply Ok_inj in H.
  apply pair_inj in H. destruct H as [H ->].
  apply pair_inj in H. destruct H as [-> ->]. auto.
Qed.

(** C4, amended.  The length field holds the size of the whole packet,
    from the signature octet through the end of the checksum: for every
    record the encoder accepts, the varint at index 3 of the packet it
    returns has the packet's length as its value.  And after parsing a
    packet at [offset] the decoder's offset is [offset] plus the value of
    the varint at [offset + 3], with nothing added for the header. *)
Theorem length_field_is_packet_size (listening : bool) chunk pkt bl offset
        evs offset' :
  (ObjectToSubunitStream._transform chunk = Ok pkt ->
   exists len,
     readVarInt pkt 3 = Ok (Read.make len (Buf.length pkt)))
  /\ (SubunitToObjectStream.iteration listening bl offset = (evs, Ok offset') ->
      exists packetLength,
        readVarInt bl (offset + 3) = Ok packetLength
        /\ offset' = offset + Read.value packetLength).
Proof.
  split.
  - intros H. apply transform_ok in H. destruct H as (flags & body & _ & H).
    apply assemble_ok in H. destruct H as (len & Hf & E & _ & P).
    exists (Buf.length len).
    assert (S : suffix_at pkt 3
                  (len ++ Buf.concat body
                     ++ crc32 ([signature] ++ Buf.be_bytes 2 flags ++ len
                                 ++ Buf.concat body))).
    { rewrite P at 1.
      rewrite (app_assoc [signature]).
      apply (suffix_app _ 0 ([signature] ++ Buf.be_bytes 2 flags));
        [apply suffix_start | reflexivity]. }
    rewrite (readVarInt_here _ _ _ S).
    now apply readVarInt_writeVarInt.
  - intros H. apply iteration_ok in H.
    destruct H as (sig & flags & pl & ret & H & _ & -> & _).
    apply header_ok in H. destruct H as (_ & _ & H). eauto.
Qed.

Lemma length_field_is_packet_size_witness :
  (exists len,
      readVarInt empty_packet 3 = Ok (Read.make len (Buf.length empty_packet)))
  /\ (exists packetLength,
         readVarInt empty_packet (0 + 3) = Ok packetLength
         /\ 8 = 0 + Read.value packetLength).
Proof.
  destruct (length_field_is_packet_size false
              empty_record empty_packet empty_packet 0 [push empty_decoded] 8)
    as [H1 H2].
  split; [apply H1 | apply H2]; vm_compute; reflexivity.
Defined.

(** ** The decoder's loop *)

Lemma loop_done {listening} fuel bl offset :
  BL.length bl <= offset ->
  loop listening fuel bl offset = Some (done (make bl offset) [] None).
Proof.
  intros H. destruct fuel; cbn [loop];
    destruct (Z.ltb_spec offset (BL.length bl)); try lia; reflexivity.
Qed.

Lemma loop_step {listening} fuel bl offset :
  offset < BL.length bl ->
  loop listening (S fuel) bl offset
  = match iteration listening bl offset with
    | (evs, Ok offset') =>
      match loop listening fuel bl offset' with
      | Some o => Some (done (stream o) (evs ++ events o) (thrown o))
      | None => None
      end
    | (evs, Throw RangeError) => Some (done (make bl offset) evs None)
    | (evs, Throw e) => Some (done (make bl offset) evs (Some e))
    end.
Proof.
  intros H. cbn [loop].
  destruct (Z.ltb_spec offset (BL.length bl)); [reflexivity | lia].
Qed.

(** The header of a packet laid out as the encoder lays it out. *)
Lemma header_of_packet (bl : BufferList) offset sig flags len n rest :
  suffix_at bl offset ([sig] ++ Buf.be_bytes 2 flags ++ len ++ rest) ->
  0 <= flags < 65536 -> writeVarInt n = Ok len ->
  header bl offset = Ok (sig, flags, Read.make (Buf.length len) n)
  /\ suffix_at bl (offset + 3 + Buf.length len) rest.
Proof.
  intros S Hf E.
  assert (S1 : suffix_at bl (offset + 1) (Buf.be_bytes 2 flags ++ len ++ rest)).
  { apply (suffix_app _ _ _ _ _ S). reflexivity. }
  assert (S3 : suffix_at bl (offset + 3) (len ++ rest)).
  { apply (suffix_app _ _ _ _ _ S1). rewrite be_bytes_length. lia. }
  split.
  - unfold header.
    rewrite (BL_readUInt8_here _ _ _ S). cbn [app].
    rewrite BL_readUInt8_cons. cbn [bind].
    rewrite (BL_readUInt16BE_here _ _ _ S1), BL_readUInt16BE_bytes by lia.
    cbn [bind].
    rewrite (readVarInt_here _ _ _ S3), (readVarInt_writeVarInt _ _ _ E).
    reflexivity.
  - apply (suffix_app _ _ _ _ _ S3). reflexivity.
Qed.

Lemma nanos_range millis :
  ObjectToSubunitStream.nanos_of millis = (millis mod 1000) * 1000000
  /\ 0 <= ObjectToSubunitStream.nanos_of millis <= 999000000.
Proof.
  unfold ObjectToSubunitStream.nanos_of, ObjectToSubunitStream.seconds_of.
  split; divmod.
Qed.

Lemma T1_fields millis vn :
  0 <= millis < 4294967296000 ->
  writeVarInt (ObjectToSubunitStream.nanos_of millis) = Ok vn ->
  ObjectToSubunitStream.fields (T1_record millis)
  = Ok (0x2A83,
        [Buf.be_bytes 4 (ObjectToSubunitStream.seconds_of millis) ++ vn;
         [2; 84; 49]; [2]; [1; 97]; [1; 98]]).
Proof.
  intros H E. unfold ObjectToSubunitStream.fields.
  unfold ObjectToSubunitStream.put_timestamp.
  cbn [T1_record Rec.timestamp]. rewrite E. cbn [bind].
  rewrite writeUIntBE_total
    by (unfold ObjectToSubunitStream.seconds_of; cbn; divmod).
  cbn [bind]. reflexivity.
Qed.

Lemma T1_parse {listening} (bl : BufferList) offset millis vn n len crc :
  0 <= millis < 4294967296000 ->
  writeVarInt (ObjectToSubunitStream.nanos_of millis) = Ok vn ->
  writeVarInt n = Ok len ->
  suffix_at bl offset
    ([signature] ++ Buf.be_bytes 2 0x2A83 ++ len
       ++ Buf.concat
            [Buf.be_bytes 4 (ObjectToSubunitStream.seconds_of millis) ++ vn;
             [2; 84; 49]; [2]; [1; 97]; [1; 98]]
       ++ crc) ->
  iteration listening bl offset
  = ([push (T1_decoded millis n)], Ok (offset + n)).
Proof.
  intros H Evn Elen S.
  destruct (header_of_packet _ _ _ _ _ _ _ S ltac:(lia) Elen) as [Hh S0].
  unfold iteration. rewrite Hh.
  rewrite check_signature_same.
  unfold fields. cbn [Read.length Read.value].
  change (packet_flags 0x2A83)
    with {| Flags.testId := true; Flags.routeCode := false;
            Flags.timestamp := true; Flags.runnable := false;
            Flags.tags := true; Flags.mimeType := false;
            Flags.eof := false; Flags.fileContent := false |}.
  cbn [Packet.flags].
  unfold Buf.concat in S0. cbn [List.concat] in S0.
  rewrite <- !app_assoc in S0.
  (* timestamp *)
  unfold get_timestamp. cbn [Flags.timestamp].
  rewrite (BL_readUInt32BE_here _ _ _ S0), BL_readUInt32BE_bytes
    by (unfold ObjectToSubunitStream.seconds_of; divmod).
  cbn [bind].
  assert (S1 := suffix_app _ _ _ _ (offset + 3 + Buf.length len + 4) S0
                           ltac:(now rewrite be_bytes_length)).
  rewrite (readVarInt_here _ _ _ S1), (readVarInt_writeVarInt _ _ _ Evn).
  cbn [bind Read.length Read.value].
  assert (S2 := suffix_app _ _ _ _ _ S1 eq_refl).
  (* testId *)
  unfold get_testId. cbn [Flags.testId].
  rewrite (readUtf8_here _ _ _ S2).
  rewrite (readUtf8_writeUtf8 (Js.lit "T1") [2; 84; 49]) by reflexivity.
  cbn [bind Read.length Read.value].
  assert (S3 := suffix_app _ _ _ _ _ S2 eq_refl).
  (* tags *)
  unfold get_tags. cbn [Flags.tags].
  rewrite (readVarInt_here _ _ _ S3).
  rewrite (readVarInt_writeVarInt 2 [2]) by reflexivity.
  cbn [bind Read.length Read.value].
  assert (S4 := suffix_app _ _ _ _ _ S3 eq_refl).
  change (Z.to_nat 2) with 2%nat. cbn [read_tags].
  rewrite (readUtf8_here _ _ _ S4).
  rewrite (readUtf8_writeUtf8 (Js.lit "a") [1; 97]) by reflexivity.
  cbn [bind Read.length Read.value].
  assert (S5 := suffix_app _ _ _ _ _ S4 eq_refl).
  rewrite (readUtf8_here _ _ _ S5).
  rewrite (readUtf8_writeUtf8 (Js.lit "b") [1; 98]) by reflexivity.
  cbn [bind Read.length Read.value app].
  (* the fields that are absent *)
  unfold get_mimeType, get_file, get_routeCode.
  cbn [Flags.mimeType Flags.fileContent Flags.routeCode bind].
  change (statusFlags_get (Js.and 0x2A83 0x0007))
    with (Js.str (Js.lit "success")).
  rewrite timestamp_of_millis by assumption. reflexivity.
Qed.

(** A timestamp before 1970 or after the last second a four-octet field
    holds makes the encoder throw. *)
Lemma timestamp_out_of_range chunk millis st :
  Rec.timestamp chunk = Some (Date.valid millis) ->
  millis < 0 \/ 4294967296000 <= millis ->
  ObjectToSubunitStream.put_timestamp chunk st = Throw OutOfBounds.
Proof.
  intros Ht H. unfold ObjectToSubunitStream.put_timestamp.
  destruct st as [flags body]. rewrite Ht.
  destruct (nanos_range millis) as [_ R].
  destruct (writeVarInt_total (ObjectToSubunitStream.nanos_of millis))
    as (vn & Evn & _); [lia|].
  rewrite Evn. cbn [bind]. unfold Buf.writeUIntBE.
  change (256 ^ Z.of_nat 4) with 4294967296.
  assert (S : ObjectToSubunitStream.seconds_of millis < 0
              \/ 4294967296 <= ObjectToSubunitStream.seconds_of millis).
  { unfold ObjectToSubunitStream.seconds_of. divmod. }
  destruct (Z.leb_spec 0 (ObjectToSubunitStream.seconds_of millis));
    destruct (Z.ltb_spec (ObjectToSubunitStream.seconds_of millis) 4294967296);
    try lia; reflexivity.
Qed.

(** C1, amended.  For every timestamp of [millis] whole milliseconds
    whose seconds fit the four-octet field ([0 <= millis <
    4294967296000]), the encoder turns the record with test id "T1",
    status "success", that timestamp and tags "a", "b" into a packet, and
    a fresh decoder given that packet, with or without an ['error']
    listener, pushes exactly one record: the same test id, status,
    timestamp and tags, no other property, and a [_packet] whose flags
    are true for [testId], [tags] and [timestamp] and false for the rest.
    The decoder's offset ends at the end of the packet. *)
Theorem record_round_trip (listening : bool) (millis : Z) :
  0 <= millis < 4294967296000 ->
  exists pkt,
    ObjectToSubunitStream._transform (T1_record millis) = Ok pkt
    /\ forall fuel, (0 < fuel)%nat ->
         _transform listening fuel new pkt
         = Some (done (make pkt (Buf.length pkt))
                      [push (T1_decoded millis (Buf.length pkt))] None).
Proof.
  intros H.
  destruct (nanos_range millis) as [_ Hn].
  destruct (writeVarInt_total (ObjectToSubunitStream.nanos_of millis))
    as (vn & Evn & Lvn & _); [lia|].
  pose proof (T1_fields millis vn H Evn) as Ef.
  assert (Lvn' : 1 <= Buf.length vn <= 4).
  { rewrite Lvn. unfold varint_size.
    repeat (match goal with |- context [?a <=? ?b] =>
                           destruct (Z.leb_spec a b) end); lia. }
  set (body := [Buf.be_bytes 4 (ObjectToSubunitStream.seconds_of millis) ++ vn;
                [2; 84; 49]; [2]; [1; 97]; [1; 98]]) in *.
  assert (Lb : Buf.length (Buf.concat body) = 12 + Buf.length vn).
  { unfold body, Buf.concat. cbn [List.concat].
    rewrite !length_app, be_bytes_length, !length_cons, length_nil. lia. }
  destruct (assemble_total 0x2A83 body) as [pkt Ea];
    [lia | lia |].
  exists pkt. split.
  { unfold ObjectToSubunitStream._transform. rewrite Ef. exact Ea. }
  destruct (assemble_ok _ _ _ Ea) as (len & _ & Elen & _ & P).
  intros fuel Hfuel. destruct fuel as [|fuel]; [lia|].
  unfold _transform. cbn [bl offset new BL.append app].
  pose proof (length_nonneg pkt) as Hp.
  assert (Hpos : 0 < BL.length pkt).
  { unfold BL.length. rewrite P. cbn [app]. rewrite length_cons.
    match goal with |- 0 < 1 + Buf.length ?l =>
                    pose proof (length_nonneg l) end. lia. }
  rewrite loop_step by assumption.
  rewrite (T1_parse pkt 0 millis vn (Buf.length pkt) len
                    (crc32 ([signature] ++ Buf.be_bytes 2 0x2A83 ++ len
                              ++ Buf.concat body)) H Evn Elen).
  - rewrite loop_done by (unfold BL.length; lia).
    cbn [stream events thrown app]. rewrite Z.add_0_l. reflexivity.
  - split; [lia | exact P].
Qed.

Lemma record_round_trip_witness :
  exists pkt,
    ObjectToSubunitStream._transform (T1_record 1234567890123) = Ok pkt
    /\ forall fuel, (0 < fuel)%nat ->
         _transform false fuel new pkt
         = Some (done (make pkt (Buf.length pkt))
                      [push (T1_decoded 1234567890123 (Buf.length pkt))] None).
Proof. apply (record_round_trip false 1234567890123). lia. Defined.

(** C1, the claim as stated.  The record with a whole-millisecond
    timestamp one millisecond before 1970, or at the first millisecond
    whose seconds no longer fit four octets, is not encoded: the encoder
    throws, so there is no packet to decode. *)
Lemma timestamp_outside_four_octets :
  ObjectToSubunitStream._transform (T1_record (-1)) = Throw OutOfBounds
  /\ ObjectToSubunitStream._transform (T1_record 4294967296000)
     = Throw OutOfBounds.
Proof. split; vm_compute; reflexivity. Qed.

(** C6, amended.  For every string whose surrogates are all paired and
    whose UTF-8 encoding has at most 1073741823 octets, [writeUtf8]
    returns the varint of the UTF-8 length followed by the UTF-8 octets,
    and [readUtf8] reads that Buffer back, at index 0, as the same string
    with consumed length the varint's length plus the UTF-8 length.  The
    empty string is encoded as the single octet 0. *)
Theorem string_round_trip (str : Js.String) :
  Utf8.well_formed str = true -> Buf.byteLength str <= 1073741823 ->
  exists num b,
    writeVarInt (Buf.byteLength str) = Ok num
    /\ writeUtf8 str = Ok b
    /\ b = num ++ Utf8.encode str
    /\ readUtf8 b 0
       = Ok (Read.make (Buf.length num + Buf.byteLength str) str)
    /\ (str = [] -> b = [0]).
Proof.
  intros W L.
  destruct (writeUtf8_total str) as (num & E & Eb); [lia|].
  exists num, (num ++ Utf8.encode str).
  split; [assumption|]. split; [assumption|]. split; [reflexivity|]. split.
  - rewrite <- (app_nil_r (num ++ Utf8.encode str)) at 1.
    rewrite (readUtf8_writeUtf8 str _ [] W Eb), length_app. reflexivity.
  - intros ->. change (Buf.byteLength []) with 0 in E.
    rewrite writeVarInt_1 in E by lia. apply Ok_inj in E. now subst num.
Qed.

Lemma string_round_trip_witness :
  exists num b,
    writeVarInt (Buf.byteLength [0x20AC; 0xD83D; 0xDE00]) = Ok num
    /\ writeUtf8 [0x20AC; 0xD83D; 0xDE00] = Ok b
    /\ b = num ++ Utf8.encode [0x20AC; 0xD83D; 0xDE00]
    /\ readUtf8 b 0
       = Ok (Read.make (Buf.length num + Buf.byteLength [0x20AC; 0xD83D; 0xDE00])
                       [0x20AC; 0xD83D; 0xDE00])
    /\ ([0x20AC; 0xD83D; 0xDE00] = [] -> b = [0]).
Proof.
  apply (string_round_trip [0x20AC; 0xD83D; 0xDE00]).
  - reflexivity.
  - vm_compute. discriminate.
Defined.

(** C6, the claim as stated.  The one-unit string U+D800, an unpaired
    surrogate, is written as the three octets of U+FFFD and read back as
    U+FFFD. *)
Lemma lone_surrogate_not_restored :
  exists b r,
    writeUtf8 [0xD800] = Ok b
    /\ readUtf8 b 0 = Ok r
    /\ Read.value r = [0xFFFD]
    /\ Read.value r <> [0xD800].
Proof.
  exists [3; 0xEF; 0xBF; 0xBD], (Read.make 4 [0xFFFD]).
  repeat split; try reflexivity. cbn [Read.value]. discriminate.
Qed.

Lemma writeUtf8_too_long str :
  1073741824 <= Buf.byteLength str ->
  exists msg, writeUtf8 str = Throw (Error msg).
Proof.
  intros H. unfold writeUtf8.
  destruct (writeVarInt_throws (Buf.byteLength str)) as [msg E]; [lia|].
  rewrite E. cbn [bind]. eauto.
Qed.

(** The two-octet string U+00E9 is one code point. *)
Example byte_length_is_not_codepoint_count :
  Buf.byteLength [0xE9] = 2 /\ Utf8.codepoints [0xE9] = 1.
Proof. split; reflexivity. Qed.

(** C10.  For every record whose timestamp is a valid Date with
    [millis >= 0], the nanosecond remainder the encoder derives is
    [(millis mod 1000) * 1000000], a multiple of 1000000 between 0 and
    999000000, hence below 2^30; [writeVarInt] encodes it in at most four
    octets, from which [readVarInt] reads it back.  The timestamp block is
    the write of the seconds [millis / 1000] into four octets followed by
    the push of those octets and that varint, with the timestamp bit set
    in the flags: whatever the timestamp, the block throws no [Error]. *)
Theorem timestamp_nanos_fit (chunk : Rec.t) (millis : Z)
        (st : Z * list Buffer) :
  Rec.timestamp chunk = Some (Date.valid millis) -> 0 <= millis ->
  ObjectToSubunitStream.nanos_of millis = (millis mod 1000) * 1000000
  /\ 0 <= (millis mod 1000) * 1000000 <= 999000000
  /\ ((millis mod 1000) * 1000000) mod 1000000 = 0
  /\ (millis mod 1000) * 1000000 <= 1073741823
  /\ (exists varNanos,
         writeVarInt ((millis mod 1000) * 1000000) = Ok varNanos
         /\ Buf.length varNanos <= 4
         /\ readVarInt varNanos 0
            = Ok (Read.make (Buf.length varNanos)
                            ((millis mod 1000) * 1000000))
         /\ ObjectToSubunitStream.put_timestamp chunk st
            = (buf <- Buf.writeUIntBE (millis / 1000) 4 ;;
               Ok (Js.or (fst st) flagMasks.timestamp,
                   snd st ++ [buf ++ varNanos])))
  /\ (forall msg,
         ObjectToSubunitStream.put_timestamp chunk st <> Throw (Error msg)).
Proof.
  intros Ht Hm. destruct (nanos_range millis) as [E R].
  split; [exact E|]. rewrite E in R. split; [exact R|]. split.
  { apply Z.mod_mul. lia. }
  split; [lia|].
  destruct (writeVarInt_total ((millis mod 1000) * 1000000))
    as (vn & Evn & Lvn & _); [lia|].
  assert (P : ObjectToSubunitStream.put_timestamp chunk st
              = (buf <- Buf.writeUIntBE (millis / 1000) 4 ;;
                 Ok (Js.or (fst st) flagMasks.timestamp,
                     snd st ++ [buf ++ vn]))).
  { unfold ObjectToSubunitStream.put_timestamp.
    destruct st as [flags body]. rewrite Ht, E, Evn. reflexivity. }
  split.
  - exists vn. split; [assumption|]. split; [|split; [|exact P]].
    + rewrite Lvn. unfold varint_size.
      repeat (match goal with |- context [?a <=? ?b] =>
                              destruct (Z.leb_spec a b) end); lia.
    + rewrite <- (app_nil_r vn) at 1.
      apply (readVarInt_writeVarInt _ _ _ Evn).
  - intros msg. rewrite P. unfold Buf.writeUIntBE.
    destruct ((0 <=? millis / 1000) && (millis / 1000 <? 256 ^ Z.of_nat 4));
      cbn [bind]; discriminate.
Qed.

Lemma timestamp_nanos_fit_witness :
  ObjectToSubunitStream.nanos_of 1234567890123
  = (1234567890123 mod 1000) * 1000000
  /\ 0 <= (1234567890123 mod 1000) * 1000000 <= 999000000
  /\ ((1234567890123 mod 1000) * 1000000) mod 1000000 = 0
  /\ (1234567890123 mod 1000) * 1000000 <= 1073741823
  /\ (exists varNanos,
         writeVarInt ((1234567890123 mod 1000) * 1000000) = Ok varNanos
         /\ Buf.length varNanos <= 4
         /\ readVarInt varNanos 0
            = Ok (Read.make (Buf.length varNanos)
                            ((1234567890123 mod 1000) * 1000000))
         /\ ObjectToSubunitStream.put_timestamp (T1_record 1234567890123)
                                                (0x2003, [])
            = (buf <- Buf.writeUIntBE (1234567890123 / 1000) 4 ;;
               Ok (Js.or (fst (0x2003, @nil Buffer)) flagMasks.timestamp,
                   snd (0x2003, @nil Buffer) ++ [buf ++ varNanos])))
  /\ (forall msg,
         ObjectToSubunitStream.put_timestamp (T1_record 1234567890123)
                                             (0x2003, [])
         <> Throw (Error msg)).
Proof.
  apply (timestamp_nanos_fit (T1_record 1234567890123) 1234567890123).
  - reflexivity.
  - lia.
Defined.

(** ** The flag word *)

Lemma lor_bound a b n :
  0 <= n -> 0 <= a < 2 ^ n -> 0 <= b < 2 ^ n -> 0 <= Z.lor a b < 2 ^ n.
Proof.
  intros Hn Ha Hb.
  assert (E : Z.lor a b mod 2 ^ n = Z.lor a b).
  { rewrite <- Z.land_ones, Z.land_lor_distr_l, !Z.land_ones by lia.
    rewrite !Z.mod_small by lia. reflexivity. }
  rewrite <- E. apply Z.mod_pos_bound. lia.
Qed.

Ltac mask_range :=
  cbv [flagMasks.testId flagMasks.routeCode flagMasks.timestamp
       flagMasks.runnable flagMasks.tags flagMasks.mimeType flagMasks.eof
       flagMasks.fileContent]; lia.

Ltac bind_pair H :=
  bind_inv H;
  repeat match goal with a : (_ * _)%type |- _ => destruct a end.

Lemma or_mask_inv c d flags m :
  flag_inv c d flags -> 0 <= m < 65536 ->
  Z.land m 7 = 0 -> Z.land m flagMasks.fileContent = 0 ->
  flag_inv c d (Js.or flags m).
Proof.
  intros (R & C & D) Hm M7 M40. unfold flag_inv.
  rewrite Js_or_small by lia.
  split; [apply (lor_bound _ _ 16); lia|].
  rewrite !Z.land_lor_distr_l, M7, M40, C, D, !Z.lor_0_r. auto.
Qed.

Lemma Value_eqb_eq a b : Js.Value_eqb a b = true -> a = b.
Proof.
  destruct a, b; cbn; try discriminate; try reflexivity.
  unfold Js.String_eqb. destruct (list_eq_dec Z.eq_dec s s0); [|discriminate].
  now intros _; subst.
Qed.

Lemma status_code_range status : 0 <= status_code status <= 7.
Proof.
  unfold status_code.
  destruct (find _ ObjectToSubunitStream.keys) as [k|] eqn:E; [|lia].
  apply find_some in E. destruct E as [E _].
  cbn in E. intuition lia.
Qed.

Lemma status_code_found k v :
  In (k, v) statusFlags -> status_code v = k.
Proof.
  intros H. cbn in H.
  repeat (destruct H as [H|H];
          [apply pair_inj in H; destruct H as [<- <-]; reflexivity|]).
  contradiction.
Qed.

Lemma status_code_unknown status :
  (forall k, ~ In (k, status) statusFlags) -> status_code status = 0.
Proof.
  intros H. unfold status_code.
  destruct (find _ ObjectToSubunitStream.keys) as [k|] eqn:E; [|reflexivity].
  apply find_some in E. destruct E as [E1 E2]. apply Value_eqb_eq in E2.
  exfalso. apply (H k). subst status. cbn in E1.
  repeat (destruct E1 as [<-|E1]; [cbn; tauto|]). contradiction.
Qed.

Lemma initial_flags_inv chunk :
  flag_inv (status_code (Rec.status chunk)) 0
           (ObjectToSubunitStream.initial_flags chunk).
Proof.
  unfold ObjectToSubunitStream.initial_flags.
  assert (I0 : flag_inv (status_code (Rec.status chunk)) 0
                 (ObjectToSubunitStream.or_key 0x2000
                    (find (fun flag =>
                             Js.Value_eqb (statusFlags_get flag)
                                          (Rec.status chunk))
                          ObjectToSubunitStream.keys))).
  { pose proof (status_code_range (Rec.status chunk)) as R.
    unfold status_code in *.
    destruct (find _ ObjectToSubunitStream.keys) as [k|];
      unfold ObjectToSubunitStream.or_key.
    - assert (K : k = 0 \/ k = 1 \/ k = 2 \/ k = 3 \/ k = 4 \/ k = 5
                  \/ k = 6 \/ k = 7) by lia.
      repeat (destruct K as [->|K]; [repeat split; cbn; lia|]).
      subst k. repeat split; cbn; lia.
    - repeat split; cbn; lia. }
  destruct (Rec._packet chunk) as [p|]; [|exact I0].
  destruct (Flags.runnable (Packet.flags p));
    destruct (Flags.eof (Packet.flags p));
    repeat (apply or_mask_inv; [|mask_range|reflexivity|reflexivity]);
    exact I0.
Qed.

Ltac put_inv :=
  intros H I;
  match type of H with
  | ?put ?chunk _ = _ => unfold put in H
  end;
  match type of H with
  | match ?x with _ => _ end = _ => destruct x
  end;
  [ repeat bind_inv H; apply Ok_inj in H; apply pair_inj in H;
    destruct H as [<- _];
    apply or_mask_inv; [exact I | mask_range | reflexivity | reflexivity]
  | apply Ok_inj in H; apply pair_inj in H; destruct H as [<- _]; exact I ].

(** The block throws for an invalid Date. *)
Ltac not_a_number H :=
  unfold ObjectToSubunitStream.writeVarInt_NaN in H; cbn [bind] in H;
  discriminate H.

Ltac valid_date H :=
  try match type of H with
      | match ?d with Date.valid _ => _ | Date.invalid => _ end = _ =>
        destruct d; [|not_a_number H]
      end.

Lemma put_timestamp_inv c d chunk f b f' b' :
  ObjectToSubunitStream.put_timestamp chunk (f, b) = Ok (f', b') ->
  flag_inv c d f -> flag_inv c d f'.
Proof.
  unfold ObjectToSubunitStream.put_timestamp. intros H I.
  destruct (Rec.timestamp chunk) as [[millis|]|].
  - repeat bind_inv H. apply Ok_inj in H. apply pair_inj in H.
    destruct H as [<- _].
    apply or_mask_inv; [exact I | mask_range | reflexivity | reflexivity].
  - not_a_number H.
  - apply Ok_inj in H. apply pair_inj in H. destruct H as [<- _]. exact I.
Qed.

Lemma put_testId_inv c d chunk f b f' b' :
  ObjectToSubunitStream.put_testId chunk (f, b) = Ok (f', b') ->
  flag_inv c d f -> flag_inv c d f'.
Proof. put_inv. Qed.

Lemma put_tags_inv c d chunk f b f' b' :
  ObjectToSubunitStream.put_tags chunk (f, b) = Ok (f', b') ->
  flag_inv c d f -> flag_inv c d f'.
Proof. put_inv. Qed.

Lemma put_mimeType_inv c d chunk f b f' b' :
  ObjectToSubunitStream.put_mimeType chunk (f, b) = Ok (f', b') ->
  flag_inv c d f -> flag_inv c d f'.
Proof. put_inv. Qed.

Lemma put_routeCode_inv c d chunk f b f' b' :
  ObjectToSubunitStream.put_routeCode chunk (f, b) = Ok (f', b') ->
  flag_inv c d f -> flag_inv c d f'.
Proof. put_inv. Qed.

Lemma put_file_absent chunk st :
  Rec.fileName chunk = None \/ Rec.fileContent chunk = None ->
  ObjectToSubunitStream.put_file chunk st = Ok st.
Proof.
  intros H. unfold ObjectToSubunitStream.put_file. destruct st as [f b].
  destruct H as [-> | ->]; [reflexivity|].
  destruct (Rec.fileName chunk); reflexivity.
Qed.

Lemma put_file_inv c chunk f b f' b' :
  ObjectToSubunitStream.put_file chunk (f, b) = Ok (f', b') ->
  flag_inv c 0 f -> exists d, flag_inv c d f'.
Proof.
  intros H I. unfold ObjectToSubunitStream.put_file in H.
  destruct (Rec.fileName chunk); [destruct (Rec.fileContent chunk)|].
  - do 2 bind_inv H. apply Ok_inj in H. apply pair_inj in H.
    destruct H as [<- _]. destruct I as (R & C & D).
    exists flagMasks.fileContent. unfold flag_inv.
    rewrite Js_or_small by (mask_range).
    split; [apply (lor_bound _ _ 16); mask_range|].
    rewrite !Z.land_lor_distr_l, C, D. split; [apply Z.lor_0_r | reflexivity].
  - apply Ok_inj in H. apply pair_inj in H. destruct H as [<- _]. eauto.
  - apply Ok_inj in H. apply pair_inj in H. destruct H as [<- _]. eauto.
Qed.

(** The flag word the encoder arrives at. *)
Lemma fields_flags chunk flags body :
  ObjectToSubunitStream.fields chunk = Ok (flags, body) ->
  0 <= flags < 65536
  /\ Z.land flags 7 = status_code (Rec.status chunk)
  /\ (Rec.fileName chunk = None \/ Rec.fileContent chunk = None ->
      Z.land flags flagMasks.fileContent = 0).
Proof.
  unfold ObjectToSubunitStream.fields. intros H.
  pose proof (initial_flags_inv chunk) as I0.
  bind_inv H. destruct a as [f1 b1].
  pose proof (put_timestamp_inv _ _ _ _ _ _ _ E I0) as I1.
  bind_inv H. destruct a as [f2 b2].
  pose proof (put_testId_inv _ _ _ _ _ _ _ E0 I1) as I2.
  bind_inv H. destruct a as [f3 b3].
  pose proof (put_tags_inv _ _ _ _ _ _ _ E1 I2) as I3.
  bind_inv H. destruct a as [f4 b4].
  pose proof (put_mimeType_inv _ _ _ _ _ _ _ E2 I3) as I4.
  bind_inv H. destruct a as [f5 b5].
  destruct (put_file_inv _ _ _ _ _ _ E3 I4) as [d I5].
  pose proof (put_routeCode_inv _ _ _ _ _ _ _ H I5) as (R & C & D).
  split; [exact R|]. split; [exact C|].
  intros A. rewrite (put_file_absent _ _ A) in E3.
  apply Ok_inj in E3. apply pair_inj in E3. destruct E3 as [<- _].
  apply (put_routeCode_inv _ _ _ _ _ _ _ H I4).
Qed.

(** The flag word of an encoded packet is the one [fields] arrived at. *)
Lemma transform_flag_word chunk pkt :
  ObjectToSubunitStream._transform chunk = Ok pkt ->
  exists flags body,
    ObjectToSubunitStream.fields chunk = Ok (flags, body)
    /\ 0 <= flags < 65536
    /\ BL.readUInt16BE pkt 1 = Ok flags.
Proof.
  intros H. apply transform_ok in H. destruct H as (flags & body & Hf & Ha).
  exists flags, body. split; [assumption|].
  apply assemble_ok in Ha. destruct Ha as (len & R & _ & _ & P).
  split; [assumption|].
  assert (S : suffix_at pkt 1 (Buf.be_bytes 2 flags ++ len ++ Buf.concat body
                               ++ crc32 ([signature] ++ Buf.be_bytes 2 flags
                                           ++ len ++ Buf.concat body))).
  { rewrite P at 1. apply (suffix_app _ 0 [signature]);
      [apply suffix_start | reflexivity]. }
  rewrite (BL_readUInt16BE_here _ _ _ S). now apply BL_readUInt16BE_bytes.
Qed.



(** Each block of the encoder looks at its own property only. *)

Lemma initial_flags_ext c1 c2 :
  Rec.status c1 = Rec.status c2 -> Rec._packet c1 = Rec._packet c2 ->
  ObjectToSubunitStream.initial_flags c1
  = ObjectToSubunitStream.initial_flags c2.
Proof.
  intros E1 E2. unfold ObjectToSubunitStream.initial_flags.
  now rewrite E1, E2.
Qed.

Lemma put_timestamp_ext c1 c2 st :
  Rec.timestamp c1 = Rec.timestamp c2 ->
  ObjectToSubunitStream.put_timestamp c1 st
  = ObjectToSubunitStream.put_timestamp c2 st.
Proof.
  intros E. unfold ObjectToSubunitStream.put_timestamp. now rewrite E.
Qed.

Lemma put_testId_ext c1 c2 st :
  Rec.testId c1 = Rec.testId c2 ->
  ObjectToSubunitStream.put_testId c1 st
  = ObjectToSubunitStream.put_testId c2 st.
Proof.
  intros E. unfold ObjectToSubunitStream.put_testId. now rewrite E.
Qed.

Lemma put_tags_ext c1 c2 st :
  Rec.tags c1 = Rec.tags c2 ->
  ObjectToSubunitStream.put_tags c1 st = ObjectToSubunitStream.put_tags c2 st.
Proof.
  intros E. unfold ObjectToSubunitStream.put_tags. now rewrite E.
Qed.

Lemma put_mimeType_ext c1 c2 st :
  Rec.mimeType c1 = Rec.mimeType c2 ->
  ObjectToSubunitStream.put_mimeType c1 st
  = ObjectToSubunitStream.put_mimeType c2 st.
Proof.
  intros E. unfold ObjectToSubunitStream.put_mimeType. now rewrite E.
Qed.

Lemma put_routeCode_ext c1 c2 st :
  Rec.routeCode c1 = Rec.routeCode c2 ->
  ObjectToSubunitStream.put_routeCode c1 st
  = ObjectToSubunitStream.put_routeCode c2 st.
Proof.
  intros E. unfold ObjectToSubunitStream.put_routeCode. now rewrite E.
Qed.

Lemma fields_without_file chunk :
  Rec.fileName chunk = None \/ Rec.fileContent chunk = None ->
  ObjectToSubunitStream.fields (without_file chunk)
  = ObjectToSubunitStream.fields chunk.
Proof.
  intros A. unfold ObjectToSubunitStream.fields.
  rewrite (initial_flags_ext (without_file chunk) chunk eq_refl eq_refl).
  rewrite (put_timestamp_ext (without_file chunk) chunk _ eq_refl).
  destruct (ObjectToSubunitStream.put_timestamp chunk _) as [st1|];
    [|reflexivity].
  cbn [bind].
  rewrite (put_testId_ext (without_file chunk) chunk _ eq_refl).
  destruct (ObjectToSubunitStream.put_testId chunk _) as [st2|];
    [|reflexivity].
  cbn [bind].
  rewrite (put_tags_ext (without_file chunk) chunk _ eq_refl).
  destruct (ObjectToSubunitStream.put_tags chunk _) as [st3|];
    [|reflexivity].
  cbn [bind].
  rewrite (put_mimeType_ext (without_file chunk) chunk _ eq_refl).
  destruct (ObjectToSubunitStream.put_mimeType chunk _) as [st4|];
    [|reflexivity].
  cbn [bind].
  rewrite (put_file_absent chunk _ A).
  rewrite (put_file_absent (without_file chunk) _ (or_introl eq_refl)).
  cbn [bind].
  apply (put_routeCode_ext (without_file chunk) chunk _ eq_refl).
Qed.

Lemma get_file_paired bl fl o name content o' :
  SubunitToObjectStream.get_file bl fl o = Ok (name, content, o') ->
  (name <> None <-> Flags.fileContent fl = true)
  /\ (content <> None <-> Flags.fileContent fl = true).
Proof.
  unfold SubunitToObjectStream.get_file. intros H.
  destruct (Flags.fileContent fl).
  - do 2 bind_inv H. apply Ok_inj in H.
    apply pair_inj in H. destruct H as [H _].
    apply pair_inj in H. destruct H as [<- <-].
    split; split; intros; congruence.
  - apply Ok_inj in H.
    apply pair_inj in H. destruct H as [H _].
    apply pair_inj in H. destruct H as [<- <-].
    split; split; intros; congruence.
Qed.

Lemma fields_file bl offset flags packetLength ret :
  SubunitToObjectStream.fields bl offset flags packetLength = Ok ret ->
  exists o o',
    SubunitToObjectStream.get_file
      bl (SubunitToObjectStream.packet_flags flags) o
    = Ok (Rec.fileName ret, Rec.fileContent ret, o')
    /\ Rec._packet ret
       = Some {| Packet.length := Read.value packetLength;
                 Packet.flags := SubunitToObjectStream.packet_flags flags |}.
Proof.
  unfold SubunitToObjectStream.fields. intros H.
  cbn [Packet.flags] in H.
  do 4 bind_pair H.
  bind_inv H. destruct a as [[name content] o'].
  bind_pair H.
  apply Ok_inj in H. subst ret. cbn [Rec.fileName Rec.fileContent Rec._packet].
  eauto.
Qed.



(** ** The decoder's reads throw nothing but [RangeError] *)

Lemma only_range_ok {A} (a : A) : only_range (Ok a).
Proof. intros e H. discriminate. Qed.

Lemma only_range_bind {A B} (m : result A) (k : A -> result B) :
  only_range m -> (forall a, only_range (k a)) -> only_range (bind m k).
Proof.
  intros Hm Hk e H. destruct m as [a|e']; cbn [bind] in H.
  - now apply (Hk a).
  - apply Hm. congruence.
Qed.

Lemma only_range_readUIntBE b i n : only_range (Buf.readUIntBE b i n).
Proof.
  intros e H. unfold Buf.readUIntBE in H.
  destruct (i + n <=? Buf.length b); congruence.
Qed.

Create HintDb decoder.

#[local] Hint Resolve only_range_ok only_range_readUIntBE : decoder.

Ltac only_range_tac :=
  repeat first
         [ solve [auto with decoder]
         | progress cbv beta zeta
         | match goal with
           | |- only_range (if ?c then _ else _) => destruct c
           | |- only_range (let '(_, _) := ?p in _) => destruct p
           end
         | apply only_range_bind; [| intros ?] ].

Lemma only_range_readVarInt b i : only_range (readVarInt b i).
Proof.
  unfold readVarInt, Buf.readUInt8. only_range_tac.
Qed.

#[local] Hint Resolve only_range_readVarInt : decoder.

Lemma only_range_readUtf8 b i : only_range (readUtf8 b i).
Proof. unfold readUtf8. only_range_tac. Qed.

#[local] Hint Resolve only_range_readUtf8 : decoder.

Lemma only_range_BL_readUInt8 b i : only_range (BL.readUInt8 b i).
Proof. unfold BL.readUInt8, Buf.readUInt8. only_range_tac. Qed.

Lemma only_range_BL_readUInt16BE b i : only_range (BL.readUInt16BE b i).
Proof. unfold BL.readUInt16BE, Buf.readUInt16BE. only_range_tac. Qed.

Lemma only_range_BL_readUInt32BE b i : only_range (BL.readUInt32BE b i).
Proof. unfold BL.readUInt32BE, Buf.readUInt32BE. only_range_tac. Qed.

#[local] Hint Resolve only_range_BL_readUInt8 only_range_BL_readUInt16BE
 only_range_BL_readUInt32BE : decoder.

Lemma only_range_read_tags n bl o tags : only_range (read_tags n bl o tags).
Proof.
  revert o tags. induction n as [|n IH]; intros o tags; cbn [read_tags].
  - apply only_range_ok.
  - apply only_range_bind; [auto with decoder | intros tag; apply IH].
Qed.

#[local] Hint Resolve only_range_read_tags : decoder.

Lemma only_range_header bl offset : only_range (header bl offset).
Proof. unfold header. only_range_tac. Qed.

Lemma only_range_fields bl offset flags packetLength :
  only_range (fields bl offset flags packetLength).
Proof.
  unfold fields, get_timestamp, get_testId, get_tags, get_mimeType, get_file,
    get_routeCode.
  only_range_tac.
Qed.

(** A pass throws [RangeError], or, when nobody listens, what [emit]
    throws for a wrong signature; then nothing was emitted or pushed. *)
Lemma iteration_throws {listening} bl offset evs e :
  iteration listening bl offset = (evs, Throw e) ->
  e = RangeError
  \/ (listening = false /\ evs = []
      /\ e = Unhandled ("Bad packet at offset " ++ Js.toString offset)).
Proof.
  unfold iteration. intros H.
  destruct (header bl offset) as [[[sig flags] pl]|e'] eqn:Eh.
  - unfold check_signature in H.
    destruct (sig =? signature); [|destruct listening].
    + destruct (fields bl offset flags pl) as [ret|e'] eqn:Ef.
      * apply pair_inj in H. destruct H as [_ H]. discriminate.
      * apply pair_inj in H. destruct H as [_ H].
        apply (only_range_fields _ _ _ _ _) in Ef. left. congruence.
    + destruct (fields bl offset flags pl) as [ret|e'] eqn:Ef.
      * apply pair_inj in H. destruct H as [_ H]. discriminate.
      * apply pair_inj in H. destruct H as [_ H].
        apply (only_range_fields _ _ _ _ _) in Ef. left. congruence.
    + apply pair_inj in H. destruct H as [<- H]. right.
      split; [reflexivity|]. split; [reflexivity|]. congruence.
  - apply pair_inj in H. destruct H as [_ H].
    apply only_range_header in Eh. left. congruence.
Qed.

Lemma iteration_heard_throws bl offset evs e :
  iteration true bl offset = (evs, Throw e) -> e = RangeError.
Proof.
  intros H. apply iteration_throws in H.
  destruct H as [H|[H _]]; [assumption | discriminate].
Qed.

(** With a listener no call rethrows. *)
Lemma loop_never_throws fuel bl offset o :
  loop true fuel bl offset = Some o -> thrown o = None.
Proof.
  revert offset o. induction fuel as [|fuel IH]; intros offset o H;
    cbn [loop] in H; destruct (offset <? BL.length bl).
  - discriminate.
  - injection H as <-. reflexivity.
  - destruct (iteration true bl offset) as [evs [offset'|e]] eqn:E.
    + destruct (loop true fuel bl offset') as [o'|] eqn:E'; [|discriminate].
      injection H as <-. cbn [thrown]. now apply (IH offset').
    + apply iteration_heard_throws in E. subst e. injection H as <-.
      reflexivity.
  - injection H as <-. reflexivity.
Qed.

(** More fuel does not change an outcome. *)
Lemma loop_fuel_mono {listening} fuel fuel' bl offset o :
  loop listening fuel bl offset = Some o -> (fuel <= fuel')%nat ->
  loop listening fuel' bl offset = Some o.
Proof.
  revert fuel' offset o.
  induction fuel as [|fuel IH]; intros fuel' offset o H Hle.
  - cbn [loop] in H. destruct (Z.ltb_spec offset (BL.length bl));
      [discriminate|].
    rewrite loop_done by assumption. rewrite <- H.
    destruct (offset <? BL.length bl); reflexivity || discriminate.
  - destruct fuel' as [|fuel']; [lia|].
    cbn [loop] in *. destruct (offset <? BL.length bl); [|assumption].
    destruct (iteration listening bl offset) as [evs [offset'|e]];
      [|assumption].
    destruct (loop listening fuel bl offset') as [o'|] eqn:E; [|discriminate].
    rewrite (IH fuel' offset' o' E) by lia. assumption.
Qed.

Lemma loop_one {listening} fuel bl offset evs offset' :
  (0 < fuel)%nat -> offset < BL.length bl ->
  iteration listening bl offset = (evs, Ok offset') ->
  BL.length bl <= offset' ->
  loop listening fuel bl offset = Some (done (make bl offset') evs None).
Proof.
  intros Hf Hlt E Hge. destruct fuel as [|fuel]; [lia|].
  rewrite loop_step, E, loop_done by assumption.
  cbn [stream events thrown]. now rewrite app_nil_r.
Qed.

Lemma loop_wait {listening} fuel bl offset evs :
  (0 < fuel)%nat -> offset < BL.length bl ->
  iteration listening bl offset = (evs, Throw RangeError) ->
  loop listening fuel bl offset = Some (done (make bl offset) evs None).
Proof.
  intros Hf Hlt E. destruct fuel as [|fuel]; [lia|].
  now rewrite loop_step, E.
Qed.

(** A read past the end of the buffer defers the packet: nothing is
    pushed and the offset stays. *)
Lemma range_error_defers {listening} fuel bl offset evs :
  (0 < fuel)%nat -> offset < BL.length bl ->
  iteration listening bl offset = (evs, Throw RangeError) ->
  loop listening fuel bl offset = Some (done (make bl offset) evs None)
  /\ forall ret, ~ In (push ret) evs.
Proof.
  intros Hf Hlt E. split; [now apply loop_wait|].
  intros ret Hin. unfold iteration in E.
  destruct (header bl offset) as [[[sig flags] pl]|e].
  - destruct (check_signature listening sig offset) as [errors|e] eqn:Ec.
    + apply check_signature_ok in Ec. destruct Ec as [_ ->].
      destruct (fields bl offset flags pl) as [r|e];
        apply pair_inj in E; destruct E as [<- E]; [discriminate|].
      destruct (sig =? signature); [contradiction|].
      destruct Hin as [Hin|[]]. discriminate.
    + apply pair_inj in E. destruct E as [<- _]. contradiction.
  - apply pair_inj in E. destruct E as [<- _]. contradiction.
Qed.

(** Why the loop needs fuel: a packet that declares length 0 is parsed
    again and again. *)
Lemma zero_length_packet_never_ends {listening} fuel :
  loop listening fuel [0xB3; 0x20; 0x00; 0x00] 0 = None.
Proof.
  induction fuel as [|fuel IH]; [reflexivity|].
  rewrite loop_step by (vm_compute; reflexivity).
  replace (iteration listening [0xB3; 0x20; 0x00; 0x00] 0)
    with ([push {| Rec.timestamp := None; Rec.testId := None;
                   Rec.tags := None; Rec.mimeType := None;
                   Rec.fileContent := None; Rec.fileName := None;
                   Rec.routeCode := None; Rec.status := Js.null;
                   Rec._packet :=
                     Some {| Packet.length := 0;
                             Packet.flags := packet_flags 0x2000 |} |}],
          @Ok Z 0)
    by (vm_compute; reflexivity).
  now rewrite IH.
Qed.

Lemma empty_packet_encoded :
  ObjectToSubunitStream._transform empty_record = Ok empty_packet.
Proof. vm_compute. reflexivity. Qed.

Lemma testId_packet_encoded :
  ObjectToSubunitStream._transform testId_record = Ok testId_packet.
Proof. vm_compute. reflexivity. Qed.

(** C2, at the failing input.  The packet of [{ testId: 'T1' }] has 11
    octets.  Written whole, it makes the decoder push the record with test
    id "T1"; written as its first 6 octets and then its last 5, it makes
    the decoder push a record with test id "T", at the first write, and
    nothing at the second. *)
Theorem split_inside_string_changes_record (listening : bool) (fuel : nat) :
  (0 < fuel)%nat ->
  ObjectToSubunitStream._transform testId_record = Ok testId_packet
  /\ write_all listening fuel new [testId_packet]
     = Some (done (make testId_packet 11)
                  [push (testId_decoded (Js.lit "T1") 11)] None)
  /\ write_all listening fuel new
               [firstn 6 testId_packet; skipn 6 testId_packet]
     = Some (done (make testId_packet 11)
                  [push (testId_decoded (Js.lit "T") 11)] None)
  /\ testId_decoded (Js.lit "T") 11 <> testId_decoded (Js.lit "T1") 11.
Proof.
  intros Hf. split; [exact testId_packet_encoded|]. split; [|split].
  - cbn [write_all]. unfold _transform. cbn [bl offset new BL.append app].
    rewrite (loop_one fuel testId_packet 0
                      [push (testId_decoded (Js.lit "T1") 11)] 11);
      [reflexivity | assumption | reflexivity | vm_compute; reflexivity
       | vm_compute; discriminate].
  - cbn [write_all]. unfold _transform at 1.
    cbn [bl offset new BL.append app].
    rewrite (loop_one fuel (firstn 6 testId_packet) 0
                      [push (testId_decoded (Js.lit "T") 11)] 11);
      [ | assumption | reflexivity | vm_compute; reflexivity
        | vm_compute; discriminate].
    unfold _transform. cbn [bl offset BL.append].
    rewrite loop_done by (vm_compute; discriminate).
    reflexivity.
  - discriminate.
Qed.

Lemma split_inside_string_changes_record_witness :
  ObjectToSubunitStream._transform testId_record = Ok testId_packet
  /\ write_all false 1 new [testId_packet]
     = Some (done (make testId_packet 11)
                  [push (testId_decoded (Js.lit "T1") 11)] None)
  /\ write_all false 1 new [firstn 6 testId_packet; skipn 6 testId_packet]
     = Some (done (make testId_packet 11)
                  [push (testId_decoded (Js.lit "T") 11)] None)
  /\ testId_decoded (Js.lit "T") 11 <> testId_decoded (Js.lit "T1") 11.
Proof. apply (split_inside_string_changes_record false 1). lia. Defined.

(** C3, at the failing input.  The first 6 octets of the packet of
    [{ testId: 'T1' }] declare a packet of 11 octets.  Given only these 6
    octets, the decoder pushes a record with test id "T" and moves its
    offset from 0 to 11; when the other 5 octets arrive it pushes
    nothing. *)
Theorem incomplete_packet_is_consumed (listening : bool) (fuel : nat) :
  (0 < fuel)%nat ->
  readVarInt (firstn 6 testId_packet) 3 = Ok (Read.make 1 11)
  /\ Buf.length (firstn 6 testId_packet) < 11
  /\ _transform listening fuel new (firstn 6 testId_packet)
     = Some (done (make (firstn 6 testId_packet) 11)
                  [push (testId_decoded (Js.lit "T") 11)] None)
  /\ _transform listening fuel (make (firstn 6 testId_packet) 11)
                (skipn 6 testId_packet)
     = Some (done (make testId_packet 11) [] None).
Proof.
  intros Hf. split; [reflexivity|]. split; [vm_compute; reflexivity|]. split.
  - unfold _transform. cbn [bl offset new BL.append app].
    apply loop_one;
      [assumption | reflexivity | vm_compute; reflexivity
       | vm_compute; discriminate].
  - unfold _transform. cbn [bl offset BL.append].
    rewrite loop_done by (vm_compute; discriminate). reflexivity.
Qed.

Lemma incomplete_packet_is_consumed_witness :
  readVarInt (firstn 6 testId_packet) 3 = Ok (Read.make 1 11)
  /\ Buf.length (firstn 6 testId_packet) < 11
  /\ _transform false 1 new (firstn 6 testId_packet)
     = Some (done (make (firstn 6 testId_packet) 11)
                  [push (testId_decoded (Js.lit "T") 11)] None)
  /\ _transform false 1 (make (firstn 6 testId_packet) 11)
                (skipn 6 testId_packet)
     = Some (done (make testId_packet 11) [] None).
Proof. apply (incomplete_packet_is_consumed false 1). lia. Defined.

(** C4, the claim as stated.  The packet of the empty record has 8 octets,
    5 of them from the length field on; its length field holds 8, not 5,
    and the decoder that parses it at offset 0 ends at offset 8, the
    declared value with no 3 added. *)
Lemma length_field_counts_the_header :
  ObjectToSubunitStream._transform empty_record = Ok empty_packet
  /\ readVarInt empty_packet 3 = Ok (Read.make 1 8)
  /\ Buf.length empty_packet - 3 = 5
  /\ snd (iteration false empty_packet 0) = Ok 8
  /\ 8 <> 5 /\ 8 <> 8 + 3.
Proof.
  split; [exact empty_packet_encoded|].
  repeat split; try reflexivity; lia.
Qed.

(** C7, the claim as stated.  The decoder given the packet of the empty
    record pushes its record.  Given the octet 0 followed by that packet,
    a decoder with an ['error'] listener reports the framing error and
    pushes no record, its offset still 0; a decoder without one pushes
    nothing either, and the call ends with the exception of [emit]. *)
Lemma stray_byte_hides_the_packet :
  ObjectToSubunitStream._transform empty_record = Ok empty_packet
  /\ _transform true 1 new empty_packet
     = Some (done (make empty_packet 8) [push empty_decoded] None)
  /\ _transform true 1 new (0 :: empty_packet)
     = Some (done (make (0 :: empty_packet) 0)
                  [emit_error "Bad packet at offset 0"] None)
  /\ _transform false 1 new (0 :: empty_packet)
     = Some (done (make (0 :: empty_packet) 0) []
                  (Some (Unhandled "Bad packet at offset 0"))).
Proof.
  split; [exact empty_packet_encoded|]. repeat split; vm_compute; reflexivity.
Qed.

(** Every record a [_transform] call pushes comes out of [fields], for the
    flag word and length that [header] read at some offset. *)
Lemma iteration_pushes {listening} bl offset evs res ret :
  iteration listening bl offset = (evs, res) -> In (push ret) evs ->
  exists sig flags packetLength,
    header bl offset = Ok (sig, flags, packetLength)
    /\ fields bl offset flags packetLength = Ok ret.
Proof.
  unfold iteration. intros H Hin.
  destruct (header bl offset) as [[[sig flags] pl]|e] eqn:Eh.
  - destruct (check_signature listening sig offset) as [errors|e] eqn:Ec.
    + apply check_signature_ok in Ec. destruct Ec as [_ ->].
      destruct (fields bl offset flags pl) as [r|e] eqn:Ef;
        apply pair_inj in H; destruct H as [<- _].
      * apply in_app_or in Hin. destruct Hin as [Hin|Hin].
        -- destruct (sig =? signature); [contradiction|].
           destruct Hin as [Hin|[]]. discriminate.
        -- destruct Hin as [Hin|[]]. injection Hin as ->. eauto.
      * destruct (sig =? signature); [contradiction|].
        destruct Hin as [Hin|[]]. discriminate.
    + apply pair_inj in H. destruct H as [<- _]. contradiction.
  - apply pair_inj in H. destruct H as [<- _]. contradiction.
Qed.

Lemma loop_pushes {listening} fuel bl offset o ret :
  loop listening fuel bl offset = Some o -> In (push ret) (events o) ->
  exists offset' sig flags packetLength,
    header bl offset' = Ok (sig, flags, packetLength)
    /\ fields bl offset' flags packetLength = Ok ret.
Proof.
  revert offset o. induction fuel as [|fuel IH]; intros offset o H Hin;
    cbn [loop] in H; destruct (offset <? BL.length bl).
  - discriminate.
  - injection H as <-. contradiction.
  - destruct (iteration listening bl offset) as [evs res] eqn:E.
    destruct res as [offset'|e].
    + destruct (loop listening fuel bl offset') as [o'|] eqn:E';
        [|discriminate].
      injection H as <-. cbn [events] in Hin.
      apply in_app_or in Hin. destruct Hin as [Hin|Hin].
      * destruct (iteration_pushes _ _ _ _ _ E Hin) as (s & f & pl & H1 & H2).
        eauto 6.
      * apply (IH _ _ E' Hin).
    + assert (Hin' : In (push ret) evs).
      { destruct e; injection H as <-; exact Hin. }
      destruct (iteration_pushes _ _ _ _ _ E Hin') as (s & f & pl & H1 & H2).
      eauto 6.
  - injection H as <-. contradiction.
Qed.

(** ** Lengths read from a buffer of octets *)

Lemma Forall_take {A} (P : A -> Prop) n (l : list A) :
  Forall P l -> Forall P (firstn n l).
Proof.
  intros H. revert n. induction H as [|x l Hx Hl IH]; intros [|n];
    cbn [firstn]; constructor; auto.
Qed.

Lemma Forall_drop {A} (P : A -> Prop) n (l : list A) :
  Forall P l -> Forall P (skipn n l).
Proof.
  intros H. revert n. induction H as [|x l Hx Hl IH]; intros [|n];
    cbn [skipn]; try constructor; auto.
Qed.

Lemma Forall_slice (b : Buffer) s e :
  Forall octet b -> Forall octet (Buf.slice b s e).
Proof.
  intros H. unfold Buf.slice. now apply Forall_take, Forall_drop.
Qed.

Lemma be_value_bound_aux (l : list Z) acc :
  Forall octet l -> 0 <= acc ->
  0 <= fold_left (fun a x => a * 256 + x) l acc
  < (acc + 1) * 256 ^ Z.of_nat (List.length l).
Proof.
  intros H. revert acc. induction H as [|x l Hx Hl IH]; intros acc Hacc.
  - cbn. lia.
  - cbn [fold_left List.length]. unfold octet in Hx.
    specialize (IH (acc * 256 + x) ltac:(lia)).
    rewrite Nat2Z.inj_succ, Z.pow_succ_r by lia.
    assert (0 < 256 ^ Z.of_nat (List.length l)) by (apply Z.pow_pos_nonneg; lia).
    nia.
Qed.

Lemma be_value_bound (l : list Z) :
  Forall octet l -> 0 <= Buf.be_value l < 256 ^ Z.of_nat (List.length l).
Proof.
  intros H. pose proof (be_value_bound_aux l 0 H ltac:(lia)) as B.
  unfold Buf.be_value. lia.
Qed.

Lemma slice_length_le (b : Buffer) s e :
  0 <= e - s -> Buf.length (Buf.slice b s e) <= e - s.
Proof.
  intros H. unfold Buf.length, Buf.slice.
  rewrite length_firstn. lia.
Qed.

Lemma readUIntBE_bound (b : Buffer) i n v :
  Forall octet b -> 0 <= n ->
  Buf.readUIntBE b i n = Ok v -> 0 <= v < 256 ^ n.
Proof.
  intros H Hn E. unfold Buf.readUIntBE in E.
  destruct (i + n <=? Buf.length b); [|discriminate].
  apply Ok_inj in E. subst v.
  pose proof (be_value_bound _ (Forall_slice b i (i + n) H)) as B.
  pose proof (slice_length_le b i (i + n) ltac:(lia)) as L.
  unfold Buf.length in L.
  assert (256 ^ Z.of_nat (List.length (Buf.slice b i (i + n))) <= 256 ^ n).
  { apply Z.pow_le_mono_r; lia. }
  lia.
Qed.

Lemma Js_and_63 first : 0 <= Js.and first 0x3F < 64.
Proof.
  unfold Js.and. change (Js.ToInt32 0x3F) with (Z.ones 6).
  rewrite Z.land_ones by lia. apply Z.mod_pos_bound. lia.
Qed.

Lemma readVarInt_value_nonneg (b : Buffer) i r :
  Forall octet b -> readVarInt b i = Ok r -> 0 <= Read.value r.
Proof.
  intros H E. unfold readVarInt in E.
  set (buf := Buf.slice b i (i + 4)) in *.
  assert (Hb : Forall octet buf) by now apply Forall_slice.
  bind_inv E. rename a into first.
  pose proof (Js_and_63 first) as V.
  destruct (Js.and first 0xC0 =? 0x00).
  { apply Ok_inj in E. subst r. cbn [Read.value]. lia. }
  destruct (Js.and first 0xC0 =? 0x40).
  { bind_inv E. apply Ok_inj in E. subst r. cbn [Read.value].
    apply readUIntBE_bound in E1; [|assumption|lia].
    rewrite (Js_shl_small _ 8) by lia.
    rewrite Js_or_small by lia. apply Z.lor_nonneg. lia. }
  destruct (Js.and first 0xC0 =? 0x80).
  { bind_inv E. apply Ok_inj in E. subst r. cbn [Read.value].
    apply readUIntBE_bound in E1; [|assumption|lia].
    rewrite (Js_shl_small _ 16) by lia.
    rewrite Js_or_small by lia. apply Z.lor_nonneg. lia. }
  bind_inv E. apply Ok_inj in E. subst r. cbn [Read.value].
  apply readUIntBE_bound in E1; [|assumption|lia].
  rewrite (Js_shl_small _ 24) by lia.
  rewrite Js_or_small by lia. apply Z.lor_nonneg. lia.
Qed.

Lemma readUtf8_length (b : Buffer) i r :
  Forall octet b -> readUtf8 b i = Ok r -> 1 <= Read.length r.
Proof.
  intros H E. unfold readUtf8 in E. bind_inv E. apply Ok_inj in E. subst r.
  cbn [Read.length].
  pose proof (readVarInt_length _ _ _ E0).
  pose proof (readVarInt_value_nonneg _ _ _ H E0). lia.
Qed.

(** ** Two buffers that hold the same octets from [p] on *)

Section Agree.

Variables (bl1 bl2 l : Buffer) (p : Z).
Hypothesis S1 : suffix_at bl1 p l.
Hypothesis S2 : suffix_at bl2 p l.
Hypothesis Oct : Forall octet bl1.

Lemma readVarInt_agree o : p <= o -> readVarInt bl1 o = readVarInt bl2 o.
Proof.
  intros H. replace o with (p + (o - p)) by lia.
  rewrite (readVarInt_suffix _ _ _ _ S1), (readVarInt_suffix _ _ _ _ S2)
    by lia.
  reflexivity.
Qed.

Lemma readUtf8_agree o : p <= o -> readUtf8 bl1 o = readUtf8 bl2 o.
Proof.
  intros H. replace o with (p + (o - p)) by lia.
  rewrite (readUtf8_suffix _ _ _ _ S1), (readUtf8_suffix _ _ _ _ S2) by lia.
  reflexivity.
Qed.

Lemma readUInt16BE_agree o :
  p <= o -> BL.readUInt16BE bl1 o = BL.readUInt16BE bl2 o.
Proof.
  intros H. replace o with (p + (o - p)) by lia.
  rewrite (BL_readUInt16BE_suffix _ _ _ _ S1),
    (BL_readUInt16BE_suffix _ _ _ _ S2) by lia.
  reflexivity.
Qed.

Lemma readUInt32BE_agree o :
  p <= o -> BL.readUInt32BE bl1 o = BL.readUInt32BE bl2 o.
Proof.
  intros H. replace o with (p + (o - p)) by lia.
  rewrite (BL_readUInt32BE_suffix _ _ _ _ S1),
    (BL_readUInt32BE_suffix _ _ _ _ S2) by lia.
  reflexivity.
Qed.

Lemma slice_agree o e : p <= o -> BL.slice bl1 o e = BL.slice bl2 o e.
Proof.
  intros H. replace o with (p + (o - p)) by lia.
  replace e with (p + (e - p)) by lia.
  rewrite (BL_slice_suffix _ _ _ _ _ S1), (BL_slice_suffix _ _ _ _ _ S2)
    by lia.
  reflexivity.
Qed.

Lemma get_timestamp_agree fl o :
  p <= o -> get_timestamp bl1 fl o = get_timestamp bl2 fl o.
Proof.
  intros H. unfold get_timestamp.
  rewrite readUInt32BE_agree, (readVarInt_agree (o + 4)) by lia.
  reflexivity.
Qed.

Lemma get_timestamp_mono fl o v o' :
  get_timestamp bl1 fl o = Ok (v, o') -> o <= o'.
Proof.
  unfold get_timestamp. intros H. destruct (Flags.timestamp fl).
  - do 2 bind_inv H. apply Ok_inj in H. apply pair_inj in H.
    destruct H as [_ <-]. apply readVarInt_length in E0. lia.
  - apply Ok_inj in H. apply pair_inj in H. destruct H as [_ <-]. lia.
Qed.

Lemma get_testId_agree fl o :
  p <= o -> get_testId bl1 fl o = get_testId bl2 fl o.
Proof. intros H. unfold get_testId. now rewrite readUtf8_agree. Qed.

Lemma get_testId_mono fl o v o' :
  get_testId bl1 fl o = Ok (v, o') -> o <= o'.
Proof.
  unfold get_testId. intros H. destruct (Flags.testId fl).
  - bind_inv H. apply Ok_inj in H. apply pair_inj in H.
    destruct H as [_ <-]. apply (readUtf8_length _ _ _ Oct) in E. lia.
  - apply Ok_inj in H. apply pair_inj in H. destruct H as [_ <-]. lia.
Qed.

Lemma read_tags_agree n o tags :
  p <= o -> read_tags n bl1 o tags = read_tags n bl2 o tags.
Proof.
  revert o tags. induction n as [|n IH]; intros o tags H; cbn [read_tags];
    [reflexivity|].
  rewrite <- readUtf8_agree by assumption.
  destruct (readUtf8 bl1 o) as [tag|e] eqn:E; [|reflexivity].
  cbn [bind]. apply IH. apply (readUtf8_length _ _ _ Oct) in E. lia.
Qed.

Lemma read_tags_mono n o tags tags' o' :
  read_tags n bl1 o tags = Ok (tags', o') -> o <= o'.
Proof.
  revert o tags. induction n as [|n IH]; intros o tags H; cbn [read_tags] in H.
  - apply Ok_inj in H. apply pair_inj in H. destruct H as [_ <-]. lia.
  - bind_inv H. apply IH in H. apply (readUtf8_length _ _ _ Oct) in E. lia.
Qed.

Lemma get_tags_agree fl o :
  p <= o -> get_tags bl1 fl o = get_tags bl2 fl o.
Proof.
  intros H. unfold get_tags. rewrite <- readVarInt_agree by assumption.
  destruct (Flags.tags fl); [|reflexivity].
  destruct (readVarInt bl1 o) as [count|e] eqn:E; [|reflexivity].
  cbn [bind]. rewrite read_tags_agree; [reflexivity|].
  apply readVarInt_length in E. lia.
Qed.

Lemma get_tags_mono fl o v o' :
  get_tags bl1 fl o = Ok (v, o') -> o <= o'.
Proof.
  unfold get_tags. intros H. destruct (Flags.tags fl).
  - bind_inv H. bind_pair H. apply Ok_inj in H. apply pair_inj in H.
    destruct H as [_ <-]. apply readVarInt_length in E.
    apply read_tags_mono in E0. lia.
  - apply Ok_inj in H. apply pair_inj in H. destruct H as [_ <-]. lia.
Qed.

Lemma get_mimeType_agree fl o :
  p <= o -> get_mimeType bl1 fl o = get_mimeType bl2 fl o.
Proof. intros H. unfold get_mimeType. now rewrite readUtf8_agree. Qed.

Lemma get_mimeType_mono fl o v o' :
  get_mimeType bl1 fl o = Ok (v, o') -> o <= o'.
Proof.
  unfold get_mimeType. intros H. destruct (Flags.mimeType fl).
  - bind_inv H. apply Ok_inj in H. apply pair_inj in H.
    destruct H as [_ <-]. apply (readUtf8_length _ _ _ Oct) in E. lia.
  - apply Ok_inj in H. apply pair_inj in H. destruct H as [_ <-]. lia.
Qed.

Lemma get_file_agree fl o :
  p <= o -> get_file bl1 fl o = get_file bl2 fl o.
Proof.
  intros H. unfold get_file. rewrite <- readUtf8_agree by assumption.
  destruct (Flags.fileContent fl); [|reflexivity].
  destruct (readUtf8 bl1 o) as [name|e] eqn:E; [|reflexivity].
  cbn [bind]. apply (readUtf8_length _ _ _ Oct) in E.
  rewrite <- readVarInt_agree by lia.
  destruct (readVarInt bl1 (o + Read.length name)) as [fileLength|e] eqn:E';
    [|reflexivity].
  cbn [bind]. apply readVarInt_length in E'.
  rewrite slice_agree by lia. reflexivity.
Qed.

Lemma get_file_mono fl o v w o' :
  get_file bl1 fl o = Ok (v, w, o') -> o <= o'.
Proof.
  unfold get_file. intros H. destruct (Flags.fileContent fl).
  - do 2 bind_inv H. apply Ok_inj in H. apply pair_inj in H.
    destruct H as [_ <-]. apply (readUtf8_length _ _ _ Oct) in E.
    pose proof (readVarInt_length _ _ _ E0).
    apply (readVarInt_value_nonneg _ _ _ Oct) in E0. lia.
  - apply Ok_inj in H. apply pair_inj in H. destruct H as [_ <-]. lia.
Qed.

Lemma get_routeCode_agree fl o :
  p <= o -> get_routeCode bl1 fl o = get_routeCode bl2 fl o.
Proof. intros H. unfold get_routeCode. now rewrite readUtf8_agree. Qed.

Lemma fields_agree offset flags packetLength :
  p <= offset + 3 + Read.length packetLength ->
  fields bl1 offset flags packetLength = fields bl2 offset flags packetLength.
Proof.
  intros H. unfold fields. cbn [Packet.flags].
  rewrite <- get_timestamp_agree by assumption.
  destruct (get_timestamp bl1 _ _) as [[timestamp o1]|e] eqn:E1;
    [|reflexivity].
  cbn [bind]. apply get_timestamp_mono in E1.
  rewrite <- get_testId_agree by lia.
  destruct (get_testId bl1 _ o1) as [[testId o2]|e] eqn:E2; [|reflexivity].
  cbn [bind]. apply get_testId_mono in E2.
  rewrite <- get_tags_agree by lia.
  destruct (get_tags bl1 _ o2) as [[tags o3]|e] eqn:E3; [|reflexivity].
  cbn [bind]. apply get_tags_mono in E3.
  rewrite <- get_mimeType_agree by lia.
  destruct (get_mimeType bl1 _ o3) as [[mimeType o4]|e] eqn:E4;
    [|reflexivity].
  cbn [bind]. apply get_mimeType_mono in E4.
  rewrite <- get_file_agree by lia.
  destruct (get_file bl1 _ o4) as [[[fileName fileContent] o5]|e] eqn:E5;
    [|reflexivity].
  cbn [bind]. apply get_file_mono in E5.
  rewrite <- get_routeCode_agree by lia.
  reflexivity.
Qed.

End Agree.

(** C7, amended.  When the octet at the offset is not the signature and
    the header behind it can be read, what the decoder does depends on
    whether the stream has an ['error'] listener.  With one, it reports
    the framing error and then does exactly what it does when that octet
    is the signature: it parses the octets at the same offset as a packet,
    the stray octet in the signature's place; and no [_transform] call
    rethrows, so the stream is never aborted.  With none, [emit] throws,
    the [catch] rethrows, and the call ends with that exception: nothing
    is emitted, no record of that packet is pushed and the offset stays. *)
Theorem framing_error_is_reported
        (pre rest : Buffer) (x sig flags : Z) (packetLength : Read.t Z)
        (fuel : nat) (this : t) (chunk : Buffer) (o : outcome) :
  (Forall octet (pre ++ x :: rest) -> x <> signature ->
   header (pre ++ x :: rest) (Buf.length pre) = Ok (sig, flags, packetLength) ->
   iteration true (pre ++ x :: rest) (Buf.length pre)
   = (emit_error ("Bad packet at offset " ++ Js.toString (Buf.length pre))
        :: fst (iteration true (pre ++ signature :: rest) (Buf.length pre)),
      snd (iteration true (pre ++ signature :: rest) (Buf.length pre)))
   /\ loop false (S fuel) (pre ++ x :: rest) (Buf.length pre)
      = Some (done (make (pre ++ x :: rest) (Buf.length pre)) []
                   (Some (Unhandled ("Bad packet at offset "
                                       ++ Js.toString (Buf.length pre))))))
  /\ (_transform true fuel this chunk = Some o -> thrown o = None).
Proof.
  split; [|apply loop_never_throws].
  intros Oct Hx Hh.
  pose proof (length_nonneg pre) as Hp.
  assert (S1 : suffix_at (pre ++ x :: rest) (Buf.length pre + 1) rest).
  { apply (suffix_app _ _ [x] _ _ (suffix_prefix pre (x :: rest))).
    reflexivity. }
  assert (S2 : suffix_at (pre ++ signature :: rest) (Buf.length pre + 1) rest).
  { apply (suffix_app _ _ [signature] _ _
                      (suffix_prefix pre (signature :: rest))).
    reflexivity. }
  destruct (header_ok _ _ _ _ _ Hh) as (H8 & H16 & Hv).
  rewrite (BL_readUInt8_here _ _ _ (suffix_prefix pre (x :: rest))),
    BL_readUInt8_cons in H8.
  apply Ok_inj in H8. subst sig.
  assert (Hh2 : header (pre ++ signature :: rest) (Buf.length pre)
                = Ok (signature, flags, packetLength)).
  { unfold header.
    rewrite (BL_readUInt8_here _ _ _ (suffix_prefix pre (signature :: rest))),
      BL_readUInt8_cons.
    cbn [bind].
    rewrite <- (readUInt16BE_agree _ _ _ _ S1 S2) by lia. rewrite H16.
    cbn [bind].
    rewrite <- (readVarInt_agree _ _ _ _ S1 S2) by lia. rewrite Hv.
    reflexivity. }
  split.
  - unfold iteration. rewrite Hh, Hh2.
    apply readVarInt_length in Hv.
    rewrite <- (fields_agree _ _ _ _ S1 S2 Oct) by lia.
    rewrite check_signature_heard, check_signature_same.
    destruct (Z.eqb_spec x signature) as [|_]; [contradiction|].
    destruct (fields (pre ++ x :: rest) (Buf.length pre) flags packetLength);
      reflexivity.
  - rewrite loop_step
      by (unfold BL.length; rewrite length_app, length_cons;
          pose proof (length_nonneg rest); lia).
    unfold iteration. rewrite Hh, check_signature_unheard by assumption.
    reflexivity.
Qed.

Lemma framing_error_is_reported_witness :
  (iteration true ([] ++ 0 :: empty_packet) (Buf.length [])
   = (emit_error ("Bad packet at offset " ++ Js.toString (Buf.length []))
        :: fst (iteration true ([] ++ signature :: empty_packet)
                          (Buf.length [])),
      snd (iteration true ([] ++ signature :: empty_packet) (Buf.length [])))
   /\ loop false 2 ([] ++ 0 :: empty_packet) (Buf.length [])
      = Some (done (make ([] ++ 0 :: empty_packet) (Buf.length [])) []
                   (Some (Unhandled ("Bad packet at offset "
                                       ++ Js.toString (Buf.length []))))))
  /\ thrown (done (make (0 :: empty_packet) 0)
                  [emit_error "Bad packet at offset 0"] None) = None.
Proof.
  destruct (framing_error_is_reported
              [] empty_packet 0 0 0xB320 (Read.make 1 0)
              1 new (0 :: empty_packet)
              (done (make (0 :: empty_packet) 0)
                    [emit_error "Bad packet at offset 0"] None))
    as [H1 H2].
  split.
  - apply H1.
    + repeat constructor; unfold octet; lia.
    + discriminate.
    + reflexivity.
  - apply H2. vm_compute. reflexivity.
Defined.

(** ** Status codes and the file pair *)

Lemma fields_status bl offset flags packetLength ret :
  fields bl offset flags packetLength = Ok ret ->
  Rec.status ret = statusFlags_get (Js.and flags 0x0007).
Proof.
  unfold fields. intros H. do 6 bind_pair H.
  apply Ok_inj in H. subst ret. reflexivity.
Qed.

(** C8.  The flag word of every packet the encoder returns has, in its low
    three bits, the table code of the record's status: 6 for "fail", [k]
    for the status the table gives for [k], and 0, which the table decodes
    as [null], for a status the table does not hold, [undefined] among
    them.  And every record the decoder pushes in one pass has the status
    the table gives for the low three bits of the flag word read at
    [offset + 1]: "fail" when they are 6, [null] when they are 0. *)
Theorem status_codes (listening : bool) (chunk : Rec.t) (pkt : Buffer)
        (bl : BufferList) (offset : Z) (evs : list Event) (offset' : Z) :
  (ObjectToSubunitStream._transform chunk = Ok pkt ->
   exists word,
     BL.readUInt16BE pkt 1 = Ok word
     /\ (Rec.status chunk = Js.str (Js.lit "fail") -> Js.and word 0x0007 = 6)
     /\ (forall k v, In (k, v) statusFlags -> Rec.status chunk = v ->
                     Js.and word 0x0007 = k)
     /\ ((forall k, ~ In (k, Rec.status chunk) statusFlags) ->
         Js.and word 0x0007 = 0
         /\ statusFlags_get (Js.and word 0x0007) = Js.null))
  /\ (iteration listening bl offset = (evs, Ok offset') ->
      exists flags ret,
        BL.readUInt16BE bl (offset + 1) = Ok flags
        /\ In (push ret) evs
        /\ (forall r, In (push r) evs -> r = ret)
        /\ Rec.status ret = statusFlags_get (Js.and flags 0x0007)
        /\ (Js.and flags 0x0007 = 6 -> Rec.status ret = Js.str (Js.lit "fail"))
        /\ (Js.and flags 0x0007 = 0 -> Rec.status ret = Js.null)).
Proof.
  split.
  - intros H. apply transform_flag_word in H.
    destruct H as (word & body & Hf & R & Hw).
    exists word. split; [assumption|].
    apply fields_flags in Hf. destruct Hf as (_ & C & _).
    rewrite Js_and_small by lia. rewrite C.
    split; [|split].
    + intros ->. reflexivity.
    + intros k v Hin <-. now apply status_code_found.
    + intros Hn. rewrite (status_code_unknown _ Hn). split; reflexivity.
  - intros H. apply iteration_ok in H.
    destruct H as (sig & flags & pl & ret & Hh & Hf & _ & ->).
    apply header_ok in Hh. destruct Hh as (_ & H16 & _).
    apply fields_status in Hf.
    exists flags, ret. split; [assumption|]. split; [|split].
    + apply in_or_app. right. left. reflexivity.
    + intros r Hr. apply in_app_or in Hr. destruct Hr as [Hr|Hr].
      * destruct (sig =? signature); [contradiction|].
        destruct Hr as [Hr|[]]. discriminate.
      * destruct Hr as [Hr|[]]. congruence.
    + rewrite Hf. split; [reflexivity|]. split; intros ->; reflexivity.
Qed.

Lemma status_codes_witness :
  (exists word,
      BL.readUInt16BE fail_packet 1 = Ok word
      /\ (Rec.status fail_record = Js.str (Js.lit "fail") ->
          Js.and word 0x0007 = 6)
      /\ (forall k v, In (k, v) statusFlags -> Rec.status fail_record = v ->
                      Js.and word 0x0007 = k)
      /\ ((forall k, ~ In (k, Rec.status fail_record) statusFlags) ->
          Js.and word 0x0007 = 0
          /\ statusFlags_get (Js.and word 0x0007) = Js.null))
  /\ (exists flags ret,
         BL.readUInt16BE fail_packet (0 + 1) = Ok flags
         /\ In (push ret) (fst (iteration false fail_packet 0))
         /\ (forall r, In (push r) (fst (iteration false fail_packet 0)) ->
                       r = ret)
         /\ Rec.status ret = statusFlags_get (Js.and flags 0x0007)
         /\ (Js.and flags 0x0007 = 6 ->
             Rec.status ret = Js.str (Js.lit "fail"))
         /\ (Js.and flags 0x0007 = 0 -> Rec.status ret = Js.null)).
Proof.
  destruct (status_codes false fail_record fail_packet fail_packet 0
                         (fst (iteration false fail_packet 0)) 8) as [H1 H2].
  split; [apply H1 | apply H2]; vm_compute; reflexivity.
Defined.

(** C9.  A record that lacks [fileName] or [fileContent] is encoded with
    the [fileContent] bit of the flag word clear, into the very packet of
    the record with both properties removed, so no file field is written.
    And every record any [_transform] call of the decoder pushes has
    [fileName] exactly when it has [fileContent], which is exactly when
    the [fileContent] flag of its [_packet] is true. *)
Theorem file_pairing (listening : bool) (chunk : Rec.t) (pkt : Buffer)
        (fuel : nat) (this : t) (data : Buffer) (o : outcome) (ret : Rec.t) :
  (Rec.fileName chunk = None \/ Rec.fileContent chunk = None ->
   ObjectToSubunitStream._transform chunk = Ok pkt ->
   (exists word,
       BL.readUInt16BE pkt 1 = Ok word
       /\ Js.and word flagMasks.fileContent = 0)
   /\ ObjectToSubunitStream._transform (without_file chunk) = Ok pkt)
  /\ (_transform listening fuel this data = Some o ->
      In (push ret) (events o) ->
      (Rec.fileName ret <> None <-> Rec.fileContent ret <> None)
      /\ exists packet,
          Rec._packet ret = Some packet
          /\ (Rec.fileContent ret <> None
              <-> Flags.fileContent (Packet.flags packet) = true)).
Proof.
  split.
  - intros A H. split.
    + apply transform_flag_word in H.
      destruct H as (word & body & Hf & R & Hw).
      exists word. split; [assumption|].
      apply fields_flags in Hf. destruct Hf as (_ & _ & D).
      rewrite Js_and_small by mask_range.
      now apply D.
    + unfold ObjectToSubunitStream._transform in *.
      now rewrite fields_without_file.
  - unfold _transform. intros H Hin.
    destruct (loop_pushes _ _ _ _ _ H Hin) as (off & sig & flags & pl & _ & Hf).
    apply fields_file in Hf. destruct Hf as (o1 & o2 & Hg & Hp).
    apply get_file_paired in Hg. destruct Hg as [H1 H2].
    split; [now rewrite H1, H2|].
    eexists. split; [exact Hp|]. exact H2.
Qed.

Lemma file_pairing_witness :
  ((exists word,
       BL.readUInt16BE empty_packet 1 = Ok word
       /\ Js.and word flagMasks.fileContent = 0)
   /\ ObjectToSubunitStream._transform (without_file name_only)
      = Ok empty_packet)
  /\ ((Rec.fileName empty_decoded <> None
       <-> Rec.fileContent empty_decoded <> None)
      /\ exists packet,
          Rec._packet empty_decoded = Some packet
          /\ (Rec.fileContent empty_decoded <> None
              <-> Flags.fileContent (Packet.flags packet) = true)).
Proof.
  destruct (file_pairing false name_only empty_packet 1 new empty_packet
                         (done (make empty_packet 8) [push empty_decoded] None)
                         empty_decoded) as [H1 H2].
  split.
  - apply H1; [right; reflexivity | vm_compute; reflexivity].
  - apply H2; [vm_compute; reflexivity | left; reflexivity].
Defined.

(** * Further properties of the codec

    What the encoder and the decoder do beyond the statements above: the
    round trip for every record, streams of packets, the layout and size
    of a packet, the exceptions of the encoder, and what the decoder does
    with short, endless and unread input. *)

(** ** The flag word of a record *)

Lemma initial_flags_word chunk :
  ObjectToSubunitStream.initial_flags chunk
  = flag_word_of (status_code (Rec.status chunk))
                 (packet_flag Flags.runnable chunk)
                 (packet_flag Flags.eof chunk)
                 false false false false false false.
Proof.
  unfold ObjectToSubunitStream.initial_flags, flag_word_of, packet_flag,
    status_code.
  assert (E : forall o, ObjectToSubunitStream.or_key 0x2000 o
                        = Js.or 0x2000
                                (match o with Some k => k | None => 0 end)).
  { intros [k|]; reflexivity. }
  rewrite E. destruct (Rec._packet chunk) as [p|]; reflexivity.
Qed.

Ltac put_flag H :=
  match type of H with
  | ?put ?chunk _ = _ => unfold put in H
  end;
  match type of H with
  | match ?x with _ => _ end = _ => destruct x
  end;
  valid_date H;
  repeat bind_inv H; apply Ok_inj in H; apply pair_inj in H;
  destruct H as [<- _]; reflexivity.

Lemma put_timestamp_flag chunk f b f' b' :
  ObjectToSubunitStream.put_timestamp chunk (f, b) = Ok (f', b') ->
  f' = if is_some (Rec.timestamp chunk)
       then Js.or f flagMasks.timestamp else f.
Proof. intros H. put_flag H. Qed.

Lemma put_testId_flag chunk f b f' b' :
  ObjectToSubunitStream.put_testId chunk (f, b) = Ok (f', b') ->
  f' = if is_some (Rec.testId chunk) then Js.or f flagMasks.testId else f.
Proof. intros H. put_flag H. Qed.

Lemma put_tags_flag chunk f b f' b' :
  ObjectToSubunitStream.put_tags chunk (f, b) = Ok (f', b') ->
  f' = if is_some (Rec.tags chunk) then Js.or f flagMasks.tags else f.
Proof. intros H. put_flag H. Qed.

Lemma put_mimeType_flag chunk f b f' b' :
  ObjectToSubunitStream.put_mimeType chunk (f, b) = Ok (f', b') ->
  f' = if is_some (Rec.mimeType chunk) then Js.or f flagMasks.mimeType else f.
Proof. intros H. put_flag H. Qed.

Lemma put_routeCode_flag chunk f b f' b' :
  ObjectToSubunitStream.put_routeCode chunk (f, b) = Ok (f', b') ->
  f' = if is_some (Rec.routeCode chunk)
       then Js.or f flagMasks.routeCode else f.
Proof. intros H. put_flag H. Qed.

Lemma put_file_flag chunk f b f' b' :
  ObjectToSubunitStream.put_file chunk (f, b) = Ok (f', b') ->
  f' = if has_file chunk then Js.or f flagMasks.fileContent else f.
Proof.
  intros H. unfold ObjectToSubunitStream.put_file, has_file in *.
  destruct (Rec.fileName chunk); [destruct (Rec.fileContent chunk)|];
    repeat bind_inv H; apply Ok_inj in H; apply pair_inj in H;
    destruct H as [<- _]; reflexivity.
Qed.

Lemma fields_flag_word chunk flags body :
  ObjectToSubunitStream.fields chunk = Ok (flags, body) ->
  flags = flag_word chunk.
Proof.
  unfold ObjectToSubunitStream.fields. intros H.
  rewrite initial_flags_word in H.
  bind_inv H. destruct a as [f1 b1]. apply put_timestamp_flag in E.
  bind_inv H. destruct a as [f2 b2]. apply put_testId_flag in E0.
  bind_inv H. destruct a as [f3 b3]. apply put_tags_flag in E1.
  bind_inv H. destruct a as [f4 b4]. apply put_mimeType_flag in E2.
  bind_inv H. destruct a as [f5 b5]. apply put_file_flag in E3.
  apply put_routeCode_flag in H.
  subst. unfold flag_word, flag_word_of.
  destruct (is_some (Rec.timestamp chunk)), (is_some (Rec.testId chunk)),
    (is_some (Rec.tags chunk)), (is_some (Rec.mimeType chunk)),
    (has_file chunk), (is_some (Rec.routeCode chunk)); reflexivity.
Qed.

(** The flag word as a disjunction of its parts. *)
Lemma or_if f (b : bool) m :
  0 <= f < 65536 -> 0 <= m < 65536 ->
  (if b then Js.or f m else f) = Z.lor f (if b then m else 0)
  /\ 0 <= Z.lor f (if b then m else 0) < 65536.
Proof.
  intros Hf Hm. destruct b.
  - rewrite Js_or_small by lia. split; [reflexivity|].
    apply (lor_bound _ _ 16); lia.
  - rewrite Z.lor_0_r. split; [reflexivity | lia].
Qed.

Lemma flag_word_of_lor k rn ef ts ti tg mt fl rc :
  0 <= k <= 7 ->
  flag_word_of k rn ef ts ti tg mt fl rc
  = Z.lor (Z.lor (Z.lor (Z.lor (Z.lor (Z.lor (Z.lor (Z.lor (Z.lor 8192 k)
      (if rn then 256 else 0)) (if ef then 16 else 0))
      (if ts then 512 else 0)) (if ti then 2048 else 0))
      (if tg then 128 else 0)) (if mt then 32 else 0))
      (if fl then 64 else 0)) (if rc then 1024 else 0)
  /\ 0 <= flag_word_of k rn ef ts ti tg mt fl rc < 65536.
Proof.
  intros K. unfold flag_word_of.
  cbv [flagMasks.testId flagMasks.routeCode flagMasks.timestamp
       flagMasks.runnable flagMasks.tags flagMasks.mimeType flagMasks.eof
       flagMasks.fileContent].
  rewrite (Js_or_small 8192 k) by lia.
  assert (B0 : 0 <= Z.lor 8192 k < 65536) by (apply (lor_bound _ _ 16); lia).
  destruct (or_if _ rn 256 B0 ltac:(lia)) as [-> B1].
  destruct (or_if _ ef 16 B1 ltac:(lia)) as [-> B2].
  destruct (or_if _ ts 512 B2 ltac:(lia)) as [-> B3].
  destruct (or_if _ ti 2048 B3 ltac:(lia)) as [-> B4].
  destruct (or_if _ tg 128 B4 ltac:(lia)) as [-> B5].
  destruct (or_if _ mt 32 B5 ltac:(lia)) as [-> B6].
  destruct (or_if _ fl 64 B6 ltac:(lia)) as [-> B7].
  destruct (or_if _ rc 1024 B7 ltac:(lia)) as [-> B8].
  split; [reflexivity | exact B8].
Qed.

Lemma land_if (b : bool) m t :
  Z.land (if b then m else 0) t = if b then Z.land m t else 0.
Proof. destruct b; [reflexivity | apply Z.land_0_l]. Qed.

Lemma if_zero (b : bool) : (if b then 0 else 0) = 0.
Proof. now destruct b. Qed.

Lemma land_code_mask k a : 0 <= k <= 7 -> Z.land k (a * 2 ^ 3) = 0.
Proof. intros K. rewrite Z.land_comm. apply land_disjoint; lia. Qed.

Lemma land_code_7 k : 0 <= k <= 7 -> Z.land k 7 = k.
Proof.
  intros K. change 7 with (Z.ones 3). rewrite Z.land_ones by lia.
  apply Z.mod_small. lia.
Qed.

(** [flags & t] for a test mask [t], part by part. *)
Ltac flag_test t :=
  rewrite !Z.land_lor_distr_l, !land_if;
  repeat match goal with
         | |- context [Z.land (Zpos ?m) (Zpos ?u)] =>
           let c := eval vm_compute in (Z.land (Zpos m) (Zpos u)) in
           change (Z.land (Zpos m) (Zpos u)) with c
         end;
  rewrite ?if_zero, ?Z.lor_0_r, ?Z.lor_0_l.

Lemma flag_word_of_and k rn ef ts ti tg mt fl rc :
  0 <= k <= 7 ->
  let w := flag_word_of k rn ef ts ti tg mt fl rc in
  Js.and w 0x0007 = k
  /\ Js.and w 0xF000 = 0x2000
  /\ Js.and w flagMasks.testId = (if ti then 2048 else 0)
  /\ Js.and w flagMasks.routeCode = (if rc then 1024 else 0)
  /\ Js.and w flagMasks.timestamp = (if ts then 512 else 0)
  /\ Js.and w flagMasks.runnable = (if rn then 256 else 0)
  /\ Js.and w flagMasks.tags = (if tg then 128 else 0)
  /\ Js.and w flagMasks.mimeType = (if mt then 32 else 0)
  /\ Js.and w flagMasks.eof = (if ef then 16 else 0)
  /\ Js.and w flagMasks.fileContent = (if fl then 64 else 0).
Proof.
  intros K w. subst w.
  destruct (flag_word_of_lor k rn ef ts ti tg mt fl rc K) as [E B].
  cbv [flagMasks.testId flagMasks.routeCode flagMasks.timestamp
       flagMasks.runnable flagMasks.tags flagMasks.mimeType flagMasks.eof
       flagMasks.fileContent].
  rewrite !Js_and_small by lia. rewrite E.
  pose proof (land_code_7 k K) as K7.
  assert (KM : forall a t, t = a * 8 -> Z.land k t = 0)
    by (intros a t ->; apply (land_code_mask k a K)).
  repeat split.
  - flag_test 7. now rewrite K7.
  - flag_test 61440. now rewrite (KM 7680 61440 eq_refl).
  - flag_test 2048. now rewrite (KM 256 2048 eq_refl).
  - flag_test 1024. now rewrite (KM 128 1024 eq_refl).
  - flag_test 512. now rewrite (KM 64 512 eq_refl).
  - flag_test 256. now rewrite (KM 32 256 eq_refl).
  - flag_test 128. now rewrite (KM 16 128 eq_refl).
  - flag_test 32. now rewrite (KM 4 32 eq_refl).
  - flag_test 16. now rewrite (KM 2 16 eq_refl).
  - flag_test 64. now rewrite (KM 8 64 eq_refl).
Qed.

(** What the decoder makes of a flag word the encoder built. *)
Lemma flag_word_of_read k rn ef ts ti tg mt fl rc :
  0 <= k <= 7 ->
  packet_flags (flag_word_of k rn ef ts ti tg mt fl rc)
  = {| Flags.testId := ti; Flags.routeCode := rc; Flags.timestamp := ts;
       Flags.runnable := rn; Flags.tags := tg; Flags.mimeType := mt;
       Flags.eof := ef; Flags.fileContent := fl |}.
Proof.
  intros K.
  destruct (flag_word_of_and k rn ef ts ti tg mt fl rc K)
    as (_ & _ & E1 & E2 & E3 & E4 & E5 & E6 & E7 & E8).
  unfold packet_flags. rewrite E1, E2, E3, E4, E5, E6, E7, E8.
  destruct rn, ef, ts, ti, tg, mt, fl, rc; reflexivity.
Qed.

Lemma flag_word_read chunk :
  packet_flags (flag_word chunk) = decoded_flags chunk
  /\ Js.and (flag_word chunk) 0x0007 = status_code (Rec.status chunk)
  /\ Js.and (flag_word chunk) 0xF000 = 0x2000
  /\ 0 <= flag_word chunk < 65536.
Proof.
  pose proof (status_code_range (Rec.status chunk)) as K.
  unfold flag_word. split; [now apply flag_word_of_read|].
  destruct (flag_word_of_and _ (packet_flag Flags.runnable chunk)
              (packet_flag Flags.eof chunk) (is_some (Rec.timestamp chunk))
              (is_some (Rec.testId chunk)) (is_some (Rec.tags chunk))
              (is_some (Rec.mimeType chunk)) (has_file chunk)
              (is_some (Rec.routeCode chunk)) K) as (E1 & E2 & _).
  split; [exact E1|]. split; [exact E2|].
  now apply flag_word_of_lor.
Qed.

(** ** What each block of the encoder appends, and how the decoder's block
    reads it back *)

Lemma concat_snoc (body : list Buffer) (b : Buffer) :
  Buf.concat (body ++ [b]) = Buf.concat body ++ b.
Proof.
  unfold Buf.concat. rewrite concat_app. cbn [List.concat].
  now rewrite app_nil_r.
Qed.

Lemma put_get_timestamp chunk f b f' b' :
  ObjectToSubunitStream.put_timestamp chunk (f, b) = Ok (f', b') ->
  exists block,
    Buf.concat b' = Buf.concat b ++ block
    /\ forall bl fl o rest,
        Flags.timestamp fl = is_some (Rec.timestamp chunk) ->
        suffix_at bl o (block ++ rest) ->
        get_timestamp bl fl o = Ok (Rec.timestamp chunk, o + Buf.length block).
Proof.
  unfold ObjectToSubunitStream.put_timestamp. intros H.
  destruct (Rec.timestamp chunk) as [[millis|]|]; [|not_a_number H|].
  - bind_inv H. rename a into varNanos. bind_inv H. rename a into buf.
    apply Ok_inj in H. apply pair_inj in H. destruct H as [_ <-].
    apply writeUIntBE_ok in E0. destruct E0 as [R ->].
    change (256 ^ Z.of_nat 4) with 4294967296 in R.
    assert (M : 0 <= millis < 4294967296000)
      by (unfold ObjectToSubunitStream.seconds_of in R; divmod).
    exists (Buf.be_bytes 4 (ObjectToSubunitStream.seconds_of millis)
              ++ varNanos).
    split; [apply concat_snoc|].
    intros bl fl o rest Hfl S. unfold get_timestamp. rewrite Hfl.
    cbn [is_some]. rewrite <- app_assoc in S.
    rewrite (BL_readUInt32BE_here _ _ _ S), BL_readUInt32BE_bytes by lia.
    cbn [bind].
    assert (S1 := suffix_app _ _ _ _ (o + 4) S
                             ltac:(now rewrite be_bytes_length)).
    rewrite (readVarInt_here _ _ _ S1), (readVarInt_writeVarInt _ _ _ E).
    cbn [bind Read.length Read.value].
    rewrite length_app, be_bytes_length.
    rewrite timestamp_of_millis by assumption.
    f_equal. f_equal. lia.
  - apply Ok_inj in H. apply pair_inj in H. destruct H as [_ <-].
    exists []. split; [now rewrite app_nil_r|].
    intros bl fl o rest Hfl S. unfold get_timestamp. rewrite Hfl.
    cbn [is_some]. rewrite length_nil. do 2 f_equal. lia.
Qed.

(** A block that holds one optional string. *)
Lemma string_block (field : option Js.String) (body body' : list Buffer) :
  match field with
  | Some s => b <- writeUtf8 s ;; Ok (body ++ [b])
  | None => Ok body
  end = Ok body' ->
  well_formed_opt field = true ->
  exists block,
    Buf.concat body' = Buf.concat body ++ block
    /\ forall bl o rest,
        suffix_at bl o (block ++ rest) ->
        (if is_some field
         then s <- readUtf8 bl o ;; Ok (Some (Read.value s), o + Read.length s)
         else Ok (None, o))
        = Ok (field, o + Buf.length block).
Proof.
  intros H W. destruct field as [s|]; cbn [well_formed_opt is_some] in *.
  - bind_inv H. apply Ok_inj in H. subst body'.
    exists a. split; [apply concat_snoc|].
    intros bl o rest S.
    rewrite (readUtf8_here _ _ _ S), (readUtf8_writeUtf8 _ _ _ W E).
    reflexivity.
  - apply Ok_inj in H. subst body'. exists [].
    split; [now rewrite app_nil_r|].
    intros bl o rest S. rewrite length_nil. do 2 f_equal. lia.
Qed.

Lemma put_get_testId chunk f b f' b' :
  ObjectToSubunitStream.put_testId chunk (f, b) = Ok (f', b') ->
  well_formed_opt (Rec.testId chunk) = true ->
  exists block,
    Buf.concat b' = Buf.concat b ++ block
    /\ forall bl fl o rest,
        Flags.testId fl = is_some (Rec.testId chunk) ->
        suffix_at bl o (block ++ rest) ->
        get_testId bl fl o = Ok (Rec.testId chunk, o + Buf.length block).
Proof.
  unfold ObjectToSubunitStream.put_testId. intros H W.
  destruct (string_block (Rec.testId chunk) b b') as (block & Hc & Hr);
    [|assumption|].
  { destruct (Rec.testId chunk); [bind_inv H|];
      apply Ok_inj in H; apply pair_inj in H; destruct H as [_ <-];
      reflexivity. }
  exists block. split; [assumption|].
  intros bl fl o rest Hfl S. unfold get_testId. rewrite Hfl.
  exact (Hr bl o rest S).
Qed.

Lemma put_get_mimeType chunk f b f' b' :
  ObjectToSubunitStream.put_mimeType chunk (f, b) = Ok (f', b') ->
  well_formed_opt (Rec.mimeType chunk) = true ->
  exists block,
    Buf.concat b' = Buf.concat b ++ block
    /\ forall bl fl o rest,
        Flags.mimeType fl = is_some (Rec.mimeType chunk) ->
        suffix_at bl o (block ++ rest) ->
        get_mimeType bl fl o = Ok (Rec.mimeType chunk, o + Buf.length block).
Proof.
  unfold ObjectToSubunitStream.put_mimeType. intros H W.
  destruct (string_block (Rec.mimeType chunk) b b') as (block & Hc & Hr);
    [|assumption|].
  { destruct (Rec.mimeType chunk); [bind_inv H|];
      apply Ok_inj in H; apply pair_inj in H; destruct H as [_ <-];
      reflexivity. }
  exists block. split; [assumption|].
  intros bl fl o rest Hfl S. unfold get_mimeType. rewrite Hfl.
  exact (Hr bl o rest S).
Qed.

Lemma put_get_routeCode chunk f b f' b' :
  ObjectToSubunitStream.put_routeCode chunk (f, b) = Ok (f', b') ->
  well_formed_opt (Rec.routeCode chunk) = true ->
  exists block,
    Buf.concat b' = Buf.concat b ++ block
    /\ forall bl fl o rest,
        Flags.routeCode fl = is_some (Rec.routeCode chunk) ->
        suffix_at bl o (block ++ rest) ->
        get_routeCode bl fl o = Ok (Rec.routeCode chunk, o + Buf.length block).
Proof.
  unfold ObjectToSubunitStream.put_routeCode. intros H W.
  destruct (string_block (Rec.routeCode chunk) b b') as (block & Hc & Hr);
    [|assumption|].
  { destruct (Rec.routeCode chunk); [bind_inv H|];
      apply Ok_inj in H; apply pair_inj in H; destruct H as [_ <-];
      reflexivity. }
  exists block. split; [assumption|].
  intros bl fl o rest Hfl S. unfold get_routeCode. rewrite Hfl.
  exact (Hr bl o rest S).
Qed.

Lemma push_read_tags tags body body' :
  ObjectToSubunitStream.push_tags tags body = Ok body' ->
  forallb Utf8.well_formed tags = true ->
  exists block,
    Buf.concat body' = Buf.concat body ++ block
    /\ forall bl o rest acc,
        suffix_at bl o (block ++ rest) ->
        read_tags (List.length tags) bl o acc
        = Ok (acc ++ tags, o + Buf.length block).
Proof.
  revert body body'.
  induction tags as [|tag tags IH]; intros body body' H W;
    cbn [ObjectToSubunitStream.push_tags forallb] in *.
  - apply Ok_inj in H. subst body'. exists [].
    split; [now rewrite app_nil_r|].
    intros bl o rest acc S. cbn [List.length read_tags].
    rewrite app_nil_r, length_nil. do 2 f_equal. lia.
  - bind_inv H. apply andb_prop in W. destruct W as [W1 W2].
    destruct (IH _ _ H W2) as (block & Hc & Hr).
    exists (a ++ block). split.
    { rewrite Hc, concat_snoc. now rewrite app_assoc. }
    intros bl o rest acc S. cbn [List.length read_tags].
    rewrite <- app_assoc in S.
    rewrite (readUtf8_here _ _ _ S), (readUtf8_writeUtf8 _ _ _ W1 E).
    cbn [bind Read.length Read.value].
    rewrite (Hr bl (o + Buf.length a) rest (acc ++ [tag]))
      by (apply (suffix_app _ _ _ _ _ S); reflexivity).
    rewrite <- app_assoc, length_app. cbn [app]. do 2 f_equal. lia.
Qed.

Lemma put_get_tags chunk f b f' b' :
  ObjectToSubunitStream.put_tags chunk (f, b) = Ok (f', b') ->
  match Rec.tags chunk with
  | Some tags => forallb Utf8.well_formed tags
  | None => true
  end = true ->
  exists block,
    Buf.concat b' = Buf.concat b ++ block
    /\ forall bl fl o rest,
        Flags.tags fl = is_some (Rec.tags chunk) ->
        suffix_at bl o (block ++ rest) ->
        get_tags bl fl o = Ok (Rec.tags chunk, o + Buf.length block).
Proof.
  unfold ObjectToSubunitStream.put_tags. intros H W.
  destruct (Rec.tags chunk) as [tags|].
  - bind_inv H. rename a into count. bind_inv H.
    apply Ok_inj in H. apply pair_inj in H. destruct H as [_ <-].
    destruct (push_read_tags _ _ _ E0 W) as (block & Hc & Hr).
    exists (count ++ block). split.
    { rewrite Hc, concat_snoc. now rewrite app_assoc. }
    intros bl fl o rest Hfl S. unfold get_tags. rewrite Hfl. cbn [is_some].
    rewrite <- app_assoc in S.
    rewrite (readVarInt_here _ _ _ S), (readVarInt_writeVarInt _ _ _ E).
    cbn [bind Read.length Read.value]. rewrite Nat2Z.id.
    rewrite (Hr bl (o + Buf.length count) rest [])
      by (apply (suffix_app _ _ _ _ _ S); reflexivity).
    cbn [bind app]. rewrite length_app. do 2 f_equal. lia.
  - apply Ok_inj in H. apply pair_inj in H. destruct H as [_ <-].
    exists []. split; [now rewrite app_nil_r|].
    intros bl fl o rest Hfl S. unfold get_tags. rewrite Hfl.
    cbn [is_some]. rewrite length_nil. do 2 f_equal. lia.
Qed.

Lemma put_get_file chunk f b f' b' :
  ObjectToSubunitStream.put_file chunk (f, b) = Ok (f', b') ->
  (if has_file chunk then well_formed_opt (Rec.fileName chunk) else true)
  = true ->
  exists block,
    Buf.concat b' = Buf.concat b ++ block
    /\ forall bl fl o rest,
        Flags.fileContent fl = has_file chunk ->
        suffix_at bl o (block ++ rest) ->
        get_file bl fl o
        = Ok (if has_file chunk then Rec.fileName chunk else None,
              if has_file chunk then Rec.fileContent chunk else None,
              o + Buf.length block).
Proof.
  unfold ObjectToSubunitStream.put_file, has_file. intros H W.
  destruct (Rec.fileName chunk) as [fileName|];
    [destruct (Rec.fileContent chunk) as [fileContent|]|];
    cbn [is_some andb well_formed_opt] in *.
  - bind_inv H. rename a into name. bind_inv H. rename a into len.
    apply Ok_inj in H. apply pair_inj in H. destruct H as [_ <-].
    exists (name ++ len ++ fileContent). split.
    { rewrite !app_assoc, !concat_snoc. now rewrite <- !app_assoc. }
    intros bl fl o rest Hfl S. unfold get_file. rewrite Hfl.
    rewrite <- !app_assoc in S.
    rewrite (readUtf8_here _ _ _ S), (readUtf8_writeUtf8 _ _ _ W E).
    cbn [bind Read.length Read.value].
    assert (S1 := suffix_app _ _ _ _ _ S eq_refl).
    rewrite (readVarInt_here _ _ _ S1), (readVarInt_writeVarInt _ _ _ E0).
    cbn [bind Read.length Read.value].
    assert (S2 := suffix_app _ _ _ _ _ S1 eq_refl).
    unfold BL.slice.
    rewrite <- (Z.add_0_r (o + Buf.length name + Buf.length len)) at 1.
    rewrite (slice_suffix _ _ _ _ _ S2) by lia.
    rewrite slice_prefix, !length_app. do 2 f_equal. lia.
  - apply Ok_inj in H. apply pair_inj in H. destruct H as [_ <-].
    exists []. split; [now rewrite app_nil_r|].
    intros bl fl o rest Hfl S. unfold get_file. rewrite Hfl.
    rewrite length_nil. do 2 f_equal. lia.
  - apply Ok_inj in H. apply pair_inj in H. destruct H as [_ <-].
    exists []. split; [now rewrite app_nil_r|].
    intros bl fl o rest Hfl S. unfold get_file. rewrite Hfl.
    rewrite length_nil. do 2 f_equal. lia.
Qed.

(** ** A whole packet *)

Lemma strings_well_formed_parts chunk :
  strings_well_formed chunk = true ->
  well_formed_opt (Rec.testId chunk) = true
  /\ match Rec.tags chunk with
     | Some tags => forallb Utf8.well_formed tags
     | None => true
     end = true
  /\ well_formed_opt (Rec.mimeType chunk) = true
  /\ (if has_file chunk then well_formed_opt (Rec.fileName chunk) else true)
     = true
  /\ well_formed_opt (Rec.routeCode chunk) = true.
Proof.
  unfold strings_well_formed. rewrite !andb_true_iff. tauto.
Qed.

(** The decoder's [fields] reads the body of the encoder's [fields] back. *)
Lemma fields_body chunk flags body bl offset packetLength rest :
  strings_well_formed chunk = true ->
  ObjectToSubunitStream.fields chunk = Ok (flags, body) ->
  suffix_at bl (offset + 3 + Read.length packetLength)
            (Buf.concat body ++ rest) ->
  fields bl offset flags packetLength
  = Ok (decoded chunk (Read.value packetLength)).
Proof.
  intros W H S.
  pose proof (fields_flag_word _ _ _ H) as ->.
  destruct (flag_word_read chunk) as (Ef & Es & _ & _).
  apply strings_well_formed_parts in W.
  destruct W as (W1 & W2 & W3 & W4 & W5).
  unfold ObjectToSubunitStream.fields in H.
  bind_inv H. destruct a as [f1 b1].
  destruct (put_get_timestamp _ _ _ _ _ E) as (k1 & C1 & G1).
  bind_inv H. destruct a as [f2 b2].
  destruct (put_get_testId _ _ _ _ _ E0 W1) as (k2 & C2 & G2).
  bind_inv H. destruct a as [f3 b3].
  destruct (put_get_tags _ _ _ _ _ E1 W2) as (k3 & C3 & G3).
  bind_inv H. destruct a as [f4 b4].
  destruct (put_get_mimeType _ _ _ _ _ E2 W3) as (k4 & C4 & G4).
  bind_inv H. destruct a as [f5 b5].
  destruct (put_get_file _ _ _ _ _ E3 W4) as (k5 & C5 & G5).
  destruct (put_get_routeCode _ _ _ _ _ H W5) as (k6 & C6 & G6).
  rewrite C6, C5, C4, C3, C2, C1 in S.
  change (Buf.concat []) with (@nil Z) in S. cbn [app] in S.
  rewrite <- !app_assoc in S.
  unfold fields. cbn [Packet.flags]. rewrite Ef, Es.
  rewrite (G1 bl (decoded_flags chunk) _ _ eq_refl S). cbn [bind].
  assert (S2 := suffix_app _ _ _ _ _ S eq_refl).
  rewrite (G2 bl (decoded_flags chunk) _ _ eq_refl S2). cbn [bind].
  assert (S3 := suffix_app _ _ _ _ _ S2 eq_refl).
  rewrite (G3 bl (decoded_flags chunk) _ _ eq_refl S3). cbn [bind].
  assert (S4 := suffix_app _ _ _ _ _ S3 eq_refl).
  rewrite (G4 bl (decoded_flags chunk) _ _ eq_refl S4). cbn [bind].
  assert (S5 := suffix_app _ _ _ _ _ S4 eq_refl).
  rewrite (G5 bl (decoded_flags chunk) _ _ eq_refl S5). cbn [bind].
  assert (S6 := suffix_app _ _ _ _ _ S5 eq_refl).
  rewrite (G6 bl (decoded_flags chunk) _ _ eq_refl S6). cbn [bind].
  reflexivity.
Qed.

(** One pass of the decoder over the octets the encoder lays out before
    the checksum, whatever follows them. *)
Lemma parse_encoded {listening} chunk flags body n len bl offset rest :
  strings_well_formed chunk = true ->
  ObjectToSubunitStream.fields chunk = Ok (flags, body) ->
  writeVarInt n = Ok len ->
  suffix_at bl offset
            ([signature] ++ Buf.be_bytes 2 flags ++ len ++ Buf.concat body
               ++ rest) ->
  iteration listening bl offset = ([push (decoded chunk n)], Ok (offset + n)).
Proof.
  intros W H E S.
  assert (R : 0 <= flags < 65536).
  { rewrite (fields_flag_word _ _ _ H). apply flag_word_read. }
  destruct (header_of_packet _ _ _ _ _ _ _ S R E) as [Hh S0].
  unfold iteration. rewrite Hh.
  rewrite check_signature_same.
  rewrite (fields_body chunk flags body bl offset
                       (Read.make (Buf.length len) n) rest W H S0).
  reflexivity.
Qed.

Lemma parse_packet {listening} chunk pkt bl offset rest :
  strings_well_formed chunk = true ->
  ObjectToSubunitStream._transform chunk = Ok pkt ->
  suffix_at bl offset (pkt ++ rest) ->
  iteration listening bl offset
  = ([push (decoded chunk (Buf.length pkt))], Ok (offset + Buf.length pkt)).
Proof.
  intros W H S. apply transform_ok in H.
  destruct H as (flags & body & Hf & Ha).
  destruct (assemble_ok _ _ _ Ha) as (len & _ & E & _ & P).
  apply (parse_encoded chunk flags body _ len bl offset
                       (crc32 ([signature] ++ Buf.be_bytes 2 flags ++ len
                                 ++ Buf.concat body) ++ rest) W Hf E).
  rewrite P in S at 1. now rewrite <- !app_assoc in S.
Qed.

Lemma packet_length_pos chunk pkt :
  ObjectToSubunitStream._transform chunk = Ok pkt -> 8 <= Buf.length pkt.
Proof.
  intros H. apply transform_ok in H. destruct H as (flags & body & _ & Ha).
  destruct (assemble_ok _ _ _ Ha) as (len & _ & _ & L & P).
  rewrite P. cbn [app]. rewrite length_cons, !length_app, be_bytes_length.
  rewrite crc32_length.
  pose proof (length_nonneg (Buf.concat body)). lia.
Qed.

Lemma transform_packet {listening} (chunk : Rec.t) (pkt : Buffer) (fuel : nat) :
  strings_well_formed chunk = true ->
  ObjectToSubunitStream._transform chunk = Ok pkt ->
  (0 < fuel)%nat ->
  _transform listening fuel new pkt
  = Some (done (make pkt (Buf.length pkt))
               [push (decoded chunk (Buf.length pkt))] None).
Proof.
  intros W H Hf. unfold _transform. cbn [bl offset new BL.append app].
  pose proof (packet_length_pos _ _ H) as L.
  apply loop_one.
  - assumption.
  - unfold BL.length. lia.
  - rewrite (parse_packet chunk pkt pkt 0 [] W H).
    + reflexivity.
    + rewrite app_nil_r. apply suffix_start.
  - unfold BL.length. lia.
Qed.

(** X1.  Encoding a record and decoding the packet gives the record
    back.  For every record whose strings have their surrogates paired:
    if the encoder returns a packet, a fresh decoder given that packet in
    one chunk pushes exactly one record, emits no error and throws
    nothing.  The record has the same timestamp, test id, tags, MIME type
    and route code; the file name and content when the input had both, and
    neither when it had only one; the status the table gives for the
    input's status code, so [null] for an absent or unknown status; and a
    [_packet] with the packet's length and one flag per field present,
    [runnable] and [eof] as the input's [_packet.flags] had them.  The
    offset ends at the end of the packet. *)
Theorem encode_decode (listening : bool) (chunk : Rec.t) (pkt : Buffer)
        (fuel : nat) :
  strings_well_formed chunk = true ->
  ObjectToSubunitStream._transform chunk = Ok pkt ->
  (0 < fuel)%nat ->
  _transform listening fuel new pkt
  = Some (done (make pkt (Buf.length pkt))
               [push (decoded chunk (Buf.length pkt))] None).
Proof. apply transform_packet. Qed.

Lemma encode_decode_witness :
  _transform false 1 new log_packet
  = Some (done (make log_packet (Buf.length log_packet))
               [push (decoded log_record (Buf.length log_packet))] None).
Proof.
  apply (encode_decode false log_record log_packet 1);
    [reflexivity | vm_compute; reflexivity | lia].
Defined.

Example T1_decoded_is_decoded millis n :
  decoded (T1_record millis) n = T1_decoded millis n.
Proof. reflexivity. Qed.

(** ** Streams of packets *)

Lemma octets_of_cons cp cps : octets_of (cp :: cps) = snd cp ++ octets_of cps.
Proof. reflexivity. Qed.

Lemma loop_packets {listening} cps :
  Forall encoded cps ->
  forall fuel bl offset,
    (List.length cps <= fuel)%nat ->
    suffix_at bl offset (octets_of cps) ->
    BL.length bl = offset + Buf.length (octets_of cps) ->
    loop listening fuel bl offset
    = Some (done (make bl (BL.length bl)) (pushes_of cps) None).
Proof.
  induction 1 as [|cp cps [W H] _ IH]; intros fuel bl offset Hf S L.
  - change (Buf.length (octets_of [])) with 0 in L.
    rewrite loop_done by lia. do 3 f_equal. lia.
  - cbn [List.length] in Hf. destruct fuel as [|fuel]; [lia|].
    rewrite octets_of_cons in S, L. rewrite length_app in L.
    pose proof (packet_length_pos _ _ H) as Hp.
    pose proof (length_nonneg (octets_of cps)) as Hn.
    rewrite loop_step by lia.
    rewrite (parse_packet _ _ _ _ _ W H S).
    rewrite (IH fuel bl (offset + Buf.length (snd cp)));
      [reflexivity | lia | apply (suffix_app _ _ _ _ _ S); reflexivity | lia].
Qed.

Lemma octets_of_app a b : octets_of (a ++ b) = octets_of a ++ octets_of b.
Proof. unfold octets_of, Buf.concat. now rewrite map_app, concat_app. Qed.

Lemma pushes_of_app a b : pushes_of (a ++ b) = pushes_of a ++ pushes_of b.
Proof. unfold pushes_of. apply map_app. Qed.

Lemma write_groups {listening} groups :
  Forall (Forall encoded) groups ->
  forall fuel this,
    (forall g, In g groups -> (List.length g <= fuel)%nat) ->
    offset this = BL.length (bl this) ->
    write_all listening fuel this (map octets_of groups)
    = Some (done (make (bl this ++ octets_of (List.concat groups))
                       (BL.length (bl this ++ octets_of (List.concat groups))))
                 (pushes_of (List.concat groups)) None).
Proof.
  induction 1 as [|g groups Hg _ IH]; intros fuel this Hf Ho.
  - cbn [map write_all List.concat]. change (octets_of []) with (@nil Z).
    rewrite app_nil_r, <- Ho. destruct this; reflexivity.
  - cbn [map write_all List.concat]. unfold _transform at 1, BL.append.
    rewrite (loop_packets g Hg fuel (bl this ++ octets_of g) (offset this)).
    + rewrite (IH fuel).
      * cbn [stream events thrown bl].
        rewrite octets_of_app, pushes_of_app, <- app_assoc. reflexivity.
      * intros g' Hg'. apply Hf. now right.
      * reflexivity.
    + apply Hf. now left.
    + rewrite Ho. apply suffix_prefix.
    + unfold BL.length in *. rewrite length_app. lia.
Qed.

(** X2.  A stream of packets.  Take groups of records, all encoded
    (strings with paired surrogates), and give a fresh decoder one chunk
    per group: the packets of the group one after the other.  The decoder
    pushes the decoded record of every packet, in order, emits no error
    and throws nothing; it ends with all the octets in its buffer and the
    offset at their end.  So what is pushed does not depend on how the
    packets are grouped into chunks, as long as chunks end where packets
    end.  The fuel has to cover the longest group only. *)
Theorem decode_stream (listening : bool)
        (groups : list (list (Rec.t * Buffer))) (fuel : nat) :
  Forall (Forall encoded) groups ->
  (forall g, In g groups -> (List.length g <= fuel)%nat) ->
  write_all listening fuel new (map octets_of groups)
  = Some (done (make (octets_of (List.concat groups))
                     (Buf.length (octets_of (List.concat groups))))
               (pushes_of (List.concat groups)) None).
Proof.
  intros H Hf. apply (write_groups groups H fuel new Hf). reflexivity.
Qed.

Lemma decode_stream_witness :
  write_all false 2 new
            (map octets_of
                 [[(empty_record, empty_packet); (log_record, log_packet)];
                  [(testId_record, testId_packet)]])
  = Some (done (make (octets_of
                        [(empty_record, empty_packet);
                         (log_record, log_packet);
                         (testId_record, testId_packet)])
                     (Buf.length
                        (octets_of
                           [(empty_record, empty_packet);
                            (log_record, log_packet);
                            (testId_record, testId_packet)])))
               (pushes_of
                  [(empty_record, empty_packet);
                   (log_record, log_packet);
                   (testId_record, testId_packet)])
               None).
Proof.
  apply (decode_stream false
           [[(empty_record, empty_packet); (log_record, log_packet)];
            [(testId_record, testId_packet)]] 2).
  - repeat constructor; vm_compute; reflexivity.
  - intros g [<-|[<-|[]]]; cbn [List.length]; lia.
Defined.

(** ** The checksum *)

Lemma packet_split {listening} chunk pkt :
  ObjectToSubunitStream._transform chunk = Ok pkt ->
  exists partial,
    pkt = partial ++ crc32 partial
    /\ Buf.length partial = Buf.length pkt - 4
    /\ forall bl offset rest,
        strings_well_formed chunk = true ->
        suffix_at bl offset (partial ++ rest) ->
        iteration listening bl offset
        = ([push (decoded chunk (Buf.length pkt))],
           Ok (offset + Buf.length pkt)).
Proof.
  intros H. apply transform_ok in H. destruct H as (flags & body & Hf & Ha).
  destruct (assemble_ok _ _ _ Ha) as (len & _ & E & _ & P).
  set (partial := [signature] ++ Buf.be_bytes 2 flags ++ len
                    ++ Buf.concat body) in *.
  assert (P' : pkt = partial ++ crc32 partial).
  { rewrite P. unfold partial. now rewrite <- !app_assoc. }
  exists partial. split; [exact P'|]. split.
  - rewrite P' at 1. rewrite length_app, crc32_length. lia.
  - intros bl offset rest W S.
    apply (parse_encoded chunk flags body _ len bl offset rest W Hf E).
    unfold partial in S. now rewrite <- !app_assoc in S.
Qed.

(** X3.  The decoder does not read the checksum.  Replace the last
    four octets of a record's packet by any [tail] of at most four octets
    (other octets, fewer, none): a fresh decoder pushes the same record
    as for the intact packet, emits no error, and moves its offset by the
    length the packet declares. *)
Theorem checksum_is_ignored (listening : bool) (chunk : Rec.t)
        (pkt tail : Buffer) (fuel : nat) :
  strings_well_formed chunk = true ->
  ObjectToSubunitStream._transform chunk = Ok pkt ->
  (0 < fuel)%nat -> Buf.length tail <= 4 ->
  _transform listening fuel new
             (firstn (Z.to_nat (Buf.length pkt - 4)) pkt ++ tail)
  = Some (done (make (firstn (Z.to_nat (Buf.length pkt - 4)) pkt ++ tail)
                     (Buf.length pkt))
               [push (decoded chunk (Buf.length pkt))] None).
Proof.
  intros W H Hf Ht.
  destruct (@packet_split listening _ _ H) as (partial & P & L & Hi).
  pose proof (packet_length_pos _ _ H) as Hp.
  assert (F : firstn (Z.to_nat (Buf.length pkt - 4)) pkt = partial).
  { rewrite P at 2. rewrite <- L. unfold Buf.length. rewrite Nat2Z.id.
    rewrite firstn_app, Nat.sub_diag, firstn_all. cbn [firstn].
    apply app_nil_r. }
  rewrite F. unfold _transform. cbn [bl offset new BL.append app].
  apply loop_one.
  - assumption.
  - unfold BL.length. rewrite length_app.
    pose proof (length_nonneg tail). lia.
  - rewrite (Hi (partial ++ tail) 0 tail W (suffix_start _)). reflexivity.
  - unfold BL.length. rewrite length_app. lia.
Qed.

Lemma checksum_is_ignored_witness :
  _transform false 1 new
             (firstn (Z.to_nat (Buf.length log_packet - 4)) log_packet
                ++ [0; 0; 0; 0])
  = Some (done (make (firstn (Z.to_nat (Buf.length log_packet - 4)) log_packet
                        ++ [0; 0; 0; 0])
                     (Buf.length log_packet))
               [push (decoded log_record (Buf.length log_packet))] None).
Proof.
  apply (checksum_is_ignored false log_record log_packet [0; 0; 0; 0] 1);
    [reflexivity | vm_compute; reflexivity | lia | vm_compute; discriminate].
Defined.

(** ** What the encoder reads of a record *)

Lemma status_code_get k : 0 <= k <= 7 -> status_code (statusFlags_get k) = k.
Proof.
  intros K.
  assert (K' : k = 0 \/ k = 1 \/ k = 2 \/ k = 3 \/ k = 4 \/ k = 5
               \/ k = 6 \/ k = 7) by lia.
  repeat (destruct K' as [->|K']; [reflexivity|]). now subst k.
Qed.

Lemma put_file_ext c1 c2 st :
  (if has_file c1 then Rec.fileName c1 else None)
  = (if has_file c2 then Rec.fileName c2 else None) ->
  (if has_file c1 then Rec.fileContent c1 else None)
  = (if has_file c2 then Rec.fileContent c2 else None) ->
  ObjectToSubunitStream.put_file c1 st = ObjectToSubunitStream.put_file c2 st.
Proof.
  unfold ObjectToSubunitStream.put_file, has_file. destruct st as [f b].
  destruct (Rec.fileName c1), (Rec.fileContent c1), (Rec.fileName c2),
    (Rec.fileContent c2); cbn [is_some andb];
    intros E1 E2; try discriminate; try reflexivity.
  apply (f_equal (fun o => match o with Some x => x | None => [] end))
    in E1, E2.
  now subst.
Qed.

(** Two records that differ only in what the encoder does not look at are
    encoded alike. *)
Lemma fields_ext c1 c2 :
  Rec.timestamp c1 = Rec.timestamp c2 ->
  Rec.testId c1 = Rec.testId c2 ->
  Rec.tags c1 = Rec.tags c2 ->
  Rec.mimeType c1 = Rec.mimeType c2 ->
  (if has_file c1 then Rec.fileName c1 else None)
  = (if has_file c2 then Rec.fileName c2 else None) ->
  (if has_file c1 then Rec.fileContent c1 else None)
  = (if has_file c2 then Rec.fileContent c2 else None) ->
  Rec.routeCode c1 = Rec.routeCode c2 ->
  status_code (Rec.status c1) = status_code (Rec.status c2) ->
  packet_flag Flags.runnable c1 = packet_flag Flags.runnable c2 ->
  packet_flag Flags.eof c1 = packet_flag Flags.eof c2 ->
  ObjectToSubunitStream.fields c1 = ObjectToSubunitStream.fields c2.
Proof.
  intros H1 H2 H3 H4 H5 H6 H7 H8 H9 H10.
  unfold ObjectToSubunitStream.fields.
  rewrite !initial_flags_word, H8, H9, H10.
  rewrite (put_timestamp_ext c1 c2 _ H1).
  destruct (ObjectToSubunitStream.put_timestamp c2 _) as [st1|];
    [|reflexivity].
  cbn [bind]. rewrite (put_testId_ext c1 c2 _ H2).
  destruct (ObjectToSubunitStream.put_testId c2 _) as [st2|]; [|reflexivity].
  cbn [bind]. rewrite (put_tags_ext c1 c2 _ H3).
  destruct (ObjectToSubunitStream.put_tags c2 _) as [st3|]; [|reflexivity].
  cbn [bind]. rewrite (put_mimeType_ext c1 c2 _ H4).
  destruct (ObjectToSubunitStream.put_mimeType c2 _) as [st4|]; [|reflexivity].
  cbn [bind]. rewrite (put_file_ext c1 c2 _ H5 H6).
  destruct (ObjectToSubunitStream.put_file c2 _) as [st5|]; [|reflexivity].
  cbn [bind]. apply (put_routeCode_ext c1 c2 _ H7).
Qed.

(** X4.  Of [chunk._packet] the encoder reads [flags.runnable]
    and [flags.eof] only.  Two records that differ in [_packet] alone, and
    whose [_packet]s agree on these two flags (an absent [_packet] counts
    as both false), have the same result, packet or exception: the length
    and the other six flags of [_packet] are ignored. *)
Theorem encoder_reads_two_flags (chunk : Rec.t) (p1 p2 : option Packet.t) :
  packet_flag Flags.runnable (with_packet chunk p1)
  = packet_flag Flags.runnable (with_packet chunk p2) ->
  packet_flag Flags.eof (with_packet chunk p1)
  = packet_flag Flags.eof (with_packet chunk p2) ->
  ObjectToSubunitStream._transform (with_packet chunk p1)
  = ObjectToSubunitStream._transform (with_packet chunk p2).
Proof.
  intros H1 H2. unfold ObjectToSubunitStream._transform.
  now rewrite (fields_ext (with_packet chunk p1) (with_packet chunk p2)).
Qed.

Lemma encoder_reads_two_flags_witness :
  ObjectToSubunitStream._transform (with_packet testId_record None)
  = ObjectToSubunitStream._transform
      (with_packet testId_record
                   (Rec._packet (testId_decoded (Js.lit "T1") 11))).
Proof.
  apply (encoder_reads_two_flags
           testId_record None
           (Rec._packet (testId_decoded (Js.lit "T1") 11)));
    reflexivity.
Defined.

Lemma has_file_decoded chunk n : has_file (decoded chunk n) = has_file chunk.
Proof.
  unfold has_file, decoded. cbn [Rec.fileName Rec.fileContent].
  fold (has_file chunk).
  destruct (has_file chunk) eqn:E; [exact E | reflexivity].
Qed.

Lemma transform_decoded chunk n :
  ObjectToSubunitStream._transform (decoded chunk n)
  = ObjectToSubunitStream._transform chunk.
Proof.
  unfold ObjectToSubunitStream._transform.
  rewrite (fields_ext (decoded chunk n) chunk); try reflexivity.
  - rewrite has_file_decoded. cbn [decoded Rec.fileName].
    now destruct (has_file chunk).
  - rewrite has_file_decoded. cbn [decoded Rec.fileContent].
    now destruct (has_file chunk).
  - cbn [decoded Rec.status]. apply status_code_get, status_code_range.
Qed.

(** X5.  What the decoder pushes for the packet of a record (strings
    with paired surrogates), the encoder turns into that very packet
    again. *)
Theorem decode_encode_again (listening : bool) (chunk : Rec.t)
        (pkt : Buffer) (fuel : nat) :
  strings_well_formed chunk = true ->
  ObjectToSubunitStream._transform chunk = Ok pkt ->
  (0 < fuel)%nat ->
  exists ret,
    _transform listening fuel new pkt
    = Some (done (make pkt (Buf.length pkt)) [push ret] None)
    /\ ObjectToSubunitStream._transform ret = Ok pkt.
Proof.
  intros W H Hf. exists (decoded chunk (Buf.length pkt)).
  split; [now apply transform_packet|]. now rewrite transform_decoded.
Qed.

Lemma decode_encode_again_witness :
  exists ret,
    _transform false 1 new log_packet
    = Some (done (make log_packet (Buf.length log_packet)) [push ret] None)
    /\ ObjectToSubunitStream._transform ret = Ok log_packet.
Proof.
  apply (decode_encode_again false log_record log_packet 1);
    [reflexivity | vm_compute; reflexivity | lia].
Defined.

(** ** The shape of a packet *)

Lemma varint_size_le3 n : varint_size n <= 3 -> n <= 4194303.
Proof.
  unfold varint_size.
  repeat (match goal with |- context [?a <=? ?b] =>
                          destruct (Z.leb_spec a b) end); lia.
Qed.

(** X6.  The head of every packet the encoder returns.  The first
    octet is the signature [0xB3].  The next two are the flag word: its
    top four bits are the version, 2, and the decoder's flag loop reads
    from it a true flag for exactly the fields the record has
    ([fileContent] for a record with both file properties) and for
    [runnable] and [eof] where the record's [_packet.flags] has them.
    Then comes the length of the whole packet as a varint of the smallest
    size for that value.  A packet has at least 8 and at most 4194303
    octets. *)
Theorem packet_header (chunk : Rec.t) (pkt : Buffer) :
  ObjectToSubunitStream._transform chunk = Ok pkt ->
  exists word,
    BL.readUInt8 pkt 0 = Ok signature
    /\ BL.readUInt16BE pkt 1 = Ok word
    /\ Js.and word 0xF000 = 0x2000
    /\ packet_flags word = decoded_flags chunk
    /\ readVarInt pkt 3
       = Ok (Read.make (varint_size (Buf.length pkt)) (Buf.length pkt))
    /\ 8 <= Buf.length pkt <= 4194303.
Proof.
  intros H. pose proof (packet_length_pos _ _ H) as Hp.
  destruct (transform_flag_word _ _ H) as (word & body & Hf & R & Hw).
  pose proof (fields_flag_word _ _ _ Hf) as ->.
  destruct (flag_word_read chunk) as (Ef & _ & Ev & _).
  exists (flag_word chunk).
  apply transform_ok in H. destruct H as (flags & body' & Hf' & Ha).
  destruct (assemble_ok _ _ _ Ha) as (len & _ & E & L & P).
  destruct (writeVarInt_total (Buf.length pkt)) as (len' & E' & L' & _).
  { apply (writeVarInt_range _ _ E). }
  assert (len' = len) by congruence. subst len'.
  assert (S : suffix_at pkt 3
                (len ++ Buf.concat body'
                   ++ crc32 ([signature] ++ Buf.be_bytes 2 flags ++ len
                               ++ Buf.concat body'))).
  { rewrite P at 1. rewrite (app_assoc [signature]).
    apply (suffix_app _ 0 ([signature] ++ Buf.be_bytes 2 flags));
      [apply suffix_start | reflexivity]. }
  split.
  { rewrite P. cbn [app]. apply BL_readUInt8_cons. }
  split; [assumption|]. split; [assumption|]. split; [assumption|]. split.
  - rewrite (readVarInt_here _ _ _ S), (readVarInt_writeVarInt _ _ _ E).
    now rewrite L'.
  - split; [assumption|]. apply varint_size_le3. lia.
Qed.

Lemma packet_header_witness :
  exists word,
    BL.readUInt8 log_packet 0 = Ok signature
    /\ BL.readUInt16BE log_packet 1 = Ok word
    /\ Js.and word 0xF000 = 0x2000
    /\ packet_flags word = decoded_flags log_record
    /\ readVarInt log_packet 3
       = Ok (Read.make (varint_size (Buf.length log_packet))
                       (Buf.length log_packet))
    /\ 8 <= Buf.length log_packet <= 4194303.
Proof.
  apply (packet_header log_record log_packet). vm_compute. reflexivity.
Defined.

(** X7.  The last four octets of every packet the encoder returns
    are the CRC-32 of all the octets before them, and they are octets. *)
Theorem packet_checksum (chunk : Rec.t) (pkt : Buffer) :
  ObjectToSubunitStream._transform chunk = Ok pkt ->
  Buf.slice pkt (Buf.length pkt - 4) (Buf.length pkt)
  = crc32 (Buf.slice pkt 0 (Buf.length pkt - 4))
  /\ Forall octet (Buf.slice pkt (Buf.length pkt - 4) (Buf.length pkt)).
Proof.
  intros H. destruct (@packet_split true _ _ H) as (partial & P & L & _).
  assert (E1 : Buf.slice pkt 0 (Buf.length pkt - 4) = partial).
  { rewrite <- L. rewrite P at 1. apply slice_prefix. }
  assert (E2 : Buf.slice pkt (Buf.length pkt - 4) (Buf.length pkt)
               = crc32 partial).
  { rewrite <- L. rewrite P at 1.
    rewrite <- (app_nil_r (crc32 partial)) at 1.
    apply slice_middle; [reflexivity|].
    rewrite P, length_app. lia. }
  rewrite E1, E2. split; [reflexivity|].
  unfold crc32. cbn [Buf.be_bytes].
  repeat constructor; unfold octet; apply Z.mod_pos_bound; lia.
Qed.

Lemma packet_checksum_witness :
  Buf.slice log_packet (Buf.length log_packet - 4) (Buf.length log_packet)
  = crc32 (Buf.slice log_packet 0 (Buf.length log_packet - 4))
  /\ Forall octet
            (Buf.slice log_packet (Buf.length log_packet - 4)
                       (Buf.length log_packet)).
Proof.
  apply (packet_checksum log_record log_packet). vm_compute. reflexivity.
Defined.

(** ** A header that is not wholly there *)

Lemma readVarInt_inside (bl : Buffer) i r :
  0 <= i -> readVarInt bl i = Ok r -> i < Buf.length bl.
Proof.
  intros Hi E. destruct (Z.lt_ge_cases i (Buf.length bl)) as [|Hge];
    [assumption|].
  unfold readVarInt, Buf.slice in E.
  rewrite skipn_all2 in E by (unfold Buf.length in Hge; lia).
  rewrite firstn_nil in E. discriminate.
Qed.

Lemma short_header {listening} bl offset :
  0 <= offset -> BL.length bl < offset + 4 ->
  iteration listening bl offset = ([], Throw RangeError).
Proof.
  intros H0 H. unfold iteration.
  destruct (header bl offset) as [[[sig flags] pl]|e] eqn:E.
  - apply header_ok in E. destruct E as (_ & _ & Hv).
    apply readVarInt_inside in Hv; [|lia]. unfold BL.length in H. lia.
  - apply only_range_header in E. now subst e.
Qed.

Lemma short_chunk {listening} fuel this chunk :
  (0 < fuel)%nat -> 0 <= offset this ->
  BL.length (bl this ++ chunk) < offset this + 4 ->
  _transform listening fuel this chunk
  = Some (done (make (bl this ++ chunk) (offset this)) [] None).
Proof.
  intros Hf H0 H. unfold _transform, BL.append.
  destruct (Z.lt_ge_cases (offset this) (BL.length (bl this ++ chunk))).
  - apply loop_wait; [assumption..|]. now apply short_header.
  - now apply loop_done.
Qed.

(** X8.  With fewer than four octets in the buffer from the offset
    on, a [_transform] call pushes nothing, emits nothing (not even for a
    wrong signature), throws nothing and leaves the offset where it is:
    the header is read again when more octets have come. *)
Theorem short_header_waits (listening : bool) (fuel : nat) (this : t)
        (chunk : Buffer) :
  (0 < fuel)%nat -> 0 <= offset this ->
  BL.length (bl this ++ chunk) < offset this + 4 ->
  _transform listening fuel this chunk
  = Some (done (make (bl this ++ chunk) (offset this)) [] None).
Proof. apply short_chunk. Qed.

Lemma short_header_waits_witness :
  _transform false 1 new [179; 40; 0]
  = Some (done (make (bl new ++ [179; 40; 0]) (offset new)) [] None).
Proof.
  apply (short_header_waits false 1 new [179; 40; 0]);
    [lia | reflexivity | reflexivity].
Defined.

(** X9.  A chunk boundary inside the first three octets of a header
    does no harm: when the first chunk leaves fewer than four octets from
    the offset on, writing it and then a second chunk gives the same
    outcome as writing the two as one chunk. *)
Theorem split_in_header (listening : bool) (fuel : nat) (this : t)
        (c1 c2 : Buffer) :
  (0 < fuel)%nat -> 0 <= offset this ->
  BL.length (bl this ++ c1) < offset this + 4 ->
  write_all listening fuel this [c1; c2]
  = _transform listening fuel this (c1 ++ c2).
Proof.
  intros Hf H0 H. cbn [write_all].
  rewrite short_chunk by assumption.
  unfold _transform, BL.append. cbn [bl offset]. rewrite <- app_assoc.
  destruct (loop listening fuel (bl this ++ c1 ++ c2) (offset this))
    as [[s evs [e|]]|]; [reflexivity| |reflexivity].
  cbn [stream events thrown app]. now rewrite app_nil_r.
Qed.

Lemma split_in_header_witness :
  write_all false 1 new [[179; 40]; [0; 11; 2; 84; 49; 60; 130; 198; 29]]
  = _transform false 1 new ([179; 40] ++ [0; 11; 2; 84; 49; 60; 130; 198; 29]).
Proof.
  apply (split_in_header false 1 new [179; 40]
                         [0; 11; 2; 84; 49; 60; 130; 198; 29]);
    [lia | reflexivity | reflexivity].
Defined.

(** ** Packets that declare length 0, and the others *)

(** X10.  A packet that declares length 0 stops the decoder for
    good.  If the header at the offset can be read and declares length 0,
    its first octet is the signature or the stream has an ['error']
    listener (so that [emit] returns), and the fields behind the header
    can be read, the loop pushes the record and comes back to the same
    offset: no number of passes ends it. *)
Theorem zero_length_never_ends (listening : bool) (bl : BufferList)
        (offset sig flags : Z) (packetLength : Read.t Z) (ret : Rec.t)
        (fuel : nat) :
  offset < BL.length bl ->
  header bl offset = Ok (sig, flags, packetLength) ->
  sig = signature \/ listening = true ->
  Read.value packetLength = 0 ->
  fields bl offset flags packetLength = Ok ret ->
  loop listening fuel bl offset = None.
Proof.
  intros Hlt Hh Hs Hv Hf.
  destruct (check_signature_passes listening sig offset Hs) as [errors Hc].
  induction fuel as [|fuel IH].
  - cbn [loop]. destruct (Z.ltb_spec offset (BL.length bl)); [reflexivity|lia].
  - rewrite loop_step by assumption. unfold iteration.
    rewrite Hh, Hc, Hf, Hv, Z.add_0_r, IH. reflexivity.
Qed.

Lemma zero_length_never_ends_witness :
  loop true 1000 [0; 32; 0; 0] 0 = None.
Proof.
  apply (zero_length_never_ends
           true [0; 32; 0; 0] 0 0 0x2000 (Read.make 1 0)
           (with_packet
              empty_decoded
              (Some {| Packet.length := 0;
                       Packet.flags := decoded_flags empty_record |}))
           1000);
    [reflexivity | reflexivity | right; reflexivity | reflexivity
     | reflexivity].
Defined.

Lemma iteration_advances {listening} bl offset evs offset' :
  Forall octet bl ->
  iteration listening bl offset = (evs, Ok offset') ->
  exists sig flags packetLength,
    header bl offset = Ok (sig, flags, packetLength)
    /\ offset' = offset + Read.value packetLength
    /\ 0 <= Read.value packetLength.
Proof.
  intros Oct E.
  destruct (iteration_ok _ _ _ _ E)
    as (sig & flags & pl & ret & Hh & _ & Ho & _).
  exists sig, flags, pl. split; [assumption|]. split; [assumption|].
  apply header_ok in Hh. destruct Hh as (_ & _ & Hv).
  apply (readVarInt_value_nonneg _ _ _ Oct Hv).
Qed.

Lemma loop_ends_aux {listening} bl start :
  Forall octet bl ->
  (forall o sig flags packetLength,
      start <= o ->
      header bl o = Ok (sig, flags, packetLength) ->
      Read.value packetLength <> 0) ->
  forall fuel offset,
    start <= offset ->
    BL.length bl - offset <= Z.of_nat fuel ->
    exists o, loop listening fuel bl offset = Some o.
Proof.
  intros Oct Hnz. induction fuel as [|fuel IH]; intros offset Hs H.
  - rewrite loop_done by lia. eauto.
  - destruct (Z.lt_ge_cases offset (BL.length bl)) as [Hlt|Hge];
      [|rewrite loop_done by lia; eauto].
    rewrite loop_step by assumption.
    destruct (iteration listening bl offset) as [evs [offset'|e]] eqn:E.
    + destruct (iteration_advances _ _ _ _ Oct E)
        as (sig & flags & pl & Hh & -> & Hv).
      pose proof (Hnz _ _ _ _ Hs Hh) as Hn.
      destruct (IH (offset + Read.value pl)) as [o Ho]; [lia..|].
      rewrite Ho. eauto.
    + destruct e; eauto.
Qed.

(** X11.  Without such packets the loop ends.  If the buffer holds
    octets, and no header that can be read at or behind the offset
    declares length 0, a [_transform] call returns after at most one pass
    per octet from the offset on. *)
Theorem transform_terminates (listening : bool) (this : t) (chunk : Buffer)
        (fuel : nat) :
  Forall octet (bl this ++ chunk) ->
  (forall o sig flags packetLength,
      offset this <= o ->
      header (bl this ++ chunk) o = Ok (sig, flags, packetLength) ->
      Read.value packetLength <> 0) ->
  BL.length (bl this ++ chunk) - offset this <= Z.of_nat fuel ->
  exists o, _transform listening fuel this chunk = Some o.
Proof.
  intros Oct Hnz H. unfold _transform, BL.append.
  apply (loop_ends_aux _ (offset this)); [assumption..|lia|assumption].
Qed.

Lemma transform_terminates_witness :
  exists o, _transform false 8 new empty_packet = Some o.
Proof.
  apply (transform_terminates false new empty_packet 8).
  - repeat constructor; unfold octet; lia.
  - intros o sig flags pl Ho Hh.
    apply header_ok in Hh. destruct Hh as (_ & _ & Hv).
    cbn [bl new app offset] in Ho, Hv.
    assert (Hi : o + 3 < Buf.length empty_packet).
    { apply (readVarInt_inside empty_packet (o + 3) pl); [lia | exact Hv]. }
    change (Buf.length empty_packet) with 8 in Hi.
    assert (K : o = 0 \/ o = 1 \/ o = 2 \/ o = 3 \/ o = 4) by lia.
    destruct K as [K|[K|[K|[K|K]]]]; subst o; vm_compute in Hv;
      try discriminate; apply Ok_inj in Hv; subst pl; discriminate.
  - vm_compute. discriminate.
Defined.

(** ** What a call leaves behind *)

Lemma loop_keeps {listening} fuel bl :
  Forall octet bl ->
  forall offset o,
    loop listening fuel bl offset = Some o ->
    SubunitToObjectStream.bl (stream o) = bl
    /\ offset <= SubunitToObjectStream.offset (stream o).
Proof.
  intros Oct. induction fuel as [|fuel IH]; intros offset o H.
  - destruct (Z.lt_ge_cases offset (BL.length bl)) as [Hlt|Hge].
    + cbn [loop] in H.
      destruct (Z.ltb_spec offset (BL.length bl)); [discriminate|lia].
    + rewrite loop_done in H by assumption.
      apply (f_equal (fun x => match x with Some y => y | None => o end)) in H.
      subst o. cbn. split; [reflexivity|lia].
  - destruct (Z.lt_ge_cases offset (BL.length bl)) as [Hlt|Hge].
    + rewrite loop_step in H by assumption.
      destruct (iteration listening bl offset) as [evs [offset'|e]] eqn:E.
      * destruct (loop listening fuel bl offset') as [o'|] eqn:E';
          [|discriminate].
        apply (f_equal (fun x => match x with Some y => y | None => o end))
          in H.
        subst o. cbn [stream].
        destruct (iteration_advances _ _ _ _ Oct E)
          as (sig & flags & pl & _ & -> & Hv).
        destruct (IH _ _ E') as [Hb Ho]. split; [assumption|lia].
      * destruct e;
          apply (f_equal (fun x => match x with Some y => y | None => o end))
            in H;
          subst o; cbn; (split; [reflexivity|lia]).
    + rewrite loop_done in H by assumption.
      apply (f_equal (fun x => match x with Some y => y | None => o end)) in H.
      subst o. cbn. split; [reflexivity|lia].
Qed.

(** X12.  A [_transform] call on octets leaves in the buffer what
    was there followed by the chunk, so octets that have been parsed are
    never dropped, and leaves the offset where it was or further on. *)
Theorem decoder_keeps_all_input (listening : bool) (fuel : nat) (this : t)
        (chunk : Buffer) (o : outcome) :
  Forall octet (bl this ++ chunk) ->
  _transform listening fuel this chunk = Some o ->
  bl (stream o) = bl this ++ chunk
  /\ offset this <= offset (stream o).
Proof.
  intros Oct H. unfold _transform, BL.append in H.
  now apply (@loop_keeps listening fuel).
Qed.

Lemma decoder_keeps_all_input_witness :
  bl (stream (done (make testId_packet 11)
                   [push (testId_decoded (Js.lit "T1") 11)] None))
  = bl new ++ testId_packet
  /\ offset new
     <= offset (stream (done (make testId_packet 11)
                             [push (testId_decoded (Js.lit "T1") 11)] None)).
Proof.
  apply (decoder_keeps_all_input false 1 new testId_packet).
  - repeat constructor; unfold octet; lia.
  - vm_compute. reflexivity.
Defined.

(** ** The bits of the flag word the decoder does not read *)

Lemma land_through a m :
  Z.land 0x0FF7 m = m -> Z.land a m = Z.land (Z.land a 0x0FF7) m.
Proof. intros H. now rewrite <- Z.land_assoc, H. Qed.

Lemma Js_and_16 f m :
  0 <= f < 65536 -> 0 <= m < 65536 -> Js.and f m = Z.land f m.
Proof. intros Hf Hm. apply Js_and_small; lia. Qed.

Lemma and_agree f1 f2 m :
  0 <= f1 < 65536 -> 0 <= f2 < 65536 -> 0 <= m < 65536 ->
  Z.land 0x0FF7 m = m ->
  Z.land f1 0x0FF7 = Z.land f2 0x0FF7 ->
  Js.and f1 m = Js.and f2 m.
Proof.
  intros H1 H2 Hm Em E. rewrite !Js_and_16 by assumption.
  rewrite (land_through f1), (land_through f2) by assumption.
  now rewrite E.
Qed.

(** X13.  The decoder reads neither the version (the top four bits
    of the flag word) nor bit [0x0008].  Two 16-bit flag words that agree
    on the other bits, [0x0FF7], give the same record, or the same
    exception, at any offset of any buffer. *)
Theorem unread_flag_bits (bl : BufferList) (offset f1 f2 : Z)
        (packetLength : Read.t Z) :
  0 <= f1 < 65536 -> 0 <= f2 < 65536 ->
  Z.land f1 0x0FF7 = Z.land f2 0x0FF7 ->
  fields bl offset f1 packetLength = fields bl offset f2 packetLength.
Proof.
  intros H1 H2 E.
  assert (A : forall m, 0 <= m < 65536 -> Z.land 0x0FF7 m = m ->
                        Js.and f1 m = Js.and f2 m).
  { intros m Hm Em. now apply and_agree. }
  unfold fields, packet_flags.
  rewrite (A 0x0007), (A flagMasks.testId), (A flagMasks.routeCode),
    (A flagMasks.timestamp), (A flagMasks.runnable), (A flagMasks.tags),
    (A flagMasks.mimeType), (A flagMasks.eof), (A flagMasks.fileContent);
    try reflexivity; mask_range.
Qed.

Lemma unread_flag_bits_witness :
  fields testId_packet 0 0x2800 (Read.make 1 11)
  = fields testId_packet 0 0xF808 (Read.make 1 11).
Proof.
  apply (unread_flag_bits testId_packet 0 0x2800 0xF808 (Read.make 1 11));
    [lia | lia | reflexivity].
Defined.

(** ** The records the decoder pushes *)

(** The status of a pushed record is a value of the table. *)
Lemma statusFlags_get_listed flags :
  In (statusFlags_get (Js.and flags 0x0007)) (map snd statusFlags).
Proof.
  unfold Js.and. change (Js.ToInt32 7) with (Z.ones 3).
  rewrite Z.land_ones by lia.
  pose proof (Z.mod_pos_bound (Js.ToInt32 flags) (2 ^ 3) ltac:(lia)) as R.
  set (k := Js.ToInt32 flags mod 2 ^ 3) in *. clearbody k.
  assert (K : k = 0 \/ k = 1 \/ k = 2 \/ k = 3 \/ k = 4 \/ k = 5
              \/ k = 6 \/ k = 7) by lia.
  repeat (destruct K as [K|K]; [subst k; cbv; tauto|]). subst k. cbv. tauto.
Qed.

Ltac bind_as H x E :=
  match type of H with
  | bind ?m _ = Ok _ =>
    destruct m as [x|] eqn:E; cbn [bind] in H; [|discriminate H]
  end.

Ltac block_some E get :=
  unfold get in E;
  match type of E with
  | (if ?c then _ else _) = _ => destruct c
  end;
  [ repeat bind_pair E | ];
  apply Ok_inj in E;
  repeat (apply pair_inj in E; destruct E as [E _]);
  subst; reflexivity.

Lemma get_timestamp_some bl fl o v o' :
  get_timestamp bl fl o = Ok (v, o') -> is_some v = Flags.timestamp fl.
Proof. intros E. block_some E get_timestamp. Qed.

Lemma get_testId_some bl fl o v o' :
  get_testId bl fl o = Ok (v, o') -> is_some v = Flags.testId fl.
Proof. intros E. block_some E get_testId. Qed.

Lemma get_tags_some bl fl o v o' :
  get_tags bl fl o = Ok (v, o') -> is_some v = Flags.tags fl.
Proof. intros E. block_some E get_tags. Qed.

Lemma get_mimeType_some bl fl o v o' :
  get_mimeType bl fl o = Ok (v, o') -> is_some v = Flags.mimeType fl.
Proof. intros E. block_some E get_mimeType. Qed.

Lemma get_routeCode_some bl fl o v o' :
  get_routeCode bl fl o = Ok (v, o') -> is_some v = Flags.routeCode fl.
Proof. intros E. block_some E get_routeCode. Qed.

Lemma get_file_some bl fl o v w o' :
  get_file bl fl o = Ok (v, w, o') ->
  is_some v = Flags.fileContent fl /\ is_some w = Flags.fileContent fl.
Proof.
  intros E. unfold get_file in E. destruct (Flags.fileContent fl).
  - repeat bind_pair E. apply Ok_inj in E.
    apply pair_inj in E. destruct E as [E _].
    apply pair_inj in E. destruct E as [<- <-]. split; reflexivity.
  - apply Ok_inj in E.
    apply pair_inj in E. destruct E as [E _].
    apply pair_inj in E. destruct E as [<- <-]. split; reflexivity.
Qed.

Lemma fields_shape bl offset flags packetLength ret :
  fields bl offset flags packetLength = Ok ret ->
  flags_match ret /\ In (Rec.status ret) (map snd statusFlags).
Proof.
  intros H. unfold fields in H. cbn [Packet.flags] in H.
  bind_as H r1 E1. destruct r1 as [timestamp o1].
  bind_as H r2 E2. destruct r2 as [testId o2].
  bind_as H r3 E3. destruct r3 as [tags o3].
  bind_as H r4 E4. destruct r4 as [mimeType o4].
  bind_as H r5 E5. destruct r5 as [[fileName fileContent] o5].
  bind_as H r6 E6. destruct r6 as [routeCode o6].
  apply Ok_inj in H. subst ret. cbn [Rec.status].
  split; [|apply statusFlags_get_listed].
  eexists. cbn [Rec._packet Rec.timestamp Rec.testId Rec.tags Rec.mimeType
                Rec.fileName Rec.fileContent Rec.routeCode].
  split; [reflexivity|]. cbn [Packet.flags].
  apply get_timestamp_some in E1. apply get_testId_some in E2.
  apply get_tags_some in E3. apply get_mimeType_some in E4.
  apply get_file_some in E5. destruct E5 as [E5 E5'].
  apply get_routeCode_some in E6.
  repeat split; assumption.
Qed.

(** X14.  Every record a [_transform] call pushes has a [_packet],
    has each of timestamp, test id, tags, MIME type, file name, file
    content and route code exactly when the flag for it in
    [_packet.flags] is true (the file name and the file content both go
    with [fileContent]), and has a status that is one of the eight values
    of the table: [null] or one of the seven names, so never [undefined].
    This holds with and without an ['error'] listener. *)
Theorem pushed_record_shape (listening : bool) (fuel : nat) (this : t)
        (chunk : Buffer) (o : outcome) (ret : Rec.t) :
  _transform listening fuel this chunk = Some o ->
  In (push ret) (events o) ->
  flags_match ret
  /\ In (Rec.status ret) (map snd statusFlags)
  /\ Rec.status ret <> Js.undefined.
Proof.
  intros H Hin. unfold _transform in H.
  destruct (loop_pushes _ _ _ _ _ H Hin) as (o' & sig & flags & pl & _ & Hf).
  destruct (fields_shape _ _ _ _ _ Hf) as [F L].
  split; [assumption|]. split; [assumption|].
  intros U. rewrite U in L. cbv in L.
  repeat (destruct L as [L|L]; [discriminate L|]). exact L.
Qed.

Lemma pushed_record_shape_witness :
  flags_match (testId_decoded (Js.lit "T1") 11)
  /\ In (Rec.status (testId_decoded (Js.lit "T1") 11)) (map snd statusFlags)
  /\ Rec.status (testId_decoded (Js.lit "T1") 11) <> Js.undefined.
Proof.
  apply (pushed_record_shape false
           1 new testId_packet
           (done (make testId_packet 11)
                 [push (testId_decoded (Js.lit "T1") 11)] None)).
  - vm_compute. reflexivity.
  - left. reflexivity.
Defined.

(** ** The size of a packet *)

Lemma varint_size_range n : 1 <= varint_size n <= 4.
Proof.
  unfold varint_size.
  repeat (match goal with |- context [?a <=? ?b] =>
                          destruct (Z.leb_spec a b) end); lia.
Qed.

Lemma byteLength_nonneg str : 0 <= Buf.byteLength str.
Proof. apply length_nonneg. Qed.

Lemma string_size_lower str : 1 + Buf.byteLength str <= string_size str.
Proof.
  unfold string_size. pose proof (varint_size_range (Buf.byteLength str)). lia.
Qed.

Lemma writeVarInt_size n b :
  writeVarInt n = Ok b -> Buf.length b = varint_size n.
Proof.
  intros H. destruct (writeVarInt_total n) as (b' & E & L & _).
  { apply (writeVarInt_range _ _ H). }
  congruence.
Qed.

Lemma writeUtf8_size str b :
  writeUtf8 str = Ok b -> Buf.length b = string_size str.
Proof.
  intros H. apply writeUtf8_ok in H. destruct H as (num & E & ->).
  rewrite length_app, (writeVarInt_size _ _ E). reflexivity.
Qed.

Lemma writeUtf8_fits str :
  string_size str < 1073741824 -> exists b, writeUtf8 str = Ok b.
Proof.
  intros H. pose proof (string_size_lower str).
  destruct (writeUtf8_total str) as (num & _ & E); [lia|]. eauto.
Qed.

Ltac ok_pair H :=
  apply Ok_inj in H; apply pair_inj in H; destruct H as [? H]; subst.

Lemma put_timestamp_size chunk f b f' b' :
  ObjectToSubunitStream.put_timestamp chunk (f, b) = Ok (f', b') ->
  Buf.length (Buf.concat b')
  = Buf.length (Buf.concat b) + opt_size timestamp_size (Rec.timestamp chunk).
Proof.
  unfold ObjectToSubunitStream.put_timestamp. intros H.
  destruct (Rec.timestamp chunk) as [[millis|]|]; cbn [opt_size];
    [|not_a_number H|].
  - bind_as H vn E1. bind_as H buf E2. ok_pair H.
    apply writeUIntBE_ok in E2. destruct E2 as [_ ->].
    rewrite concat_snoc, !length_app, be_bytes_length.
    rewrite (writeVarInt_size _ _ E1). unfold timestamp_size. lia.
  - ok_pair H. lia.
Qed.

Lemma put_timestamp_total chunk st :
  timestamp_fits chunk ->
  exists st', ObjectToSubunitStream.put_timestamp chunk st = Ok st'.
Proof.
  unfold timestamp_fits, ObjectToSubunitStream.put_timestamp.
  destruct st as [f b].
  destruct (Rec.timestamp chunk) as [[millis|]|]; [|contradiction|eauto].
  intros H. destruct (nanos_range millis) as [_ R].
  destruct (writeVarInt_total (ObjectToSubunitStream.nanos_of millis))
    as (vn & -> & _); [lia|].
  cbn [bind]. rewrite writeUIntBE_total; [cbn [bind]; eauto|].
  unfold ObjectToSubunitStream.seconds_of.
  change (256 ^ Z.of_nat 4) with 4294967296. divmod.
Qed.

Lemma timestamp_must_fit chunk st st' :
  ObjectToSubunitStream.put_timestamp chunk st = Ok st' ->
  timestamp_fits chunk.
Proof.
  intros H. unfold timestamp_fits.
  destruct (Rec.timestamp chunk) as [[millis|]|] eqn:E; [| |exact I].
  2: { unfold ObjectToSubunitStream.put_timestamp in H.
       destruct st as [f b]. rewrite E in H. not_a_number H. }
  destruct (Z.lt_ge_cases millis 0) as [Hn|Hn].
  { rewrite (timestamp_out_of_range chunk millis st E) in H by lia.
    discriminate. }
  destruct (Z.lt_ge_cases millis 4294967296000) as [Hm|Hm]; [lia|].
  rewrite (timestamp_out_of_range chunk millis st E) in H by lia.
  discriminate.
Qed.

Ltac string_block_size put :=
  unfold put; intros H;
  match type of H with
  | match ?x with _ => _ end = _ => destruct x
  end; cbn [opt_size];
  [ let w := fresh "w" in
    let E := fresh "E" in
    bind_as H w E; ok_pair H;
    rewrite concat_snoc, length_app, (writeUtf8_size _ _ E); reflexivity
  | ok_pair H; lia ].

Lemma put_testId_size chunk f b f' b' :
  ObjectToSubunitStream.put_testId chunk (f, b) = Ok (f', b') ->
  Buf.length (Buf.concat b')
  = Buf.length (Buf.concat b) + opt_size string_size (Rec.testId chunk).
Proof. string_block_size ObjectToSubunitStream.put_testId. Qed.

Lemma put_mimeType_size chunk f b f' b' :
  ObjectToSubunitStream.put_mimeType chunk (f, b) = Ok (f', b') ->
  Buf.length (Buf.concat b')
  = Buf.length (Buf.concat b) + opt_size string_size (Rec.mimeType chunk).
Proof. string_block_size ObjectToSubunitStream.put_mimeType. Qed.

Lemma put_routeCode_size chunk f b f' b' :
  ObjectToSubunitStream.put_routeCode chunk (f, b) = Ok (f', b') ->
  Buf.length (Buf.concat b')
  = Buf.length (Buf.concat b) + opt_size string_size (Rec.routeCode chunk).
Proof. string_block_size ObjectToSubunitStream.put_routeCode. Qed.

Ltac string_block_total put :=
  unfold put; intros H;
  match goal with
  | |- exists _, (let '(_, _) := ?st in _) = _ => destruct st
  end;
  match goal with
  | |- exists _, match ?x with _ => _ end = _ => destruct x
  end; cbn [opt_size] in H;
  [ let w := fresh "w" in
    let E := fresh "E" in
    destruct (writeUtf8_fits _ H) as [w E]; rewrite E; cbn [bind]; eauto
  | eauto ].

Lemma put_testId_total chunk st :
  opt_size string_size (Rec.testId chunk) < 1073741824 ->
  exists st', ObjectToSubunitStream.put_testId chunk st = Ok st'.
Proof. string_block_total ObjectToSubunitStream.put_testId. Qed.

Lemma put_mimeType_total chunk st :
  opt_size string_size (Rec.mimeType chunk) < 1073741824 ->
  exists st', ObjectToSubunitStream.put_mimeType chunk st = Ok st'.
Proof. string_block_total ObjectToSubunitStream.put_mimeType. Qed.

Lemma put_routeCode_total chunk st :
  opt_size string_size (Rec.routeCode chunk) < 1073741824 ->
  exists st', ObjectToSubunitStream.put_routeCode chunk st = Ok st'.
Proof. string_block_total ObjectToSubunitStream.put_routeCode. Qed.

Lemma strings_size_lower tags :
  Z.of_nat (List.length tags) <= strings_size tags.
Proof.
  induction tags as [|tag tags IH]; [reflexivity|].
  unfold strings_size in *. cbn [map fold_right List.length].
  pose proof (string_size_lower tag). pose proof (byteLength_nonneg tag). lia.
Qed.

Lemma push_tags_size tags :
  forall body body',
    ObjectToSubunitStream.push_tags tags body = Ok body' ->
    Buf.length (Buf.concat body')
    = Buf.length (Buf.concat body) + strings_size tags.
Proof.
  induction tags as [|tag tags IH]; intros body body' H;
    cbn [ObjectToSubunitStream.push_tags] in H.
  - apply Ok_inj in H. subst. unfold strings_size. cbn. lia.
  - bind_as H w E. rewrite (IH _ _ H), concat_snoc, length_app.
    rewrite (writeUtf8_size _ _ E).
    unfold strings_size. cbn [map fold_right]. lia.
Qed.

Lemma push_tags_total tags :
  forall body,
    strings_size tags < 1073741824 ->
    exists body', ObjectToSubunitStream.push_tags tags body = Ok body'.
Proof.
  induction tags as [|tag tags IH]; intros body H;
    cbn [ObjectToSubunitStream.push_tags]; [eauto|].
  unfold strings_size in H. cbn [map fold_right] in H.
  fold (strings_size tags) in H.
  pose proof (strings_size_lower tags).
  pose proof (string_size_lower tag). pose proof (byteLength_nonneg tag).
  destruct (writeUtf8_fits tag) as [w ->]; [lia|]. cbn [bind].
  apply IH. lia.
Qed.

Lemma put_tags_size chunk f b f' b' :
  ObjectToSubunitStream.put_tags chunk (f, b) = Ok (f', b') ->
  Buf.length (Buf.concat b')
  = Buf.length (Buf.concat b) + opt_size tags_size (Rec.tags chunk).
Proof.
  unfold ObjectToSubunitStream.put_tags. intros H.
  destruct (Rec.tags chunk) as [tags|]; cbn [opt_size].
  - bind_as H count E1. bind_as H body E2. ok_pair H.
    rewrite (push_tags_size _ _ _ E2), concat_snoc, length_app.
    rewrite (writeVarInt_size _ _ E1). unfold tags_size. lia.
  - ok_pair H. lia.
Qed.

Lemma put_tags_total chunk st :
  opt_size tags_size (Rec.tags chunk) < 1073741824 ->
  exists st', ObjectToSubunitStream.put_tags chunk st = Ok st'.
Proof.
  unfold ObjectToSubunitStream.put_tags. intros H. destruct st as [f b].
  destruct (Rec.tags chunk) as [tags|]; [|eauto].
  cbn [opt_size] in H. unfold tags_size in H.
  pose proof (varint_size_range (Z.of_nat (List.length tags))).
  pose proof (strings_size_lower tags).
  destruct (writeVarInt_total (Z.of_nat (List.length tags)))
    as (count & -> & _); [lia|].
  cbn [bind].
  destruct (push_tags_total tags (b ++ [count])) as [body ->]; [lia|].
  cbn [bind]. eauto.
Qed.

Lemma put_file_size chunk f b f' b' :
  ObjectToSubunitStream.put_file chunk (f, b) = Ok (f', b') ->
  Buf.length (Buf.concat b') = Buf.length (Buf.concat b) + file_size chunk.
Proof.
  unfold ObjectToSubunitStream.put_file, file_size. intros H.
  destruct (Rec.fileName chunk) as [name|];
    [destruct (Rec.fileContent chunk) as [content|]|].
  - bind_as H w E1. bind_as H len E2. ok_pair H.
    rewrite !app_assoc, !concat_snoc, !length_app.
    rewrite (writeUtf8_size _ _ E1), (writeVarInt_size _ _ E2). lia.
  - ok_pair H. lia.
  - ok_pair H. lia.
Qed.

Lemma put_file_total chunk st :
  file_size chunk < 1073741824 ->
  exists st', ObjectToSubunitStream.put_file chunk st = Ok st'.
Proof.
  unfold ObjectToSubunitStream.put_file, file_size. intros H.
  destruct st as [f b].
  destruct (Rec.fileName chunk) as [name|];
    [destruct (Rec.fileContent chunk) as [content|]|]; [|eauto..].
  pose proof (string_size_lower name). pose proof (byteLength_nonneg name).
  pose proof (varint_size_range (Buf.length content)).
  pose proof (length_nonneg content).
  destruct (writeUtf8_fits name) as [w ->]; [lia|]. cbn [bind].
  destruct (writeVarInt_total (Buf.length content)) as (len & -> & _); [lia|].
  cbn [bind]. eauto.
Qed.

Lemma opt_size_nonneg {A} (size : A -> Z) o :
  (forall a, 0 <= size a) -> 0 <= opt_size size o.
Proof. intros H. destruct o; cbn [opt_size]; [apply H | lia]. Qed.

Lemma string_size_nonneg str : 0 <= string_size str.
Proof.
  pose proof (string_size_lower str). pose proof (byteLength_nonneg str). lia.
Qed.

Lemma timestamp_size_nonneg timestamp : 0 <= timestamp_size timestamp.
Proof.
  unfold timestamp_size. destruct timestamp as [millis|]; [|lia].
  pose proof (varint_size_range (ObjectToSubunitStream.nanos_of millis)). lia.
Qed.

Lemma tags_size_nonneg tags : 0 <= tags_size tags.
Proof.
  unfold tags_size. pose proof (strings_size_lower tags).
  pose proof (varint_size_range (Z.of_nat (List.length tags))). lia.
Qed.

Lemma file_size_nonneg chunk : 0 <= file_size chunk.
Proof.
  unfold file_size.
  destruct (Rec.fileName chunk) as [name|];
    [destruct (Rec.fileContent chunk) as [content|]|]; try lia.
  pose proof (string_size_nonneg name).
  pose proof (varint_size_range (Buf.length content)).
  pose proof (length_nonneg content). lia.
Qed.

Lemma fields_size chunk flags body :
  ObjectToSubunitStream.fields chunk = Ok (flags, body) ->
  timestamp_fits chunk /\ Buf.length (Buf.concat body) = body_size chunk.
Proof.
  unfold ObjectToSubunitStream.fields. intros H.
  bind_as H s1 E1. destruct s1 as [f1 b1].
  bind_as H s2 E2. destruct s2 as [f2 b2].
  bind_as H s3 E3. destruct s3 as [f3 b3].
  bind_as H s4 E4. destruct s4 as [f4 b4].
  bind_as H s5 E5. destruct s5 as [f5 b5].
  split; [apply (timestamp_must_fit _ _ _ E1)|].
  rewrite (put_routeCode_size _ _ _ _ _ H), (put_file_size _ _ _ _ _ E5),
    (put_mimeType_size _ _ _ _ _ E4), (put_tags_size _ _ _ _ _ E3),
    (put_testId_size _ _ _ _ _ E2), (put_timestamp_size _ _ _ _ _ E1).
  unfold body_size. cbn. lia.
Qed.

Lemma fields_total chunk :
  timestamp_fits chunk -> body_size chunk < 1073741824 ->
  exists st, ObjectToSubunitStream.fields chunk = Ok st.
Proof.
  intros T B. unfold body_size in B.
  pose proof (opt_size_nonneg timestamp_size (Rec.timestamp chunk)
                              timestamp_size_nonneg).
  pose proof (opt_size_nonneg string_size (Rec.testId chunk)
                              string_size_nonneg).
  pose proof (opt_size_nonneg tags_size (Rec.tags chunk) tags_size_nonneg).
  pose proof (opt_size_nonneg string_size (Rec.mimeType chunk)
                              string_size_nonneg).
  pose proof (file_size_nonneg chunk).
  pose proof (opt_size_nonneg string_size (Rec.routeCode chunk)
                              string_size_nonneg).
  unfold ObjectToSubunitStream.fields.
  destruct (put_timestamp_total
              chunk (ObjectToSubunitStream.initial_flags chunk, []) T)
    as [s1 ->].
  cbn [bind]. destruct (put_testId_total chunk s1) as [s2 ->]; [lia|].
  cbn [bind]. destruct (put_tags_total chunk s2) as [s3 ->]; [lia|].
  cbn [bind]. destruct (put_mimeType_total chunk s3) as [s4 ->]; [lia|].
  cbn [bind]. destruct (put_file_total chunk s4) as [s5 ->]; [lia|].
  cbn [bind]. apply put_routeCode_total. lia.
Qed.

Lemma assemble_size flags body pkt :
  ObjectToSubunitStream.assemble flags body = Ok pkt ->
  Buf.length pkt
  = 7 + Buf.length (Buf.concat body) + varint_size (Buf.length pkt)
  /\ Buf.length (Buf.concat body) <= 4194293.
Proof.
  intros H. destruct (assemble_ok _ _ _ H) as (len & _ & E & L & P).
  pose proof (writeVarInt_size _ _ E) as Hs.
  assert (Buf.length pkt = 7 + Buf.length (Buf.concat body) + Buf.length len).
  { rewrite P at 1. cbn [app].
    rewrite length_cons, !length_app, be_bytes_length, crc32_length. lia. }
  split; [lia|].
  pose proof (length_nonneg (Buf.concat body)).
  unfold varint_size in Hs.
  repeat (match type of Hs with context [?a <=? ?b] =>
                                destruct (Z.leb_spec a b) end); lia.
Qed.

Lemma encoder_succeeds_aux chunk :
  timestamp_fits chunk -> body_size chunk <= 4194293 ->
  exists pkt, ObjectToSubunitStream._transform chunk = Ok pkt.
Proof.
  intros T B. destruct (fields_total chunk T) as [[flags body] Hf]; [lia|].
  destruct (fields_flags _ _ _ Hf) as (R & _).
  destruct (fields_size _ _ _ Hf) as [_ S].
  destruct (assemble_total flags body R) as [pkt Ha]; [lia|].
  exists pkt. unfold ObjectToSubunitStream._transform. rewrite Hf.
  exact Ha.
Qed.

(** X15.  The encoder returns a packet exactly for the records
    whose timestamp, if there is one, has seconds that fit four octets
    ([0 <= millis < 4294967296000]) and whose body is at most 4194293
    octets long; for every other record it throws. *)
Theorem encoder_succeeds_iff (chunk : Rec.t) :
  (exists pkt, ObjectToSubunitStream._transform chunk = Ok pkt)
  <-> timestamp_fits chunk /\ body_size chunk <= 4194293.
Proof.
  split.
  - intros [pkt H]. apply transform_ok in H.
    destruct H as (flags & body & Hf & Ha).
    destruct (fields_size _ _ _ Hf) as [T S].
    destruct (assemble_size _ _ _ Ha) as [_ B]. split; [assumption|lia].
  - intros [T B]. now apply encoder_succeeds_aux.
Qed.

Lemma encoder_succeeds_iff_witness :
  exists pkt, ObjectToSubunitStream._transform log_record = Ok pkt.
Proof.
  apply (encoder_succeeds_iff log_record).
  split; [unfold timestamp_fits; cbn; lia | vm_compute; discriminate].
Defined.

(** X16.  The size of a packet: 7 octets (signature, flag word,
    checksum), the octets of its own length field, and the body.  The
    body has, for a timestamp, 4 octets and the varint of the
    nanoseconds; for each string, a varint of its UTF-8 length and that
    many octets; for the tags, the varint of their number and each tag as
    a string; for a file, the name as a string, the varint of the
    content's length and the content. *)
Theorem encoded_packet_size (chunk : Rec.t) (pkt : Buffer) :
  ObjectToSubunitStream._transform chunk = Ok pkt ->
  Buf.length pkt = 7 + body_size chunk + varint_size (Buf.length pkt).
Proof.
  intros H. apply transform_ok in H.
  destruct H as (flags & body & Hf & Ha).
  destruct (fields_size _ _ _ Hf) as [_ S].
  destruct (assemble_size _ _ _ Ha) as [L _]. lia.
Qed.

Lemma encoded_packet_size_witness :
  Buf.length log_packet
  = 7 + body_size log_record + varint_size (Buf.length log_packet).
Proof.
  apply (encoded_packet_size log_record log_packet). vm_compute. reflexivity.
Defined.

(** ** What the encoder throws *)

Lemma only_error_ok {A} (a : A) : only_error (Ok a).
Proof. intros e H. discriminate. Qed.

Lemma only_error_throw {A} msg : only_error (@Throw A (Error msg)).
Proof.
  intros e H.
  apply (f_equal (fun r => match r with Throw x => x | Ok _ => e end)) in H.
  eauto.
Qed.

Lemma only_error_bind {A B} (m : result A) (k : A -> result B) :
  only_error m -> (forall a, only_error (k a)) -> only_error (bind m k).
Proof.
  intros Hm Hk e H. destruct m as [a|e']; cbn [bind] in H.
  - apply (Hk a e H).
  - apply (Hm e). congruence.
Qed.

Lemma only_error_writeVarInt n : only_error (writeVarInt n).
Proof.
  intros e H.
  destruct (Z.lt_ge_cases n 0) as [Hn|Hn].
  { destruct (writeVarInt_throws n) as [msg E]; [lia|].
    rewrite E in H. apply (only_error_throw msg e H). }
  destruct (Z.lt_ge_cases n 1073741824) as [Hm|Hm].
  { destruct (writeVarInt_total n) as (b & E & _); [lia|]. congruence. }
  destruct (writeVarInt_throws n) as [msg E]; [lia|].
  rewrite E in H. apply (only_error_throw msg e H).
Qed.

Lemma only_error_writeUtf8 str : only_error (writeUtf8 str).
Proof.
  unfold writeUtf8. apply only_error_bind; [apply only_error_writeVarInt|].
  intros num. apply only_error_ok.
Qed.

Lemma only_error_push_tags tags :
  forall body, only_error (ObjectToSubunitStream.push_tags tags body).
Proof.
  induction tags as [|tag tags IH]; intros body;
    cbn [ObjectToSubunitStream.push_tags]; [apply only_error_ok|].
  apply only_error_bind; [apply only_error_writeUtf8|]. intros w. apply IH.
Qed.

Lemma only_error_total {A} (m : result A) :
  (exists a, m = Ok a) -> only_error m.
Proof. intros [a ->]. apply only_error_ok. Qed.

Ltac only_error_tac :=
  repeat first
    [ apply only_error_ok
    | apply only_error_writeVarInt
    | apply only_error_writeUtf8
    | apply only_error_push_tags
    | apply only_error_bind; [|intros ?] ].

Lemma only_error_put_testId chunk st :
  only_error (ObjectToSubunitStream.put_testId chunk st).
Proof.
  unfold ObjectToSubunitStream.put_testId. destruct st as [f b].
  destruct (Rec.testId chunk); only_error_tac.
Qed.

Lemma only_error_put_tags chunk st :
  only_error (ObjectToSubunitStream.put_tags chunk st).
Proof.
  unfold ObjectToSubunitStream.put_tags. destruct st as [f b].
  destruct (Rec.tags chunk); only_error_tac.
Qed.

Lemma only_error_put_mimeType chunk st :
  only_error (ObjectToSubunitStream.put_mimeType chunk st).
Proof.
  unfold ObjectToSubunitStream.put_mimeType. destruct st as [f b].
  destruct (Rec.mimeType chunk); only_error_tac.
Qed.

Lemma only_error_put_file chunk st :
  only_error (ObjectToSubunitStream.put_file chunk st).
Proof.
  unfold ObjectToSubunitStream.put_file. destruct st as [f b].
  destruct (Rec.fileName chunk); [destruct (Rec.fileContent chunk)|];
    only_error_tac.
Qed.

Lemma only_error_put_routeCode chunk st :
  only_error (ObjectToSubunitStream.put_routeCode chunk st).
Proof.
  unfold ObjectToSubunitStream.put_routeCode. destruct st as [f b].
  destruct (Rec.routeCode chunk); only_error_tac.
Qed.

Lemma only_error_fields chunk :
  timestamp_fits chunk -> only_error (ObjectToSubunitStream.fields chunk).
Proof.
  intros T. unfold ObjectToSubunitStream.fields.
  apply only_error_bind;
    [apply only_error_total; now apply put_timestamp_total|intros s1].
  apply only_error_bind; [apply only_error_put_testId|intros s2].
  apply only_error_bind; [apply only_error_put_tags|intros s3].
  apply only_error_bind; [apply only_error_put_mimeType|intros s4].
  apply only_error_bind; [apply only_error_put_file|intros s5].
  apply only_error_put_routeCode.
Qed.

Lemma only_error_assemble flags body :
  0 <= flags < 65536 ->
  only_error (ObjectToSubunitStream.assemble flags body).
Proof.
  intros R. unfold ObjectToSubunitStream.assemble.
  apply only_error_bind.
  { repeat (match goal with |- context [?a <=? ?b] =>
                            destruct (Z.leb_spec a b) end);
      apply only_error_ok || apply only_error_throw. }
  intros ll.
  rewrite (writeUIntBE_total signature 1) by (cbn; unfold signature; lia).
  rewrite (writeUIntBE_total flags 2) by (cbn; lia).
  cbn [bind]. only_error_tac.
Qed.

(** With a timestamp that fits, or none, the encoder throws a plain
    [Error], and only for a body that is too long. *)
Lemma fitting_errors chunk e :
  timestamp_fits chunk ->
  ObjectToSubunitStream._transform chunk = Throw e ->
  4194293 < body_size chunk /\ exists msg, e = Error msg.
Proof.
  intros T H. split.
  - destruct (Z.lt_ge_cases 4194293 (body_size chunk)) as [|B];
      [assumption|].
    assert (Hs : exists pkt, ObjectToSubunitStream._transform chunk = Ok pkt).
    { apply encoder_succeeds_aux; [assumption|lia]. }
    destruct Hs as [pkt Hs]. congruence.
  - unfold ObjectToSubunitStream._transform in H.
    destruct (ObjectToSubunitStream.fields chunk) as [[flags body]|e']
      eqn:Hf; cbn [bind] in H.
    + destruct (fields_flags _ _ _ Hf) as (R & _).
      apply (only_error_assemble flags body R e H).
    + assert (e' = e) by congruence. subst e'.
      apply (only_error_fields chunk T e Hf).
Qed.

(** X17.  What the encoder throws.  Either the timestamp is a valid
    Date whose seconds do not fit four octets, and the exception is the
    one of the Buffer write; or the timestamp is an invalid Date, and the
    exception is the [Error] of [writeVarInt] for [NaN]; or the timestamp
    is absent or fits, the body is longer than 4194293 octets, and the
    exception is a plain [Error] (of [writeVarInt], or 'Length too
    long'). *)
Theorem encoder_errors (chunk : Rec.t) (e : exn) :
  ObjectToSubunitStream._transform chunk = Throw e ->
  (exists millis,
      Rec.timestamp chunk = Some (Date.valid millis)
      /\ (millis < 0 \/ 4294967296000 <= millis)
      /\ e = OutOfBounds)
  \/ (Rec.timestamp chunk = Some Date.invalid
      /\ e = Error "Value is too large to encode: NaN")
  \/ (timestamp_fits chunk /\ 4194293 < body_size chunk
      /\ exists msg, e = Error msg).
Proof.
  intros H.
  destruct (Rec.timestamp chunk) as [[millis|]|] eqn:Et.
  - destruct (Z.lt_ge_cases millis 0) as [Hn|Hn];
      [|destruct (Z.lt_ge_cases millis 4294967296000) as [Hm|Hm]].
    + left. exists millis. split; [reflexivity|]. split; [lia|].
      unfold ObjectToSubunitStream._transform, ObjectToSubunitStream.fields
        in H.
      rewrite (timestamp_out_of_range chunk millis _ Et) in H by lia.
      cbn [bind] in H. congruence.
    + right. right.
      assert (T : timestamp_fits chunk)
        by (unfold timestamp_fits; rewrite Et; lia).
      split; [assumption|]. now apply fitting_errors.
    + left. exists millis. split; [reflexivity|]. split; [lia|].
      unfold ObjectToSubunitStream._transform, ObjectToSubunitStream.fields
        in H.
      rewrite (timestamp_out_of_range chunk millis _ Et) in H by lia.
      cbn [bind] in H. congruence.
  - right. left. split; [reflexivity|].
    unfold ObjectToSubunitStream._transform, ObjectToSubunitStream.fields,
      ObjectToSubunitStream.put_timestamp in H.
    rewrite Et in H. cbn [bind ObjectToSubunitStream.writeVarInt_NaN] in H.
    congruence.
  - right. right.
    assert (T : timestamp_fits chunk)
      by (unfold timestamp_fits; now rewrite Et).
    split; [assumption|]. now apply fitting_errors.
Qed.

Lemma encoder_errors_witness :
  (exists millis,
      Rec.timestamp undated_record = Some (Date.valid millis)
      /\ (millis < 0 \/ 4294967296000 <= millis)
      /\ Error "Value is too large to encode: NaN" = OutOfBounds)
  \/ (Rec.timestamp undated_record = Some Date.invalid
      /\ Error "Value is too large to encode: NaN"
         = Error "Value is too large to encode: NaN")
  \/ (timestamp_fits undated_record /\ 4194293 < body_size undated_record
      /\ exists msg, Error "Value is too large to encode: NaN" = Error msg).
Proof.
  apply (encoder_errors undated_record
                        (Error "Value is too large to encode: NaN")).
  vm_compute. reflexivity.
Defined.

(** ** What [readVarInt] reads *)

Lemma readUIntBE_short (b : Buffer) i n :
  Buf.length b < i + n -> Buf.readUIntBE b i n = Throw RangeError.
Proof.
  intros H. unfold Buf.readUIntBE.
  destruct (Z.leb_spec (i + n) (Buf.length b)); [lia | reflexivity].
Qed.

Lemma length_firstn_le n (l : Buffer) : Buf.length (firstn n l) <= Buf.length l.
Proof. unfold Buf.length. rewrite length_firstn. lia. Qed.

Lemma readVarInt_short b0 rest :
  octet b0 -> Buf.length rest < b0 / 64 ->
  readVarInt (b0 :: rest) 0 = Throw RangeError.
Proof.
  unfold octet. intros H0 H.
  unfold readVarInt. rewrite slice4, readUInt8_0. cbn [bind].
  destruct (first_octet_masks b0) as [E1 E2]; [lia|].
  rewrite E1, E2. clear E1 E2.
  pose proof (length_nonneg rest) as Hr.
  pose proof (length_firstn_le 3 rest) as Hf.
  assert (K : b0 / 64 = 1 \/ b0 / 64 = 2 \/ b0 / 64 = 3) by divmod.
  destruct K as [K|[K|K]]; rewrite K in *;
    cbn [Z.mul Z.eqb Pos.mul Pos.eqb];
    rewrite readUIntBE_short by (rewrite length_cons; lia);
    reflexivity.
Qed.

(** X18.  [readVarInt] on a buffer of octets.  The top two bits of
    the octet at the index give the number of octets, one more than their
    value.  If the buffer holds that many octets from the index on, the
    value is their big-endian number with the two top bits cleared, in
    whatever size it was written (a small value in a long form is
    accepted); if it holds fewer, or none, the call throws [RangeError]. *)
Theorem readVarInt_octets (buf : Buffer) (index : Z) (l : Buffer) :
  suffix_at buf index l -> Forall octet l ->
  readVarInt buf index
  = match l with
    | [] => Throw RangeError
    | first :: _ =>
      if varint_octets first <=? Buf.length l
      then Ok (Read.make
                 (varint_octets first)
                 (Buf.be_value (firstn (Z.to_nat (varint_octets first)) l)
                  mod (64 * 256 ^ (first / 64))))
      else Throw RangeError
    end.
Proof.
  intros Hs Oct. rewrite (readVarInt_here _ _ _ Hs).
  destruct l as [|b0 rest]; [reflexivity|].
  apply Forall_cons_iff in Oct. destruct Oct as [H0 Oct].
  unfold varint_octets. rewrite length_cons.
  pose proof (length_nonneg rest) as Hr.
  destruct (Z.leb_spec (1 + b0 / 64) (1 + Buf.length rest)) as [Hle|Hgt];
    [|apply readVarInt_short; [assumption|lia]].
  unfold octet in H0.
  assert (K : (b0 / 64 = 0 /\ 0 <= b0 < 64)
              \/ (b0 / 64 = 1 /\ 64 <= b0 < 128)
              \/ (b0 / 64 = 2 /\ 128 <= b0 < 192)
              \/ (b0 / 64 = 3 /\ 192 <= b0 < 256)) by divmod.
  destruct K as [[K R]|[[K R]|[[K R]|[K R]]]]; rewrite K in *; clear K.
  - rewrite readVarInt_1 by assumption.
    change (Z.to_nat (1 + 0)) with 1%nat. cbn [firstn].
    unfold Buf.be_value. cbn [fold_left].
    do 2 f_equal. change (64 * 256 ^ 0) with 64. divmod.
  - destruct rest as [|b1 rest]; [rewrite length_nil in Hle; lia|].
    apply Forall_cons_iff in Oct. destruct Oct as [H1 Oct].
    rewrite readVarInt_2 by assumption.
    change (Z.to_nat (1 + 1)) with 2%nat. cbn [firstn].
    unfold Buf.be_value. cbn [fold_left].
    do 2 f_equal. change (64 * 256 ^ 1) with 16384.
    unfold octet in H1. divmod.
  - destruct rest as [|b1 [|b2 rest]];
      [rewrite length_nil in Hle; lia
      |rewrite length_cons, length_nil in Hle; lia|].
    apply Forall_cons_iff in Oct. destruct Oct as [H1 Oct].
    apply Forall_cons_iff in Oct. destruct Oct as [H2 Oct].
    rewrite readVarInt_3 by assumption.
    change (Z.to_nat (1 + 2)) with 3%nat. cbn [firstn].
    unfold Buf.be_value. cbn [fold_left].
    do 2 f_equal. change (64 * 256 ^ 2) with 4194304.
    unfold octet in H1, H2. divmod.
  - destruct rest as [|b1 [|b2 [|b3 rest]]];
      [rewrite length_nil in Hle; lia
      |rewrite length_cons, length_nil in Hle; lia
      |rewrite !length_cons, length_nil in Hle; lia|].
    apply Forall_cons_iff in Oct. destruct Oct as [H1 Oct].
    apply Forall_cons_iff in Oct. destruct Oct as [H2 Oct].
    apply Forall_cons_iff in Oct. destruct Oct as [H3 Oct].
    rewrite readVarInt_4 by assumption.
    change (Z.to_nat (1 + 3)) with 4%nat. cbn [firstn].
    unfold Buf.be_value. cbn [fold_left].
    do 2 f_equal. change (64 * 256 ^ 3) with 1073741824.
    unfold octet in H1, H2, H3. divmod.
Qed.

Lemma readVarInt_octets_witness :
  readVarInt [179; 40; 0; 0x40; 0x05] 3
  = if varint_octets 0x40 <=? Buf.length [0x40; 0x05]
    then Ok (Read.make
               (varint_octets 0x40)
               (Buf.be_value
                  (firstn (Z.to_nat (varint_octets 0x40)) [0x40; 0x05])
                mod (64 * 256 ^ (0x40 / 64))))
    else Throw RangeError.
Proof.
  apply (readVarInt_octets [179; 40; 0; 0x40; 0x05] 3 [0x40; 0x05]).
  - split; [lia | reflexivity].
  - repeat constructor; unfold octet; lia.
Defined.

(** ** Strings with unpaired surrogates *)

Lemma decode_replacement r :
  Utf8.decode (Utf8.replacement ++ r) = 0xFFFD :: Utf8.decode r.
Proof.
  change Utf8.replacement with (Utf8.encode_point 0xFFFD).
  rewrite decode_encode_point by (unfold scalar; lia).
  reflexivity.
Qed.

Lemma encode_unfold c s :
  Utf8.encode (c :: s)
  = if Utf8.is_high c then
      match s with
      | d :: s'' =>
        if Utf8.is_low d
        then Utf8.encode_point (0x10000 + (c - 0xD800) * 1024 + (d - 0xDC00))
               ++ Utf8.encode s''
        else Utf8.replacement ++ Utf8.encode s
      | [] => Utf8.replacement
      end
    else if Utf8.is_low c then Utf8.replacement ++ Utf8.encode s
    else Utf8.encode_point c ++ Utf8.encode s.
Proof. destruct s; reflexivity. Qed.

Lemma to_well_formed_unfold c s :
  to_well_formed (c :: s)
  = if Utf8.is_high c then
      match s with
      | d :: s'' =>
        if Utf8.is_low d then c :: d :: to_well_formed s''
        else 0xFFFD :: to_well_formed s
      | [] => [0xFFFD]
      end
    else if Utf8.is_low c then 0xFFFD :: to_well_formed s
    else c :: to_well_formed s.
Proof. destruct s; reflexivity. Qed.

Lemma encode_cons_lone c s :
  (Utf8.is_high c = true ->
   match s with d :: _ => Utf8.is_low d = false | [] => True end) ->
  Utf8.is_high c = true \/ Utf8.is_low c = true ->
  Utf8.encode (c :: s) = Utf8.replacement ++ Utf8.encode s.
Proof.
  intros Hn H. rewrite encode_unfold.
  destruct (Utf8.is_high c) eqn:Hh.
  - destruct s as [|d s]; [reflexivity|]. now rewrite (Hn eq_refl).
  - destruct H as [H|H]; [discriminate|]. now rewrite H.
Qed.

Lemma to_well_formed_lone c s :
  (Utf8.is_high c = true ->
   match s with d :: _ => Utf8.is_low d = false | [] => True end) ->
  Utf8.is_high c = true \/ Utf8.is_low c = true ->
  to_well_formed (c :: s) = 0xFFFD :: to_well_formed s.
Proof.
  intros Hn H. rewrite to_well_formed_unfold.
  destruct (Utf8.is_high c) eqn:Hh.
  - destruct s as [|d s]; [reflexivity|]. now rewrite (Hn eq_refl).
  - destruct H as [H|H]; [discriminate|]. now rewrite H.
Qed.

Lemma to_well_formed_pair c d s :
  Utf8.is_high c = true -> Utf8.is_low d = true ->
  to_well_formed (c :: d :: s) = c :: d :: to_well_formed s.
Proof. intros Hc Hd. cbn [to_well_formed]. now rewrite Hc, Hd. Qed.

Lemma to_well_formed_single c s :
  Utf8.is_high c = false -> Utf8.is_low c = false ->
  to_well_formed (c :: s) = c :: to_well_formed s.
Proof.
  intros Hc Hd. remember (to_well_formed s) as e.
  cbn [to_well_formed]. rewrite Hc, Hd. now subst e.
Qed.

Lemma decode_encode_any_aux s :
  Forall code_unit s ->
  Utf8.decode (Utf8.encode s) = to_well_formed s
  /\ (forall c, code_unit c ->
                Utf8.decode (Utf8.encode (c :: s)) = to_well_formed (c :: s)).
Proof.
  induction s as [|d s IH]; intros Hs.
  - split; [reflexivity|]. intros c Hc.
    destruct (Utf8.is_high c) eqn:Hh; [|destruct (Utf8.is_low c) eqn:Hl].
    + rewrite encode_cons_lone, to_well_formed_lone by auto.
      apply decode_replacement.
    + rewrite encode_cons_lone, to_well_formed_lone
        by (auto || (intro; congruence)).
      apply decode_replacement.
    + rewrite encode_cons_single, to_well_formed_single by assumption.
      rewrite decode_encode_point by (now apply scalar_unit).
      now rewrite units_single.
  - apply Forall_cons_iff in Hs. destruct Hs as [Hd Hs].
    destruct (IH Hs) as [IHa IHb]. split; [now apply IHb|].
    intros c Hc.
    destruct (Utf8.is_high c) eqn:Hh; [destruct (Utf8.is_low d) eqn:Hld|].
    + rewrite encode_cons_pair, to_well_formed_pair by assumption.
      apply high_spec in Hh. apply low_spec in Hld.
      rewrite decode_encode_point by (unfold scalar; lia).
      rewrite units_pair by lia. cbn [app]. now rewrite IHa.
    + rewrite encode_cons_lone, to_well_formed_lone by auto.
      rewrite decode_replacement. now rewrite IHb.
    + destruct (Utf8.is_low c) eqn:Hl.
      * rewrite encode_cons_lone, to_well_formed_lone
          by (auto || (intro; congruence)).
        rewrite decode_replacement. now rewrite IHb.
      * rewrite encode_cons_single, to_well_formed_single by assumption.
        rewrite decode_encode_point by (now apply scalar_unit).
        rewrite units_single by assumption. cbn [app]. now rewrite IHb.
Qed.

Lemma to_well_formed_id_aux s :
  (Utf8.well_formed s = true -> to_well_formed s = s)
  /\ (forall c, Utf8.well_formed (c :: s) = true ->
                to_well_formed (c :: s) = c :: s).
Proof.
  induction s as [|d s [IHa IHb]].
  - split; [reflexivity|]. intros c H. cbn [Utf8.well_formed] in H.
    destruct (Utf8.is_high c) eqn:Hh; [discriminate|].
    rewrite !andb_true_iff in H. destruct H as [[_ Hl] _].
    apply negb_true_iff in Hl. now rewrite to_well_formed_single.
  - split; [apply IHb|]. intros c H. cbn [Utf8.well_formed] in H.
    destruct (Utf8.is_high c) eqn:Hh.
    + apply andb_true_iff in H. destruct H as [Hl Hs].
      rewrite to_well_formed_pair by assumption. now rewrite IHa.
    + fold (Utf8.well_formed (d :: s)) in H.
      rewrite !andb_true_iff in H. destruct H as [[_ Hl] Hs].
      apply negb_true_iff in Hl.
      rewrite to_well_formed_single by assumption. now rewrite IHb.
Qed.

Lemma well_formed_FFFD s :
  Utf8.well_formed s = true -> Utf8.well_formed (0xFFFD :: s) = true.
Proof.
  intros H. remember (Utf8.well_formed s) as w.
  cbn [Utf8.well_formed]. change (Utf8.is_high 65533) with false.
  change (Utf8.is_low 65533) with false. cbv iota.
  subst w. rewrite H. reflexivity.
Qed.

Lemma well_formed_single c s :
  code_unit c -> Utf8.is_high c = false -> Utf8.is_low c = false ->
  Utf8.well_formed s = true -> Utf8.well_formed (c :: s) = true.
Proof.
  unfold code_unit. intros Hc Hh Hl H. remember (Utf8.well_formed s) as w.
  cbn [Utf8.well_formed]. rewrite Hh, Hl. subst w. rewrite H.
  destruct (Z.leb_spec 0 c); [|lia]. destruct (Z.ltb_spec c 65536); [|lia].
  reflexivity.
Qed.

Lemma to_well_formed_ok_aux s :
  Forall code_unit s ->
  Utf8.well_formed (to_well_formed s) = true
  /\ (forall c, code_unit c ->
                Utf8.well_formed (to_well_formed (c :: s)) = true).
Proof.
  induction s as [|d s IH]; intros Hs.
  - split; [reflexivity|]. intros c Hc.
    destruct (Utf8.is_high c) eqn:Hh; [|destruct (Utf8.is_low c) eqn:Hl].
    + rewrite to_well_formed_lone by auto. reflexivity.
    + rewrite to_well_formed_lone by (auto || (intro; congruence)).
      reflexivity.
    + rewrite to_well_formed_single by assumption.
      now apply well_formed_single.
  - apply Forall_cons_iff in Hs. destruct Hs as [Hd Hs].
    destruct (IH Hs) as [IHa IHb]. split; [now apply IHb|].
    intros c Hc.
    destruct (Utf8.is_high c) eqn:Hh; [destruct (Utf8.is_low d) eqn:Hld|].
    + rewrite to_well_formed_pair by assumption.
      cbn [Utf8.well_formed]. now rewrite Hh, Hld, IHa.
    + rewrite to_well_formed_lone by auto.
      apply well_formed_FFFD. now apply IHb.
    + destruct (Utf8.is_low c) eqn:Hl.
      * rewrite to_well_formed_lone by (auto || (intro; congruence)).
        apply well_formed_FFFD. now apply IHb.
      * rewrite to_well_formed_single by assumption.
        apply well_formed_single; try assumption. now apply IHb.
Qed.

(** X19.  Any string of 16-bit code units whose UTF-8 form
    is at most 1073741823 octets long can be written, and is read back,
    whatever follows it in the buffer, with every unpaired surrogate
    replaced by U+FFFD; the consumed length is that of what was written.
    What is read back always has its surrogates paired, and it is the
    string that was written exactly when that string had them paired. *)
Theorem unpaired_surrogates_replaced (str : Js.String) (post : Buffer) :
  Forall code_unit str -> Buf.byteLength str <= 1073741823 ->
  exists b,
    writeUtf8 str = Ok b
    /\ readUtf8 (b ++ post) 0
       = Ok (Read.make (Buf.length b) (to_well_formed str))
    /\ Utf8.well_formed (to_well_formed str) = true
    /\ (to_well_formed str = str <-> Utf8.well_formed str = true).
Proof.
  intros Hc Hl.
  destruct (writeUtf8_total str) as (num & E & Hw); [lia|].
  exists (num ++ Utf8.encode str). split; [assumption|].
  pose proof (proj1 (to_well_formed_ok_aux str Hc)) as W.
  split; [|split; [assumption|]].
  - unfold readUtf8. rewrite <- app_assoc.
    rewrite (readVarInt_writeVarInt _ _ _ E).
    cbn [bind Read.length Read.value].
    rewrite slice_middle by (unfold Buf.byteLength; lia).
    unfold Buf.toString.
    rewrite (proj1 (decode_encode_any_aux str Hc)).
    now rewrite length_app.
  - split.
    + intros Eq. now rewrite Eq in W.
    + apply to_well_formed_id_aux.
Qed.

Lemma unpaired_surrogates_replaced_witness :
  exists b,
    writeUtf8 [0xD800; 0x41] = Ok b
    /\ readUtf8 (b ++ [])  0
       = Ok (Read.make (Buf.length b) (to_well_formed [0xD800; 0x41]))
    /\ Utf8.well_formed (to_well_formed [0xD800; 0x41]) = true
    /\ (to_well_formed [0xD800; 0x41] = [0xD800; 0x41]
        <-> Utf8.well_formed [0xD800; 0x41] = true).
Proof.
  apply (unpaired_surrogates_replaced [0xD800; 0x41] []).
  - repeat constructor; unfold code_unit; lia.
  - vm_compute. discriminate.
Defined.

(** ** The octets of a packet *)

Lemma encode_point_octets cp :
  0 <= cp < 0x110000 -> Forall octet (Utf8.encode_point cp).
Proof.
  intros H. unfold Utf8.encode_point.
  destruct (Z.ltb_spec cp 0x80).
  { repeat constructor; unfold octet; lia. }
  destruct (Z.ltb_spec cp 0x800).
  { repeat constructor; unfold octet; divmod. }
  destruct (Z.ltb_spec cp 0x10000).
  { repeat constructor; unfold octet; divmod. }
  repeat constructor; unfold octet; divmod.
Qed.

Lemma encode_octets_aux s :
  (Utf8.well_formed s = true -> Forall octet (Utf8.encode s))
  /\ (forall c, Utf8.well_formed (c :: s) = true ->
                Forall octet (Utf8.encode (c :: s))).
Proof.
  induction s as [|d s [IHa IHb]].
  - split; [constructor|]. intros c H. cbn [Utf8.well_formed] in H.
    destruct (Utf8.is_high c) eqn:Hh; [discriminate|].
    rewrite !andb_true_iff in H. destruct H as [[[H0 H1] Hl] _].
    apply negb_true_iff in Hl. apply Z.leb_le in H0. apply Z.ltb_lt in H1.
    rewrite encode_cons_single by assumption.
    apply Forall_app. split; [apply encode_point_octets; lia | constructor].
  - split; [apply IHb|]. intros c H. cbn [Utf8.well_formed] in H.
    destruct (Utf8.is_high c) eqn:Hh.
    + apply andb_true_iff in H. destruct H as [Hl Hs].
      rewrite encode_cons_pair by assumption.
      apply high_spec in Hh. apply low_spec in Hl.
      apply Forall_app. split; [apply encode_point_octets; lia | now apply IHa].
    + fold (Utf8.well_formed (d :: s)) in H.
      rewrite !andb_true_iff in H. destruct H as [[[H0 H1] Hl] Hs].
      apply negb_true_iff in Hl. apply Z.leb_le in H0. apply Z.ltb_lt in H1.
      rewrite encode_cons_single by assumption.
      apply Forall_app. split; [apply encode_point_octets; lia | now apply IHb].
Qed.

Lemma writeVarInt_octets n b : writeVarInt n = Ok b -> Forall octet b.
Proof.
  intros H. destruct (writeVarInt_total n) as (b' & E & _ & O).
  { apply (writeVarInt_range _ _ H). }
  assert (b' = b) by congruence. now subst.
Qed.

Lemma writeUtf8_octets str b :
  Utf8.well_formed str = true -> writeUtf8 str = Ok b -> Forall octet b.
Proof.
  intros W H. apply writeUtf8_ok in H. destruct H as (num & E & ->).
  apply Forall_app. split; [apply (writeVarInt_octets _ _ E)|].
  now apply encode_octets_aux.
Qed.

Lemma be_bytes_octets n v : Forall octet (Buf.be_bytes n v).
Proof.
  induction n as [|n IH]; cbn [Buf.be_bytes]; constructor; [|assumption].
  unfold octet. apply Z.mod_pos_bound. lia.
Qed.

Lemma snoc_octets (body : list Buffer) (b : Buffer) :
  Forall octet (Buf.concat body) -> Forall octet b ->
  Forall octet (Buf.concat (body ++ [b])).
Proof. intros H1 H2. rewrite concat_snoc. apply Forall_app. now split. Qed.

Lemma put_timestamp_octets chunk f b f' b' :
  ObjectToSubunitStream.put_timestamp chunk (f, b) = Ok (f', b') ->
  Forall octet (Buf.concat b) -> Forall octet (Buf.concat b').
Proof.
  unfold ObjectToSubunitStream.put_timestamp. intros H O.
  destruct (Rec.timestamp chunk) as [[millis|]|]; [|not_a_number H|].
  - bind_as H vn E1. bind_as H buf E2. ok_pair H.
    apply writeUIntBE_ok in E2. destruct E2 as [_ ->].
    apply snoc_octets; [assumption|]. apply Forall_app.
    split; [apply be_bytes_octets | apply (writeVarInt_octets _ _ E1)].
  - ok_pair H. assumption.
Qed.

Ltac string_block_octets put :=
  unfold put; intros W H O;
  match type of H with
  | match ?x with _ => _ end = _ => destruct x
  end;
  [ let w := fresh "w" in
    let E := fresh "E" in
    bind_as H w E; ok_pair H;
    apply snoc_octets; [assumption|]; apply (writeUtf8_octets _ _ W E)
  | ok_pair H; assumption ].

Lemma put_testId_octets chunk f b f' b' :
  well_formed_opt (Rec.testId chunk) = true ->
  ObjectToSubunitStream.put_testId chunk (f, b) = Ok (f', b') ->
  Forall octet (Buf.concat b) -> Forall octet (Buf.concat b').
Proof. string_block_octets ObjectToSubunitStream.put_testId. Qed.

Lemma put_mimeType_octets chunk f b f' b' :
  well_formed_opt (Rec.mimeType chunk) = true ->
  ObjectToSubunitStream.put_mimeType chunk (f, b) = Ok (f', b') ->
  Forall octet (Buf.concat b) -> Forall octet (Buf.concat b').
Proof. string_block_octets ObjectToSubunitStream.put_mimeType. Qed.

Lemma put_routeCode_octets chunk f b f' b' :
  well_formed_opt (Rec.routeCode chunk) = true ->
  ObjectToSubunitStream.put_routeCode chunk (f, b) = Ok (f', b') ->
  Forall octet (Buf.concat b) -> Forall octet (Buf.concat b').
Proof. string_block_octets ObjectToSubunitStream.put_routeCode. Qed.

Lemma push_tags_octets tags :
  forall body body',
    forallb Utf8.well_formed tags = true ->
    ObjectToSubunitStream.push_tags tags body = Ok body' ->
    Forall octet (Buf.concat body) -> Forall octet (Buf.concat body').
Proof.
  induction tags as [|tag tags IH]; intros body body' W H O;
    cbn [ObjectToSubunitStream.push_tags] in H.
  - apply Ok_inj in H. now subst.
  - cbn [forallb] in W. apply andb_true_iff in W. destruct W as [W1 W2].
    bind_as H w E. apply (IH _ _ W2 H).
    apply snoc_octets; [assumption|]. apply (writeUtf8_octets _ _ W1 E).
Qed.

Lemma put_tags_octets chunk f b f' b' :
  match Rec.tags chunk with
  | Some tags => forallb Utf8.well_formed tags
  | None => true
  end = true ->
  ObjectToSubunitStream.put_tags chunk (f, b) = Ok (f', b') ->
  Forall octet (Buf.concat b) -> Forall octet (Buf.concat b').
Proof.
  unfold ObjectToSubunitStream.put_tags. intros W H O.
  destruct (Rec.tags chunk) as [tags|].
  - bind_as H count E1. bind_as H body E2. ok_pair H.
    apply (push_tags_octets _ _ _ W E2).
    apply snoc_octets; [assumption|]. apply (writeVarInt_octets _ _ E1).
  - ok_pair H. assumption.
Qed.

Lemma put_file_octets chunk f b f' b' :
  (if has_file chunk then well_formed_opt (Rec.fileName chunk) else true)
  = true ->
  content_octets chunk ->
  ObjectToSubunitStream.put_file chunk (f, b) = Ok (f', b') ->
  Forall octet (Buf.concat b) -> Forall octet (Buf.concat b').
Proof.
  unfold ObjectToSubunitStream.put_file, has_file, content_octets.
  intros W C H O.
  destruct (Rec.fileName chunk) as [name|];
    [destruct (Rec.fileContent chunk) as [content|]|].
  - cbn in W. bind_as H w E1. bind_as H len E2. ok_pair H.
    rewrite !app_assoc. repeat apply snoc_octets; try assumption.
    + apply (writeUtf8_octets _ _ W E1).
    + apply (writeVarInt_octets _ _ E2).
  - ok_pair H. assumption.
  - ok_pair H. assumption.
Qed.

Lemma fields_octets chunk flags body :
  strings_well_formed chunk = true -> content_octets chunk ->
  ObjectToSubunitStream.fields chunk = Ok (flags, body) ->
  Forall octet (Buf.concat body).
Proof.
  intros W C H. unfold strings_well_formed in W.
  rewrite !andb_true_iff in W. destruct W as [[[[W1 W2] W3] W4] W5].
  unfold ObjectToSubunitStream.fields in H.
  bind_as H s1 E1. destruct s1 as [f1 b1].
  bind_as H s2 E2. destruct s2 as [f2 b2].
  bind_as H s3 E3. destruct s3 as [f3 b3].
  bind_as H s4 E4. destruct s4 as [f4 b4].
  bind_as H s5 E5. destruct s5 as [f5 b5].
  apply (put_routeCode_octets _ _ _ _ _ W5 H).
  apply (put_file_octets _ _ _ _ _ W4 C E5).
  apply (put_mimeType_octets _ _ _ _ _ W3 E4).
  apply (put_tags_octets _ _ _ _ _ W2 E3).
  apply (put_testId_octets _ _ _ _ _ W1 E2).
  apply (put_timestamp_octets _ _ _ _ _ E1).
  constructor.
Qed.

(** X20.  A packet is a Buffer of octets: for a record whose strings
    have their surrogates paired and whose file content holds octets,
    every element of the packet the encoder returns lies in [0, 255]. *)
Theorem packet_octets (chunk : Rec.t) (pkt : Buffer) :
  strings_well_formed chunk = true -> content_octets chunk ->
  ObjectToSubunitStream._transform chunk = Ok pkt ->
  Forall octet pkt.
Proof.
  intros W C H. apply transform_ok in H.
  destruct H as (flags & body & Hf & Ha).
  pose proof (fields_octets _ _ _ W C Hf) as O.
  destruct (assemble_ok _ _ _ Ha) as (len & _ & E & _ & ->).
  repeat (apply Forall_app; split); try assumption.
  - repeat constructor. unfold octet, signature. lia.
  - apply be_bytes_octets.
  - apply (writeVarInt_octets _ _ E).
  - unfold crc32. apply be_bytes_octets.
Qed.

Lemma packet_octets_witness : Forall octet log_packet.
Proof.
  apply (packet_octets log_record log_packet).
  - reflexivity.
  - repeat constructor; unfold octet; lia.
  - vm_compute. reflexivity.
Defined.
